(** * Reservator: the backup scheduler of [main.py]

    A shallow embedding of the scheduling core of [main.py]
    ([BackupTask], [BackupApp.scheduler_loop],
    [BackupApp.check_scheduled_tasks], [BackupApp.update_status],
    [BackupApp.run_task], [BackupApp.create_zip], [BackupApp.load_tasks],
    [BackupApp.edit_task], [TaskDialog.on_ok], [SettingsDialog.save]) and
    of the parts of Python's [datetime] and [calendar] modules it calls. *)

From Stdlib Require Import ZArith Lia Bool Ascii String.
From stdpp Require Import base option list strings pretty gmap.

Local Open Scope Z_scope.

(** ** Exceptions

    Python code that can raise returns a [res]: [Ok v] is a normal return,
    [Raise e] an exception propagating to the caller.  All the exception
    classes below derive from [Exception], so an [except Exception] clause
    catches every [Raise]. *)

Inductive exn : Type :=
  | ValueError
  | TypeError
  | OverflowError
  | RecursionError
  | KeyError
  | IndexError
  | AttributeError
  | PermissionError
  | FileNotFoundError
  | NotADirectoryError
  | ShutilError
  | TclError.

Inductive res (A : Type) : Type :=
  | Ok (a : A)
  | Raise (e : exn).
Arguments Ok {A} a.
Arguments Raise {A} e.

#[export] Instance res_ret : MRet res := fun A a => Ok a.
#[export] Instance res_bind : MBind res := fun A B f m =>
  match m with
  | Ok a => f a
  | Raise e => Raise e
  end.

Definition is_ok {A} (r : res A) : bool :=
  match r with Ok _ => true | Raise _ => false end.

(** ** The proleptic Gregorian calendar of [datetime] and [calendar] *)

Module Cal.

Definition MINYEAR : Z := 1.
Definition MAXYEAR : Z := 9999.

(** [calendar.isleap] / [datetime._is_leap] *)
Definition is_leap (y : Z) : bool :=
  (y mod 4 =? 0) && (negb (y mod 100 =? 0) || (y mod 400 =? 0)).

(** [datetime._days_in_month], also [calendar.monthrange(y, m)[1]] *)
Definition days_in_month (y m : Z) : Z :=
  if m =? 2 then (if is_leap y then 29 else 28)
  else if (m =? 4) || (m =? 6) || (m =? 9) || (m =? 11) then 30
  else 31.

(** [datetime._days_before_year]: days before January 1st of year [y] *)
Definition days_before_year (y : Z) : Z :=
  let y' := y - 1 in
  y' * 365 + y' / 4 - y' / 100 + y' / 400.

(** the table [datetime._DAYS_BEFORE_MONTH] *)
Definition DAYS_BEFORE_MONTH (m : Z) : Z :=
  match m with
  | 1 => 0 | 2 => 31 | 3 => 59 | 4 => 90 | 5 => 120 | 6 => 151
  | 7 => 181 | 8 => 212 | 9 => 243 | 10 => 273 | 11 => 304 | 12 => 334
  | _ => -1
  end.

(** [datetime._days_before_month] *)
Definition days_before_month (y m : Z) : Z :=
  DAYS_BEFORE_MONTH m + (if (2 <? m) && is_leap y then 1 else 0).

(** [datetime._ymd2ord]: 0001-01-01 is day 1 *)
Definition ymd2ord (y m d : Z) : Z :=
  days_before_year y + days_before_month y m + d.

(** [datetime._MAXORDINAL], the ordinal of 9999-12-31 *)
Definition MAXORDINAL : Z := 3652059.

Record date : Type := Date { dyear : Z; dmonth : Z; dday : Z }.

(** what [datetime._check_date_fields] accepts *)
Definition date_ok (y m d : Z) : bool :=
  (MINYEAR <=? y) && (y <=? MAXYEAR) && (1 <=? m) && (m <=? 12) &&
  (1 <=? d) && (d <=? days_in_month y m).

Definition toordinal (d : date) : Z := ymd2ord (dyear d) (dmonth d) (dday d).

(** The day after [d]; [None] past 9999-12-31. *)
Definition next_day (d : date) : option date :=
  let '(Date y m dd) := d in
  if dd <? days_in_month y m then Some (Date y m (dd + 1))
  else if m <? 12 then Some (Date y (m + 1) 1)
  else if y <? MAXYEAR then Some (Date (y + 1) 1 1)
  else None.

(** The day before [d]; [None] before 0001-01-01. *)
Definition prev_day (d : date) : option date :=
  let '(Date y m dd) := d in
  if 1 <? dd then Some (Date y m (dd - 1))
  else if 1 <? m then Some (Date y (m - 1) (days_in_month y (m - 1)))
  else if MINYEAR <? y then Some (Date (y - 1) 12 31)
  else None.

Fixpoint iter_day (step : date -> option date) (n : nat) (d : date) : option date :=
  match n with
  | O => Some d
  | S n' => match step d with
            | Some d' => iter_day step n' d'
            | None => None
            end
  end.

(** [date.fromordinal (d.toordinal () + k)]: the date [k] days from [d],
    [None] when it leaves [0001-01-01 .. 9999-12-31] (see
    [toordinal_shift_days] and [toordinal_inj] below). *)
Definition shift_days (d : date) (k : Z) : option date :=
  if 0 <=? k then iter_day next_day (Z.to_nat k) d
  else iter_day prev_day (Z.to_nat (- k)) d.

(** [date.weekday]: Monday is 0 *)
Definition weekday (d : date) : Z := (toordinal d + 6) mod 7.

End Cal.

(** ** Python values

    The fields of a [BackupTask] are untyped: the task dialog stores
    strings, a boolean and an integer or a tuple of integers, and
    [load_tasks] stores whatever [tasks.json] holds.  [pyval] covers the
    values that reach them, without floats and dictionaries. *)

#[warnings="-register-all"]
Inductive pyval : Type :=
  | PNone
  | PBool (b : bool)
  | PInt (z : Z)
  | PStr (s : string)
  | PTuple (l : list pyval)
  | PList (l : list pyval).

(** truth value of [v] in an [if] *)
Definition truthy (v : pyval) : bool :=
  match v with
  | PNone => false
  | PBool b => b
  | PInt z => negb (z =? 0)
  | PStr s => negb (String.eqb s EmptyString)
  | PTuple l | PList l => match l with [] => false | _ => true end
  end.

(** [v == "lit"] for a string literal: true only for that very [str] *)
Definition eq_str (v : pyval) (lit : string) : bool :=
  match v with
  | PStr s => String.eqb s lit
  | _ => false
  end.

(** an operand of integer arithmetic ([bool] is a subclass of [int]) *)
Definition as_int (v : pyval) : res Z :=
  match v with
  | PInt z => Ok z
  | PBool b => Ok (Z.b2z b)
  | _ => Raise TypeError
  end.

(** an argument that the C implementation of [datetime] converts to a C
    [int]: [TypeError] for a non-integer, [OverflowError] beyond 32 bits *)
Definition as_c_int (v : pyval) : res Z :=
  z ← as_int v;
  if (- 2 ^ 31 <=? z) && (z <? 2 ^ 31) then Ok z else Raise OverflowError.

(** The characters of a [str], each as a [str] of its own.  Strings hold
    UTF-8: a byte [10xxxxxx] continues the character before it. *)
Definition is_continuation (b : ascii) : bool :=
  (128 <=? nat_of_ascii b)%nat && (nat_of_ascii b <? 192)%nat.

Fixpoint chars_from (cur : string) (s : string) : list string :=
  match s with
  | EmptyString => [cur]
  | String b s' =>
      if is_continuation b then chars_from (cur +:+ String b EmptyString) s'
      else cur :: chars_from (String b EmptyString) s'
  end.

Definition str_chars (s : string) : list string :=
  match s with
  | EmptyString => []
  | String b s' => chars_from (String b EmptyString) s'
  end.

(** [a, b = v] and [a, b, c = v].  A tuple or list of the right length
    unpacks, and so does a [str] of that many characters, into
    one-character strings; another length is a [ValueError]; [None], a
    [bool] and an [int] are not iterable. *)
Definition unpack2 (v : pyval) : res (pyval * pyval) :=
  match v with
  | PTuple [a; b] | PList [a; b] => Ok (a, b)
  | PTuple _ | PList _ => Raise ValueError
  | PStr s =>
      match str_chars s with
      | [a; b] => Ok (PStr a, PStr b)
      | _ => Raise ValueError
      end
  | _ => Raise TypeError
  end.

Definition unpack3 (v : pyval) : res (pyval * pyval * pyval) :=
  match v with
  | PTuple [a; b; c] | PList [a; b; c] => Ok (a, b, c)
  | PTuple _ | PList _ => Raise ValueError
  | PStr s =>
      match str_chars s with
      | [a; b; c] => Ok (PStr a, PStr b, PStr c)
      | _ => Raise ValueError
      end
  | _ => Raise TypeError
  end.

(** ** [datetime.datetime] (naive) and [datetime.timedelta] *)

Record datetime : Type := DateTime {
  year : Z; month : Z; day : Z;
  hour : Z; minute : Z; second : Z; microsecond : Z
}.

(** what [datetime._check_time_fields] accepts *)
Definition time_ok (h mi s us : Z) : bool :=
  (0 <=? h) && (h <=? 23) && (0 <=? mi) && (mi <=? 59) &&
  (0 <=? s) && (s <=? 59) && (0 <=? us) && (us <=? 999999).

(** the values a [datetime] object can hold *)
Definition dt_ok (t : datetime) : bool :=
  Cal.date_ok (year t) (month t) (day t) &&
  time_ok (hour t) (minute t) (second t) (microsecond t).

Definition dt_date (t : datetime) : Cal.date := Cal.Date (year t) (month t) (day t).

(** [datetime(y, mo, d, h, mi, s, us)] on C integers *)
Definition datetime_new (y mo d h mi s us : Z) : res datetime :=
  if Cal.date_ok y mo d && time_ok h mi s us
  then Ok (DateTime y mo d h mi s us)
  else Raise ValueError.

(** [datetime(y, mo, d, h, mi)] with arguments as the caller has them *)
Definition datetime_of (y mo d h mi : pyval) : res datetime :=
  y' ← as_c_int y; mo' ← as_c_int mo; d' ← as_c_int d;
  h' ← as_c_int h; mi' ← as_c_int mi;
  datetime_new y' mo' d' h' mi' 0 0.

Definition arg_or (dflt : Z) (a : option pyval) : res Z :=
  match a with
  | None => Ok dflt
  | Some v => as_c_int v
  end.

(** [t.replace(hour=.., minute=.., second=.., microsecond=..)]; [None] is
    an argument that is not passed *)
Definition replace (t : datetime) (h mi s us : option pyval) : res datetime :=
  h' ← arg_or (hour t) h; mi' ← arg_or (minute t) mi;
  s' ← arg_or (second t) s; us' ← arg_or (microsecond t) us;
  datetime_new (year t) (month t) (day t) h' mi' s' us'.

(** comparison of naive datetimes: lexicographic on the seven fields *)
Definition dt_compare (a b : datetime) : comparison :=
  match year a ?= year b with
  | Eq => match month a ?= month b with
    | Eq => match day a ?= day b with
      | Eq => match hour a ?= hour b with
        | Eq => match minute a ?= minute b with
          | Eq => match second a ?= second b with
            | Eq => microsecond a ?= microsecond b
            | c => c end
          | c => c end
        | c => c end
      | c => c end
    | c => c end
  | c => c
  end.

Definition dt_le (a b : datetime) : bool :=
  match dt_compare a b with Gt => false | _ => true end.
Definition dt_lt (a b : datetime) : bool :=
  match dt_compare a b with Lt => true | _ => false end.

Definition US_PER_SECOND : Z := 1000000.
Definition US_PER_DAY : Z := 86400 * US_PER_SECOND.

(** microseconds since midnight *)
Definition time_us (t : datetime) : Z :=
  ((hour t * 60 + minute t) * 60 + second t) * US_PER_SECOND + microsecond t.

(** microseconds since the midnight before 0001-01-01 *)
Definition timestamp (t : datetime) : Z :=
  Cal.toordinal (dt_date t) * US_PER_DAY + time_us t.

(** A [timedelta] is normalised: [0 <= seconds < 86400] and
    [0 <= microseconds < 1000000]; only [days] can be negative. *)
Record timedelta : Type := TimeDelta {
  td_days : Z; td_seconds : Z; td_microseconds : Z
}.

Definition td_of_us (us : Z) : timedelta :=
  TimeDelta (us / US_PER_DAY)
            ((us mod US_PER_DAY) / US_PER_SECOND)
            (us mod US_PER_SECOND).

Definition td_us (d : timedelta) : Z :=
  (td_days d * 86400 + td_seconds d) * US_PER_SECOND + td_microseconds d.

(** [timedelta(weeks=w, days=d, hours=h, minutes=m)] *)
Definition mk_timedelta (w d h m : Z) : timedelta :=
  td_of_us ((((w * 7 + d) * 24 + h) * 60 + m) * 60 * US_PER_SECOND).

(** [a + d]: [OverflowError] when the date leaves 0001-01-01..9999-12-31 *)
Definition dt_add (a : datetime) (d : timedelta) : res datetime :=
  let us := time_us a + td_seconds d * US_PER_SECOND + td_microseconds d in
  let r := us mod US_PER_DAY in
  match Cal.shift_days (dt_date a) (td_days d + us / US_PER_DAY) with
  | Some (Cal.Date y m dd) =>
      Ok (DateTime y m dd
            (r / (3600 * US_PER_SECOND))
            ((r / (60 * US_PER_SECOND)) mod 60)
            ((r / US_PER_SECOND) mod 60)
            (r mod US_PER_SECOND))
  | None => Raise OverflowError
  end.

(** [a - b] of two datetimes *)
Definition dt_sub (a b : datetime) : timedelta :=
  td_of_us (timestamp a - timestamp b).

(** [d.total_seconds() > 0]: the float [total_seconds] has the sign of
    the exact number of microseconds *)
Definition td_positive (d : timedelta) : bool := 0 <? td_us d.

(** [t.weekday()] *)
Definition dt_weekday (t : datetime) : Z := Cal.weekday (dt_date t).

(** ** The log

    [logging.info], [logging.error] and [print] calls are recorded in the
    order they are made.  A message built from an exception keeps its
    fixed text and the exception. *)

Inductive log_entry : Type :=
  | Info (msg : string)
  | Error (msg : string) (e : exn)
  | Print (msg : string) (path : list string).

Definition is_error (l : log_entry) : bool :=
  match l with Error _ _ => true | _ => false end.
Definition is_print (l : log_entry) : bool :=
  match l with Print _ _ => true | _ => false end.

(** A computation that logs: its result and what it wrote. *)
Definition logged (A : Type) : Type := res A * list log_entry.

(** ** [class BackupTask] *)

Record BackupTask : Type := mkBackupTask {
  name : pyval;
  source : pyval;
  destination : pyval;
  compression : pyval;
  frequency : pyval;
  time_params : pyval;
  last_run : option datetime;
  next_run : datetime
}.

Definition set_last_run (t : BackupTask) (v : option datetime) : BackupTask :=
  mkBackupTask (name t) (source t) (destination t) (compression t)
               (frequency t) (time_params t) v (next_run t).
Definition set_next_run (t : BackupTask) (v : datetime) : BackupTask :=
  mkBackupTask (name t) (source t) (destination t) (compression t)
               (frequency t) (time_params t) (last_run t) v.

Definition hourly_next (tp : pyval) (now : datetime) : res datetime :=
  next_run ← replace now None (Some tp) (Some (PInt 0)) (Some (PInt 0));
  if dt_le next_run now then dt_add next_run (mk_timedelta 0 0 1 0)
  else Ok next_run.

Definition daily_next (tp : pyval) (now : datetime) : res datetime :=
  '(hour, minute) ← unpack2 tp;
  next_run ← replace now (Some hour) (Some minute) (Some (PInt 0)) (Some (PInt 0));
  if dt_le next_run now then dt_add next_run (mk_timedelta 0 1 0 0)
  else Ok next_run.

Definition weekly_next (tp : pyval) (now : datetime) : res datetime :=
  '(weekday, hour, minute) ← unpack3 tp;
  wd ← as_int weekday;
  let days_ahead := (wd - dt_weekday now) mod 7 in
  replaced ← replace now (Some hour) (Some minute) (Some (PInt 0)) (Some (PInt 0));
  next_run ← dt_add replaced (mk_timedelta 0 days_ahead 0 0);
  if dt_le next_run now then dt_add next_run (mk_timedelta 1 0 0 0)
  else Ok next_run.

(** the candidate of the monthly branch: the requested day of the month
    after [now]'s, or that month's last day when the constructor raises
    [ValueError] *)
Definition monthly_candidate (tp : pyval) (now : datetime) : res datetime :=
  '(day, hour, minute) ← unpack3 tp;
  let next_month := month now + 1 in
  let next_year := year now in
  let '(next_month, next_year) :=
    if 12 <? next_month then (1, next_year + 1) else (next_month, next_year) in
  match datetime_of (PInt next_year) (PInt next_month) day hour minute with
  | Raise ValueError =>
      let last_day := Cal.days_in_month next_year next_month in
      datetime_of (PInt next_year) (PInt next_month) (PInt last_day) hour minute
  | r => r
  end.

(** The [try] body of [calculate_next_run] for a given [now]; [recur] is
    the recursive call [self.calculate_next_run(..)] of the monthly
    branch. *)
Definition next_run_try (recur : datetime -> logged datetime)
    (self : BackupTask) (now : datetime) : logged datetime :=
  if eq_str (frequency self) "hourly" then
    (hourly_next (time_params self) now, [])
  else if eq_str (frequency self) "daily" then
    (daily_next (time_params self) now, [])
  else if eq_str (frequency self) "weekly" then
    (weekly_next (time_params self) now, [])
  else if eq_str (frequency self) "monthly" then
    match monthly_candidate (time_params self) now with
    | Raise e => (Raise e, [])
    | Ok next_run =>
        if dt_lt now next_run then (Ok next_run, [])
        else match dt_add now (mk_timedelta 0 1 0 0) with
             | Raise e => (Raise e, [])
             | Ok tomorrow => recur tomorrow
             end
    end
  else (Ok now, []).

(** The [except Exception] clause around it: log, and return
    [now + timedelta(minutes=5)]. *)
Definition next_run_except (now : datetime) (body : logged datetime) : logged datetime :=
  match body with
  | (Ok r, l) => (Ok r, l)
  | (Raise e, l) =>
      (dt_add now (mk_timedelta 0 0 0 5),
       l ++ [Error "Ошибка расчета времени для задачи" e])
  end.

(** [BackupTask.calculate_next_run(self, now)] for a given [now].
    [depth] is the number of stack frames the interpreter still grants:
    a call at depth 0 raises [RecursionError] in its caller. *)
Fixpoint calculate_next_run_at (depth : nat) (self : BackupTask) (now : datetime)
  : logged datetime :=
  match depth with
  | O => (Raise RecursionError, [])
  | S depth' =>
      next_run_except now (next_run_try (calculate_next_run_at depth' self) self now)
  end.

(** [calculate_next_run(self, now=None)]: [now or datetime.now()].  A
    [datetime] is always true, so the clock is read exactly when no [now]
    is passed; [clock] is what [datetime.now()] returns then. *)
Definition calculate_next_run (depth : nat) (self : BackupTask)
    (now : option datetime) (clock : datetime) : logged datetime :=
  calculate_next_run_at depth self (default clock now).

(** [BackupTask.__init__]; [clock] is the time of the construction *)
Definition BackupTask_init (depth : nat)
    (name source destination compression frequency time_params : pyval)
    (clock : datetime) : logged BackupTask :=
  let self := mkBackupTask name source destination compression
                           frequency time_params None clock in
  match calculate_next_run depth self None clock with
  | (Ok nr, l) => (Ok (set_next_run self nr), l)
  | (Raise e, l) => (Raise e, l)
  end.

(** the four recurrence kinds of the task dialog *)
Definition recognised (f : pyval) : bool :=
  eq_str f "hourly" || eq_str f "daily" || eq_str f "weekly" || eq_str f "monthly".

(** ** The file system seen by a backup

    A path holds a file or a folder.  A file that cannot be opened for
    reading (locked, permission denied) has no content.  The entries of a
    folder are in the order [os.scandir] lists them; [Locked] is a folder
    that cannot be listed ([os.scandir] raises [PermissionError]). *)

#[warnings="-register-all"]
Inductive node : Type :=
  | File (content : option string)
  | Folder (entries : list (string * node))
  | Locked.

Definition is_file (n : node) : bool :=
  match n with File _ => true | Folder _ | Locked => false end.

(** the files [os.walk] reaches, in its order (top-down: the files of a
    folder, then its sub-folders in turn), each with its path relative to
    the top ([os.path.relpath (os.path.join (root, file), source)]).  A
    folder that cannot be listed is passed over in silence ([onerror] is
    not given). *)
Fixpoint walk (prefix : list string) (n : node) : list (list string * option string) :=
  match n with
  | File _ | Locked => []
  | Folder entries =>
      flat_map (fun e => match snd e with
                         | File c => [(prefix ++ [fst e], c)]
                         | Folder _ | Locked => []
                         end) entries
      ++ flat_map (fun e => match snd e with
                            | File _ | Locked => []
                            | Folder _ => walk (prefix ++ [fst e]) (snd e)
                            end) entries
  end.

(** [posixpath.basename]: what follows the last slash *)
Fixpoint basename_from (acc s : string) : string :=
  match s with
  | EmptyString => acc
  | String c s' =>
      if Ascii.eqb c "/"%char then basename_from EmptyString s'
      else basename_from (acc +:+ String c EmptyString) s'
  end.
Definition basename (s : string) : string := basename_from EmptyString s.

(** an archive under construction: its entries, oldest first *)
Definition archive : Type := list (list string * string).

(** [zipf.write(file_path, arcname)]: the file is opened before anything
    is written, so an unreadable file leaves the archive as it was *)
Definition zip_write (zipf : archive) (arcname : list string) (content : option string)
  : res archive :=
  match content with
  | Some data => Ok (zipf ++ [(arcname, data)])
  | None => Raise PermissionError
  end.

(** the [for root, _, files in os.walk(..): for file in files: zipf.write(..)]
    loops of [run_task]: the first failing file ends them.  The archive is
    returned with the exception because the [with] statement closes it. *)
Fixpoint zip_all (zipf : archive) (files : list (list string * option string))
  : archive * res unit :=
  match files with
  | [] => (zipf, Ok ())
  | (arcname, content) :: rest =>
      match zip_write zipf arcname content with
      | Ok zipf' => zip_all zipf' rest
      | Raise e => (zipf, Raise e)
      end
  end.

(** [BackupApp.add_to_zip]: the failure of one file is printed and
    swallowed *)
Definition add_to_zip (zipf : archive) (file_path arcname : list string)
    (content : option string) : archive * list log_entry :=
  match zip_write zipf arcname content with
  | Ok zipf' => (zipf', [])
  | Raise PermissionError => (zipf, [Print "Пропущен заблокированный файл" file_path])
  | Raise _ => (zipf, [Print "Ошибка при добавлении файла" file_path])
  end.

(** [os.path.join(basename, rel_path)] as the archive stores it: [join]
    drops an empty base name (that of a source ending in a separator), and
    [zipfile] normalises the name it is given, which drops a base name
    [.] *)
Definition arc_name (base : string) (rel_path : list string) : list string :=
  if String.eqb base EmptyString || String.eqb base "." then rel_path
  else base :: rel_path.

Fixpoint add_all (zipf : archive) (base : string)
    (files : list (list string * option string)) : archive * list log_entry :=
  match files with
  | [] => (zipf, [])
  | (rel_path, content) :: rest =>
      let '(zipf', l) := add_to_zip zipf rel_path (arc_name base rel_path) content in
      let '(zipf'', l') := add_all zipf' base rest in
      (zipf'', l ++ l')
  end.

(** [BackupApp.create_zip(source, zip_path)]; [src] is what the path
    [source] holds.  No method of [main.py] calls it. *)
Definition create_zip (source : string) (src : option node) : archive * list log_entry :=
  let base := basename source in
  match src with
  | Some (File c) => add_to_zip [] [source] [base] c
  | Some n => add_all [] base (walk [] n)
  | None => ([], [])
  end.

(** [shutil.copytree] with [copy_function = self.copy_with_errors] on a
    folder: the copy, what was printed, and the paths whose errors
    [copytree] collected.  An unreadable file is printed by
    [copy_with_errors] and left out of the copy.  A sub-folder that cannot
    be listed is not guarded by [copy_with_errors]: [copytree] leaves it
    out, keeps its [OSError] and goes on with the other entries; the errors
    kept inside a sub-folder are taken over.  (At the top [backup_body]
    deals with a file and with a folder that cannot be listed before it
    comes here.) *)
Fixpoint copy_tree (prefix : list string) (n : node)
  : node * list log_entry * list (list string) :=
  match n with
  | File c => (File c, [], [])
  | Locked => (Locked, [], [prefix])
  | Folder entries =>
      let copied :=
        map (fun e => match snd e with
                      | File (Some data) => ([(fst e, File (Some data))], [], [])
                      | File None =>
                          ([], [Print "Пропущен заблокированный файл" (prefix ++ [fst e])],
                           [])
                      | Locked => ([], [], [prefix ++ [fst e]])
                      | Folder _ =>
                          let '(n', l, errors) := copy_tree (prefix ++ [fst e]) (snd e) in
                          ([(fst e, n')], l, errors)
                      end) entries in
      (Folder (flat_map (fun c => fst (fst c)) copied),
       flat_map (fun c => snd (fst c)) copied,
       flat_map snd copied)
  end.

(** what a backup leaves in the destination folder *)
Inductive artifact : Type :=
  | NoArtifact
  | ZipFile (entries : archive)
  | Mirror (tree : node).

(** the world of one backup: what the source path holds, and whether
    [os.makedirs(dest_dir, exist_ok=True)] succeeds (the destination
    folder is there or can be created; a destination folder that is there
    can be written) *)
Record world : Type := World {
  at_source : option node;
  dest_writable : bool
}.

(** the [str] a path argument must be *)
Definition as_path (v : pyval) : res string :=
  match v with
  | PStr s => Ok s
  | _ => Raise TypeError
  end.

(** the [try] body of [backup] inside [run_task], with the artifact it
    leaves behind whether it finishes or raises *)
Definition backup_body (task : BackupTask) (w : world) : artifact * res unit * list log_entry :=
  match as_path (destination task) with
  | Raise e => (NoArtifact, Raise e, [Info "1"])
  | Ok _ =>
    if negb (dest_writable w) then (NoArtifact, Raise PermissionError, [Info "1"])
    else if truthy (compression task) then
      match as_path (source task) with
      | Raise e => (ZipFile [], Raise e, [Info "1"; Info "2"; Info "3"; Info "4"])
      | Ok src =>
        match at_source w with
        | Some (File c) =>
            match zip_write [] [basename src] c with
            | Ok z => (ZipFile z, Ok (), [Info "1"; Info "2"; Info "3"; Info "4"; Info "6"])
            | Raise e => (ZipFile [], Raise e, [Info "1"; Info "2"; Info "3"; Info "4"])
            end
        | Some (Folder es) =>
            match zip_all [] (walk [] (Folder es)) with
            | (z, Ok _) => (ZipFile z, Ok (), [Info "1"; Info "2"; Info "3"; Info "4"; Info "6"])
            | (z, Raise e) => (ZipFile z, Raise e, [Info "1"; Info "2"; Info "3"; Info "4"])
            end
        | Some Locked =>
            (ZipFile [], Ok (), [Info "1"; Info "2"; Info "3"; Info "4"; Info "6"])
        | None => (ZipFile [], Ok (), [Info "1"; Info "2"; Info "3"; Info "4"; Info "6"])
        end
      end
    else
      match as_path (source task) with
      | Raise e => (NoArtifact, Raise e, [Info "1"; Info "2"; Info "5"])
      | Ok _ =>
        match at_source w with
        | Some (Folder es) =>
            let '(tree, l, errors) := copy_tree [] (Folder es) in
            match errors with
            | [] => (Mirror tree, Ok (), [Info "1"; Info "2"; Info "5"] ++ l ++ [Info "6"])
            | _ :: _ =>
                (Mirror tree, Raise ShutilError, [Info "1"; Info "2"; Info "5"] ++ l)
            end
        | Some Locked => (NoArtifact, Raise PermissionError, [Info "1"; Info "2"; Info "5"])
        | Some (File _) => (NoArtifact, Raise NotADirectoryError, [Info "1"; Info "2"; Info "5"])
        | None => (NoArtifact, Raise FileNotFoundError, [Info "1"; Info "2"; Info "5"])
        end
      end
  end.

(** ** [class BackupApp]

    The state the scheduler, the executor and the status line share.
    [in_flight] holds the backup threads that [run_task] started and that
    have not finished, with the task each was started for. *)

Record BackupApp : Type := mkBackupApp {
  tasks : list BackupTask;
  running_tasks : Z;
  in_flight : list BackupTask;
  log : list log_entry
}.

(** [BackupApp.__init__]: [self.running_tasks = 0], [self.tasks = []] *)
Definition BackupApp_init : BackupApp := mkBackupApp [] 0 [] [].

Definition set_tasks (app : BackupApp) (ts : list BackupTask) : BackupApp :=
  mkBackupApp ts (running_tasks app) (in_flight app) (log app).
Definition add_log (app : BackupApp) (l : list log_entry) : BackupApp :=
  mkBackupApp (tasks app) (running_tasks app) (in_flight app) (log app ++ l).

(** [BackupApp.run_task(task)]: logs and starts the thread of [backup];
    nothing else changes *)
Definition run_task (app : BackupApp) (task : BackupTask) : BackupApp :=
  mkBackupApp (tasks app) (running_tasks app) (in_flight app ++ [task])
              (log app ++ [Info "Запуск задачи"]).

(** The thread [i] of [in_flight] runs [backup] to its end in the world
    [w]: the [try] body, the [except Exception] clause that logs, and the
    [finally] clause that takes one off [running_tasks]. *)
Definition backup (app : BackupApp) (i : nat) (w : world) : option (BackupApp * artifact) :=
  match in_flight app !! i with
  | None => None
  | Some task =>
      let '(art, r, l) := backup_body task w in
      let l' := match r with
                | Ok _ => l
                | Raise e => l ++ [Error "Ошибка" e]
                end in
      Some (mkBackupApp (tasks app) (running_tasks app - 1)
                        (delete i (in_flight app)) (log app ++ l'),
            art)
  end.

(** what happens to the executor: a call of [run_task], or the end of
    the backup thread at a position of [in_flight] *)
Inductive event : Type :=
  | Start (task : BackupTask)
  | Finish (i : nat) (w : world).

Definition step (app : BackupApp) (ev : event) : option BackupApp :=
  match ev with
  | Start task => Some (run_task app task)
  | Finish i w => fst <$> backup app i w
  end.

Fixpoint run (app : BackupApp) (evs : list event) : option BackupApp :=
  match evs with
  | [] => Some app
  | ev :: rest => app' ← step app ev; run app' rest
  end.

(** ** [BackupApp.scheduler_loop] *)

(** the test [task.next_run <= now] *)
Definition due (task : BackupTask) (now : datetime) : bool :=
  dt_le (next_run task) now.

(** the claim of a due task: [task.last_run = now] and
    [task.next_run = task.calculate_next_run()], which reads the clock
    again ([clock]).  When the computation raises, [last_run] is already
    set. *)
Definition claim (depth : nat) (task : BackupTask) (now clock : datetime)
  : BackupTask * res unit * list log_entry :=
  let task1 := set_last_run task (Some now) in
  match calculate_next_run depth task1 None clock with
  | (Ok nr, l) => (set_next_run task1 nr, Ok (), l)
  | (Raise e, l) => (task1, Raise e, l)
  end.

(** The loop over [self.tasks.copy()].  [clk k] is what the [k]-th call of
    [datetime.now()] returns.  The result is the registry after the loop
    (the loop mutates the task objects of the registry), [tasks_to_run] or
    the exception that ended the loop, the log and the number of clock
    reads made so far. *)
Fixpoint claim_due (depth : nat) (clk : nat -> datetime) (now : datetime)
    (snapshot : list BackupTask) (k : nat)
  : list BackupTask * res (list BackupTask) * list log_entry * nat :=
  match snapshot with
  | [] => ([], Ok [], [], k)
  | task :: rest =>
      if due task now then
        match claim depth task now (clk k) with
        | (task', Ok _, l) =>
            let '(rest', r, l', k') := claim_due depth clk now rest (S k) in
            (task' :: rest', (to_run ← r; Ok (task' :: to_run)), l ++ l', k')
        | (task', Raise e, l) => (task' :: rest, Raise e, l, S k)
        end
      else
        let '(rest', r, l', k') := claim_due depth clk now rest k in
        (task :: rest', r, l', k')
  end.

(** the dispatch loop [for task in tasks_to_run] *)
Definition dispatch (app : BackupApp) (to_run : list BackupTask) : BackupApp :=
  foldl (fun a task => run_task (add_log a [Info "Запуск задачи"]) task) app to_run.

(** One pass of the [while] loop, from the [k]-th clock read on: the
    state after it and the number of clock reads. *)
Definition scheduler_tick (depth : nat) (clk : nat -> datetime) (app : BackupApp) (k : nat)
  : BackupApp * nat :=
  let now := clk k in
  let '(ts, r, l, k') := claim_due depth clk now (tasks app) (S k) in
  let app1 := add_log (set_tasks app ts) l in
  match r with
  | Ok to_run => (dispatch app1 to_run, k')
  | Raise e => (add_log app1 [Error "Ошибка планировщика" e], k')
  end.

(** ** [BackupApp.update_status] *)

(** [min(next_tasks, default=None)]: the first of the smallest *)
Definition nearest (next_tasks : list datetime) : option datetime :=
  match next_tasks with
  | [] => None
  | t :: rest => Some (foldl (fun m x => if dt_lt x m then x else m) t rest)
  end.

Record status : Type := Status {
  status_text : string;
  color : string;
  next_task_text : string
}.

(** [hours, remainder = divmod(delta.seconds, 3600)] and
    [minutes = remainder // 60] *)
Definition countdown (delta : timedelta) : Z * Z :=
  (td_seconds delta / 3600, (td_seconds delta mod 3600) / 60).

Definition update_status (app : BackupApp) (now : datetime) : status :=
  let next_tasks := map next_run (tasks app) in
  let '(status_text, color) :=
    if 0 <? running_tasks app then ("Выполняется резервное копирование...", "orange")
    else match tasks app with
         | [] => ("Нет активных задач", "red")
         | _ => ("Работает в фоне", "green")
         end in
  let next_task_text :=
    match nearest next_tasks with
    | Some nearest =>
        let delta := dt_sub nearest now in
        if td_positive delta then
          let '(hours, minutes) := countdown delta in
          "Ближайшая задача через: " +:+ pretty hours +:+ "ч " +:+ pretty minutes +:+ "м"
        else "Следующая задача: сейчас"
    | None => "Ближайшая задача: Нет активных задач"
    end in
  Status ("Статус: " +:+ status_text) color next_task_text.

(** ** Persistence: [to_dict], [save_tasks], [load_tasks] *)

Definition digit_char (d : Z) : ascii := ascii_of_nat (48 + Z.to_nat d).

Definition digits2 (n : Z) : list ascii :=
  [digit_char (n / 10); digit_char (n mod 10)].
Definition digits4 (n : Z) : list ascii :=
  [digit_char (n / 1000); digit_char (n / 100 mod 10);
   digit_char (n / 10 mod 10); digit_char (n mod 10)].
Definition digits6 (n : Z) : list ascii :=
  [digit_char (n / 100000); digit_char (n / 10000 mod 10);
   digit_char (n / 1000 mod 10); digit_char (n / 100 mod 10);
   digit_char (n / 10 mod 10); digit_char (n mod 10)].

(** [t.isoformat()]: [YYYY-MM-DDTHH:MM:SS], followed by [.ffffff] when the
    microsecond is not 0 *)
Definition isoformat (t : datetime) : string :=
  string_of_list_ascii
    (digits4 (year t) ++ "-"%char :: digits2 (month t) ++ "-"%char :: digits2 (day t)
     ++ "T"%char :: digits2 (hour t) ++ ":"%char :: digits2 (minute t)
     ++ ":"%char :: digits2 (second t)
     ++ (if microsecond t =? 0 then [] else "."%char :: digits6 (microsecond t))).

Definition digit_val (c : ascii) : option Z :=
  let n := Z.of_nat (nat_of_ascii c) in
  if (48 <=? n) && (n <=? 57) then Some (n - 48) else None.

Fixpoint number (acc : Z) (cs : list ascii) : option Z :=
  match cs with
  | [] => Some acc
  | c :: rest => d ← digit_val c; number (acc * 10 + d) rest
  end.

(** [datetime.fromisoformat(s)] on the two layouts [isoformat] writes (any
    character may separate date and time).  Python also reads shorter
    layouts, which this model answers with [ValueError]. *)
Definition fromisoformat (s : string) : res datetime :=
  match list_ascii_of_string s with
  | y1 :: y2 :: y3 :: y4 :: "-"%char :: m1 :: m2 :: "-"%char :: d1 :: d2 :: _
    :: h1 :: h2 :: ":"%char :: mi1 :: mi2 :: ":"%char :: s1 :: s2 :: rest =>
      let fraction :=
        match rest with
        | [] => Some 0
        | "."%char :: f => if (length f =? 6)%nat then number 0 f else None
        | _ => None
        end in
      match number 0 [y1; y2; y3; y4], number 0 [m1; m2], number 0 [d1; d2],
            number 0 [h1; h2], number 0 [mi1; mi2], number 0 [s1; s2], fraction with
      | Some y, Some m, Some d, Some h, Some mi, Some sec, Some us =>
          datetime_new y m d h mi sec us
      | _, _, _, _, _, _, _ => Raise ValueError
      end
  | _ => Raise ValueError
  end.

(** [BackupTask.to_dict] *)
Definition to_dict (self : BackupTask) : gmap string pyval :=
  <["name" := name self]>
  (<["source" := source self]>
  (<["destination" := destination self]>
  (<["compression" := compression self]>
  (<["frequency" := frequency self]>
  (<["time_params" := time_params self]>
  (<["last_run" := match last_run self with
                   | Some t => PStr (isoformat t)
                   | None => PNone
                   end]> ∅)))))).

(** What [json.load] reads back from what [json.dump] wrote: a tuple is
    written as an array, and an array is read as a list. *)
Fixpoint json_reload (v : pyval) : pyval :=
  match v with
  | PTuple l | PList l => PList (map json_reload l)
  | _ => v
  end.

(** [save_tasks] followed by the [json.load] of [load_tasks]: the content
    of [data] *)
Definition saved_data (ts : list BackupTask) : list (gmap string pyval) :=
  map (fun task => json_reload <$> to_dict task) ts.

(** [item[key]] *)
Definition getitem (item : gmap string pyval) (key : string) : res pyval :=
  match item !! key with
  | Some v => Ok v
  | None => Raise KeyError
  end.

(** the arguments of the [BackupTask(..)] call of [load_tasks] *)
Definition item_fields (item : gmap string pyval)
  : res (pyval * pyval * pyval * pyval * pyval * pyval) :=
  n ← getitem item "name"; s ← getitem item "source";
  d ← getitem item "destination"; c ← getitem item "compression";
  f ← getitem item "frequency"; tp ← getitem item "time_params";
  Ok (n, s, d, c, f, tp).

(** [datetime.fromisoformat(item['last_run']) if item['last_run'] else None] *)
Definition item_last_run (item : gmap string pyval) : res (option datetime) :=
  v ← getitem item "last_run";
  if truthy v then
    match v with
    | PStr s => t ← fromisoformat s; Ok (Some t)
    | _ => Raise TypeError
    end
  else Ok None.

(** The body of the [for item in data] loop of [load_tasks].  The clock
    is read by the constructor ([clock1]) and again by the second
    [calculate_next_run()] ([clock2]). *)
Definition load_task (depth : nat) (item : gmap string pyval) (clock1 clock2 : datetime)
  : logged BackupTask :=
  match item_fields item with
  | Raise e => (Raise e, [])
  | Ok (n, s, d, c, f, tp) =>
    match BackupTask_init depth n s d c f tp clock1 with
    | (Raise e, l) => (Raise e, l)
    | (Ok task, l) =>
      match item_last_run item with
      | Raise e => (Raise e, l)
      | Ok lr =>
        let task := set_last_run task lr in
        match calculate_next_run depth task None clock2 with
        | (Raise e, l') => (Raise e, l ++ l')
        | (Ok nr, l') => (Ok (set_next_run task nr), l ++ l')
        end
      end
    end
  end.

(** the clock reads of the loop body on a record: none before the
    constructor is called, one in the constructor, one in the second
    [calculate_next_run()] *)
Definition load_task_reads (depth : nat) (item : gmap string pyval) (clock1 : datetime)
  : nat :=
  match item_fields item with
  | Raise _ => 0
  | Ok (n, s, d, c, f, tp) =>
      match BackupTask_init depth n s d c f tp clock1 with
      | (Raise _, _) => match depth with O => 0 | S _ => 1 end
      | (Ok _, _) =>
          match item_last_run item with
          | Raise _ => 1
          | Ok _ => 2
          end
      end
  end.

(** the loop of [load_tasks] from the [k]-th clock read on: the tasks
    appended, the exception that ended the loop if any, the log and the
    clock reads *)
Fixpoint load_items (depth : nat) (clk : nat -> datetime)
    (data : list (gmap string pyval)) (k : nat)
  : list BackupTask * res unit * list log_entry * nat :=
  match data with
  | [] => ([], Ok (), [], k)
  | item :: rest =>
      match load_task depth item (clk k) (clk (S k)) with
      | (Ok task, l) =>
          let '(ts, r, l', k') := load_items depth clk rest (S (S k)) in
          (task :: ts, r, l ++ l', k')
      | (Raise e, l) =>
          ([], Raise e, l, (k + load_task_reads depth item (clk k))%nat)
      end
  end.

(** [BackupApp.load_tasks]; [file] is the content of [tasks.json], [None]
    when there is no such file ([FileNotFoundError], swallowed) *)
Definition load_tasks (depth : nat) (clk : nat -> datetime) (app : BackupApp)
    (file : option (list (gmap string pyval))) (k : nat) : BackupApp * res unit * nat :=
  match file with
  | None => (app, Ok (), k)
  | Some data =>
      let '(ts, r, l, k') := load_items depth clk data k in
      (add_log (set_tasks app (tasks app ++ ts)) l, r, k')
  end.

(** ** [class TaskDialog]

    The content of the form when OK is pressed.  A spin box holds the
    outcome of [int(self.x_spinbox.get())]: the number, [ValueError] for a
    text that is no integer, or [AttributeError] when the widget was never
    built; [weekday_combo] holds that of [self.weekday_combo.current()]. *)

Record TaskDialog : Type := mkTaskDialog {
  name_entry : string;
  source_entry : string;
  dest_entry : string;
  compression_var : bool;
  frequency_var : string;
  minute_spinbox : res Z;
  hour_spinbox : res Z;
  day_spinbox : res Z;
  weekday_combo : res Z
}.

Definition in_range (lo x hi : Z) : bool := (lo <=? x) && (x <=? hi).

(** the [time_params] that [on_ok] builds *)
Definition dialog_time_params (d : TaskDialog) : res pyval :=
  let frequency := frequency_var d in
  if String.eqb frequency "hourly" then
    minute ← minute_spinbox d;
    if negb (in_range 0 minute 59) then Raise ValueError
    else Ok (PInt minute)
  else if String.eqb frequency "daily" then
    hour ← hour_spinbox d; minute ← minute_spinbox d;
    if negb (in_range 0 hour 23) || negb (in_range 0 minute 59) then Raise ValueError
    else Ok (PTuple [PInt hour; PInt minute])
  else if String.eqb frequency "weekly" then
    weekday ← weekday_combo d; hour ← hour_spinbox d; minute ← minute_spinbox d;
    if (weekday <? 0) || negb (in_range 0 hour 23) || negb (in_range 0 minute 59)
    then Raise ValueError
    else Ok (PTuple [PInt weekday; PInt hour; PInt minute])
  else if String.eqb frequency "monthly" then
    day ← day_spinbox d; hour ← hour_spinbox d; minute ← minute_spinbox d;
    if negb (in_range 1 day 31) || negb (in_range 0 hour 23) || negb (in_range 0 minute 59)
    then Raise ValueError
    else Ok (PTuple [PInt day; PInt hour; PInt minute])
  else Raise ValueError.

Definition nonempty (s : string) : bool := negb (String.eqb s EmptyString).

(** [TaskDialog.on_ok]: [self.result] afterwards ([None] when the
    [except] clause caught something), and the log *)
Definition on_ok (depth : nat) (d : TaskDialog) (clock : datetime)
  : option BackupTask * list log_entry :=
  let body : logged BackupTask :=
    if negb (nonempty (name_entry d) && nonempty (source_entry d) && nonempty (dest_entry d))
    then (Raise ValueError, [])
    else match dialog_time_params d with
         | Raise e => (Raise e, [])
         | Ok time_params =>
             BackupTask_init depth (PStr (name_entry d)) (PStr (source_entry d))
               (PStr (dest_entry d)) (PBool (compression_var d))
               (PStr (frequency_var d)) time_params clock
         end in
  match body with
  | (Ok task, l) => (Some task, l)
  | (Raise e, l) => (None, l ++ [Error EmptyString e])
  end.

(** [BackupApp.edit_task].  [selected] is the row selected in the list
    view, [pressed] the form with which the user pressed OK before the
    dialog closed ([None]: the dialog was closed without).  Without a
    result the registry is untouched.  This is the method once its dialog
    is on the screen; [edit_task_dialog] puts the construction of the
    dialog before it. *)
Definition edit_task (depth : nat) (app : BackupApp) (selected : option nat)
    (pressed : option TaskDialog) (clock : datetime) : res BackupApp :=
  match selected with
  | None => Ok app
  | Some index =>
      match tasks app !! index with
      | None => Raise IndexError
      | Some task =>
          match pressed with
          | None => Ok app
          | Some d =>
              match on_ok depth d clock with
              | (Some result, l) =>
                  Ok (add_log (set_tasks app (<[index := result]> (tasks app))) l)
              | (None, l) => Ok (add_log app l)
              end
          end
      end
  end.

(** ** [class SettingsDialog] and the configuration *)

(** [self.config] of [BackupApp.__init__] *)
Definition default_config : gmap string pyval := {["compression_level" := PInt 9]}.

(** [BackupApp.save_config] followed by the [json.load] of [load_config]:
    what [config.json] holds afterwards *)
Definition save_config (config : gmap string pyval) : gmap string pyval :=
  json_reload <$> config.

(** [BackupApp.load_config]: [self.config.update(json.load(f))]; [file] is
    the content of [config.json], [None] when there is no such file *)
Definition load_config (config : gmap string pyval) (file : option (gmap string pyval))
  : gmap string pyval :=
  match file with
  | None => config
  | Some loaded => loaded ∪ config
  end.

(** [SettingsDialog.save]; [level] is the outcome of
    [int(self.compression_level.get())].  The result is the configuration
    afterwards, what was written to [config.json] if anything, and the
    log. *)
Definition SettingsDialog_save (config : gmap string pyval) (level : res Z)
  : gmap string pyval * option (gmap string pyval) * list log_entry :=
  match level with
  | Ok level =>
      if in_range 0 level 9 then
        let config' := <["compression_level" := PInt level]> config in
        (config', Some (save_config config'), [])
      else (config, None, [Error EmptyString ValueError])
  | Raise e => (config, None, [Error EmptyString e])
  end.

(** a sequence of uses of the settings dialog *)
Fixpoint settings_session (config : gmap string pyval) (levels : list (res Z))
  : gmap string pyval :=
  match levels with
  | [] => config
  | level :: rest => settings_session (fst (fst (SettingsDialog_save config level))) rest
  end.

(** ** [BackupApp.edit_task] with the construction of its dialog

    [TaskDialog(self, task)] builds the form and fills it from the
    selected row before the user sees it ([create_widgets]).  It raises
    where the row cannot be shown: [time_params] that cannot be indexed
    ([TypeError], [IndexError]), a weekday that the list of seven rows
    does not have or a value that a widget refuses ([TclError]).  Nothing
    guards it in [edit_task].  [dialog] is the outcome of the construction
    followed by [wait_window]: the exception of the construction, or the
    form with which OK was pressed if it was.  ([tasks.json] can be
    written: the [save_tasks] that follows a result does not raise.) *)
Definition edit_task_dialog (depth : nat) (app : BackupApp) (selected : option nat)
    (dialog : res (option TaskDialog)) (clock : datetime) : res BackupApp :=
  match selected with
  | None => Ok app
  | Some index =>
      match tasks app !! index with
      | None => Raise IndexError
      | Some task =>
          pressed ← dialog;
          edit_task depth app (Some index) pressed clock
      end
  end.

(** ** [BackupApp.check_scheduled_tasks]

    The pass of the Tk timer over the registry.  Unlike the pass of
    [scheduler_loop] it starts the backup of a due task before it claims
    the task, and it has no [try]: a claim that raises ends the method.
    [in_flight] receives the task as it is when [run_task] is called; the
    backup reads its name, source, destination and compression only. *)
Fixpoint check_loop (depth : nat) (clk : nat -> datetime) (now : datetime)
    (app : BackupApp) (todo : list BackupTask) (k : nat)
  : list BackupTask * BackupApp * res unit * nat :=
  match todo with
  | [] => ([], app, Ok (), k)
  | task :: rest =>
      if due task now then
        let app1 := run_task app task in
        match claim depth task now (clk k) with
        | (task', Ok _, l) =>
            let '(rest', app2, r, k') :=
              check_loop depth clk now (add_log app1 l) rest (S k) in
            (task' :: rest', app2, r, k')
        | (task', Raise e, l) => (task' :: rest, add_log app1 l, Raise e, S k)
        end
      else
        let '(rest', app2, r, k') := check_loop depth clk now app rest k in
        (task :: rest', app2, r, k')
  end.

(** After the loop the method saves the registry and refreshes the list
    and the status line; [update_status] reads the clock once more.  The
    result is the state afterwards, what [save_tasks] wrote to
    [tasks.json] if it was reached, the status line shown or the exception
    that ended the method, and the number of clock reads. *)
Definition check_scheduled_tasks (depth : nat) (clk : nat -> datetime)
    (app : BackupApp) (k : nat)
  : BackupApp * option (list (gmap string pyval)) * res status * nat :=
  let now := clk k in
  let '(ts, app', r, k') := check_loop depth clk now app (tasks app) (S k) in
  let app'' := set_tasks app' ts in
  match r with
  | Ok _ => (app'', Some (saved_data ts), Ok (update_status app'' (clk k')), S k')
  | Raise e => (app'', None, Raise e, k')
  end.

(** ** Predicates of the statements *)

#[export] Instance date_eq_dec : EqDecision Cal.date.
Proof. solve_decision. Defined.
#[export] Instance datetime_eq_dec : EqDecision datetime.
Proof. solve_decision. Defined.
#[export] Instance exn_eq_dec : EqDecision exn.
Proof. solve_decision. Defined.

Definition date_valid (d : Cal.date) : Prop :=
  Cal.date_ok (Cal.dyear d) (Cal.dmonth d) (Cal.dday d) = true.

(** the lexicographic order on dates *)
Definition date_lt (a b : Cal.date) : Prop :=
  Cal.dyear a < Cal.dyear b \/
  (Cal.dyear a = Cal.dyear b /\
   (Cal.dmonth a < Cal.dmonth b \/
    (Cal.dmonth a = Cal.dmonth b /\ Cal.dday a < Cal.dday b))).

(** the timestamps of [datetime.min .. datetime.max] *)
Definition representable (x : Z) : Prop :=
  US_PER_DAY <= x < (Cal.MAXORDINAL + 1) * US_PER_DAY.

(** a tuple or a list: after a reload from [tasks.json] the parameters of
    a task are a list *)
Definition as_seq (v : pyval) : option (list pyval) :=
  match v with
  | PTuple l | PList l => Some l
  | _ => None
  end.

Definition HOUR_US : Z := 3600 * US_PER_SECOND.
Definition MINUTE_US : Z := 60 * US_PER_SECOND.

(** a task as the dialog builds it, for the examples *)
Definition sample_task (f : string) (tp : pyval) : BackupTask :=
  mkBackupTask (PStr "docs") (PStr "/home/user/docs") (PStr "/mnt/backup")
               (PBool true) (PStr f) tp None (DateTime 2024 1 1 0 0 0 0).

(** year and month of the month after [t]'s *)
Definition target_year (t : datetime) : Z :=
  if month t =? 12 then year t + 1 else year t.
Definition target_month (t : datetime) : Z :=
  if month t =? 12 then 1 else month t + 1.

(** the recurrences of the data model: one of the four kinds with its
    parameters in range, as a tuple or (after a reload) a list *)
Inductive valid_recurrence : pyval -> pyval -> Prop :=
  | valid_hourly (m : Z) :
      0 <= m <= 59 -> valid_recurrence (PStr "hourly") (PInt m)
  | valid_daily (tp : pyval) (h m : Z) :
      as_seq tp = Some [PInt h; PInt m] ->
      0 <= h <= 23 -> 0 <= m <= 59 -> valid_recurrence (PStr "daily") tp
  | valid_weekly (tp : pyval) (wd h m : Z) :
      as_seq tp = Some [PInt wd; PInt h; PInt m] ->
      0 <= wd <= 6 -> 0 <= h <= 23 -> 0 <= m <= 59 ->
      valid_recurrence (PStr "weekly") tp
  | valid_monthly (tp : pyval) (d h m : Z) :
      as_seq tp = Some [PInt d; PInt h; PInt m] ->
      1 <= d <= 31 -> 0 <= h <= 23 -> 0 <= m <= 59 ->
      valid_recurrence (PStr "monthly") tp.

(** values as [json.load] returns them: no tuple anywhere *)
Fixpoint json_native (v : pyval) : bool :=
  match v with
  | PTuple _ => false
  | PList l => forallb json_native l
  | _ => true
  end.

(** the latest time at which [now + timedelta(minutes=5)] is a datetime *)
Definition LAST_SAFE : datetime := DateTime 9999 12 31 23 54 59 999999.

(** the files of a listing that can be read, as archive entries *)
Definition readable_entries (files : list (list string * option string)) : archive :=
  flat_map (fun f => match snd f with
                     | Some data => [(fst f, data)]
                     | None => []
                     end) files.

Definition all_readable (files : list (list string * option string)) : bool :=
  forallb (fun f => match snd f with Some _ => true | None => false end) files.

(** the number of backup threads that ended among the events *)
Fixpoint finished (evs : list event) : Z :=
  match evs with
  | [] => 0
  | Finish _ _ :: rest => 1 + finished rest
  | Start _ :: rest => finished rest
  end.

(** the number of calls of [run_task] among the events *)
Fixpoint started (evs : list event) : Z :=
  match evs with
  | [] => 0
  | Start _ :: rest => 1 + started rest
  | Finish _ _ :: rest => started rest
  end.

(** a source folder with one unreadable and two readable files *)
Definition three_files : node :=
  Folder [("a.txt", File None); ("b.txt", File (Some "bbb")); ("c.txt", File (Some "ccc"))].

(** a task due in two days and two hours, seen on 2024-01-01 at 10:00 *)
Definition weekly_app : BackupApp :=
  mkBackupApp
    [mkBackupTask (PStr "docs") (PStr "/home/user/docs") (PStr "/mnt/backup")
       (PBool true) (PStr "weekly") (PTuple [PInt 2; PInt 12; PInt 0]) None
       (DateTime 2024 1 3 12 0 0 0)]
    0 [] [].

(** what a returned next run must satisfy: a datetime after [t] *)
Definition after (t : datetime) (out : logged datetime) : Prop :=
  forall r l, out = (Ok r, l) -> dt_ok r = true /\ timestamp t < timestamp r.

(** the [try] body of [calculate_next_run] without the recursive call of
    the monthly branch *)
Definition plain_next (self : BackupTask) (now : datetime) : res datetime :=
  if eq_str (frequency self) "hourly" then hourly_next (time_params self) now
  else if eq_str (frequency self) "daily" then daily_next (time_params self) now
  else if eq_str (frequency self) "weekly" then weekly_next (time_params self) now
  else if eq_str (frequency self) "monthly" then monthly_candidate (time_params self) now
  else Ok now.

(** the files of a listing up to the first that cannot be read *)
Fixpoint readable_prefix (files : list (list string * option string)) : archive :=
  match files with
  | (p, Some data) :: rest => (p, data) :: readable_prefix rest
  | _ => []
  end.

(** the files of a listing that cannot be read *)
Definition unreadable (files : list (list string * option string))
  : list (list string * option string) :=
  filter (fun f => snd f = None) files.

(** the line printed for a file that is left out *)
Definition skipped (f : list string * option string) : log_entry :=
  Print "Пропущен заблокированный файл" (fst f).

(** archive entries as the readable files they were made from *)
Definition as_files (entries : archive) : list (list string * option string) :=
  map (fun e => (fst e, Some (snd e))) entries.

(** the two passes of [walk] over the entries of a folder, and the step
    of [copy_tree] on one entry *)
Definition files_of (prefix : list string) (e : string * node)
  : list (list string * option string) :=
  match snd e with
  | File c => [(prefix ++ [fst e], c)]
  | Folder _ | Locked => []
  end.
Definition folders_of (prefix : list string) (e : string * node)
  : list (list string * option string) :=
  match snd e with
  | File _ | Locked => []
  | Folder _ => walk (prefix ++ [fst e]) (snd e)
  end.
Definition copy_entry (prefix : list string) (e : string * node)
  : list (string * node) * list log_entry * list (list string) :=
  match snd e with
  | File (Some data) => ([(fst e, File (Some data))], [], [])
  | File None => ([], [Print "Пропущен заблокированный файл" (prefix ++ [fst e])], [])
  | Locked => ([], [], [prefix ++ [fst e]])
  | Folder _ =>
      let '(n', l, errors) := copy_tree (prefix ++ [fst e]) (snd e) in
      ([(fst e, n')], l, errors)
  end.

(** every folder of the tree can be listed *)
Fixpoint listable (n : node) : bool :=
  match n with
  | File _ => true
  | Locked => false
  | Folder entries => forallb (fun e => listable (snd e)) entries
  end.

(** the identity of a task: everything but its run state *)
Definition same_identity (a b : BackupTask) : Prop :=
  name a = name b /\ source a = source b /\ destination a = destination b /\
  compression a = compression b /\ frequency a = frequency b /\
  time_params a = time_params b.

(** the tasks of a registry that are due at [now] *)
Definition due_tasks (ts : list BackupTask) (now : datetime) : list BackupTask :=
  filter (fun t => due t now = true) ts.

Definition DAY_US : Z := US_PER_DAY.

(** a task as [tasks.json] gives it back: the same fields, the
    parameters with every tuple read back as a list *)
Definition reloaded (t' t : BackupTask) : Prop :=
  name t' = name t /\ source t' = source t /\ destination t' = destination t /\
  compression t' = compression t /\ frequency t' = frequency t /\
  time_params t' = json_reload (time_params t) /\ last_run t' = last_run t.

(** a task whose fields other than the parameters hold JSON values and
    whose [last_run], if any, is a datetime *)
Definition storable (t : BackupTask) : Prop :=
  json_native (name t) = true /\ json_native (source t) = true /\
  json_native (destination t) = true /\ json_native (compression t) = true /\
  json_native (frequency t) = true /\
  (forall d, last_run t = Some d -> dt_ok d = true).

(** the keys [load_tasks] reads from a record *)
Definition task_keys : list string :=
  ["name"; "source"; "destination"; "compression"; "frequency"; "time_params";
   "last_run"].

(** every clock reading is a datetime at most [LAST_SAFE] *)
Definition safe_clock (clk : nat -> datetime) : Prop :=
  forall i, dt_ok (clk i) = true /\ dt_le (clk i) LAST_SAFE = true.

(** * Properties *)

(** ** The calendar *)

Lemma is_leap_spec (y : Z) :
  Cal.is_leap y = true <-> (y mod 4 = 0 /\ (y mod 100 <> 0 \/ y mod 400 = 0)).
Proof.
  unfold Cal.is_leap.
  rewrite andb_true_iff, orb_true_iff, negb_true_iff, !Z.eqb_eq, Z.eqb_neq.
  tauto.
Qed.

Lemma days_before_year_succ (y : Z) :
  Cal.days_before_year (y + 1) =
  Cal.days_before_year y + (if Cal.is_leap y then 366 else 365).
Proof.
  unfold Cal.days_before_year.
  destruct (Cal.is_leap y) eqn:E.
  - apply is_leap_spec in E. cbv zeta.
    replace (y + 1 - 1) with y by lia.
    Z.to_euclidean_division_equations. lia.
  - assert (H : ~ (y mod 4 = 0 /\ (y mod 100 <> 0 \/ y mod 400 = 0))).
    { rewrite <- is_leap_spec. congruence. }
    cbv zeta. replace (y + 1 - 1) with y by lia.
    Z.to_euclidean_division_equations. lia.
Qed.

Lemma days_before_year_mono (a b : Z) :
  a <= b -> Cal.days_before_year a <= Cal.days_before_year b.
Proof.
  unfold Cal.days_before_year. intros H. cbv zeta.
  Z.to_euclidean_division_equations. lia.
Qed.

Lemma days_in_month_bounds (y m : Z) : 28 <= Cal.days_in_month y m <= 31.
Proof.
  unfold Cal.days_in_month.
  repeat match goal with |- context [if ?b then _ else _] => destruct b end; lia.
Qed.

Lemma month_cases (m : Z) :
  1 <= m <= 12 ->
  m = 1 \/ m = 2 \/ m = 3 \/ m = 4 \/ m = 5 \/ m = 6 \/
  m = 7 \/ m = 8 \/ m = 9 \/ m = 10 \/ m = 11 \/ m = 12.
Proof. lia. Qed.

Ltac each_month m H :=
  let C := fresh "C" in
  pose proof (month_cases m H) as C;
  repeat (destruct C as [C | C]; [subst m | ]); [.. | subst m].

Lemma days_before_month_succ (y m : Z) :
  1 <= m < 12 ->
  Cal.days_before_month y (m + 1) =
  Cal.days_before_month y m + Cal.days_in_month y m.
Proof.
  intros H. assert (H' : 1 <= m <= 12) by lia.
  unfold Cal.days_before_month, Cal.days_in_month.
  each_month m H'; try lia; cbn; destruct (Cal.is_leap y); reflexivity.
Qed.

Lemma days_before_month_december (y : Z) :
  Cal.days_before_month y 12 + 31 = if Cal.is_leap y then 366 else 365.
Proof. unfold Cal.days_before_month. cbn. destruct (Cal.is_leap y); reflexivity. Qed.

Lemma days_before_month_bounds (y m : Z) :
  1 <= m <= 12 ->
  0 <= Cal.days_before_month y m /\
  Cal.days_before_month y m + Cal.days_in_month y m
    <= if Cal.is_leap y then 366 else 365.
Proof.
  intros H. unfold Cal.days_before_month, Cal.days_in_month.
  each_month m H; cbn; destruct (Cal.is_leap y); lia.
Qed.

Lemma days_before_month_mono (y m m' : Z) :
  1 <= m -> m < m' -> m' <= 12 ->
  Cal.days_before_month y m + Cal.days_in_month y m <= Cal.days_before_month y m'.
Proof.
  intros H1 H2 H3.
  assert (Hm : 1 <= m <= 12) by lia. assert (Hm' : 1 <= m' <= 12) by lia.
  unfold Cal.days_before_month, Cal.days_in_month.
  each_month m Hm; each_month m' Hm'; try lia; cbn; destruct (Cal.is_leap y); lia.
Qed.

Lemma date_ok_spec (y m d : Z) :
  Cal.date_ok y m d = true <->
  1 <= y <= 9999 /\ 1 <= m <= 12 /\ 1 <= d <= Cal.days_in_month y m.
Proof.
  unfold Cal.date_ok, Cal.MINYEAR, Cal.MAXYEAR.
  rewrite !andb_true_iff, !Z.leb_le. tauto.
Qed.

Lemma toordinal_lt (a b : Cal.date) :
  date_valid a -> date_valid b -> date_lt a b -> Cal.toordinal a < Cal.toordinal b.
Proof.
  destruct a as [y m d], b as [y' m' d']. unfold date_valid, date_lt. cbn.
  rewrite !date_ok_spec. intros (Hy & Hm & Hd) (Hy' & Hm' & Hd') H.
  unfold Cal.toordinal, Cal.ymd2ord. cbn.
  destruct H as [H | [-> [H | [-> H]]]].
  - pose proof (days_before_year_mono (y + 1) y' ltac:(lia)) as Hmono.
    rewrite days_before_year_succ in Hmono.
    pose proof (days_before_month_bounds y m Hm).
    pose proof (days_before_month_bounds y' m' Hm').
    destruct (Cal.is_leap y); lia.
  - pose proof (days_before_month_mono y' m m' ltac:(lia) H ltac:(lia)). lia.
  - lia.
Qed.

Lemma toordinal_inj (a b : Cal.date) :
  date_valid a -> date_valid b -> Cal.toordinal a = Cal.toordinal b -> a = b.
Proof.
  intros Ha Hb E.
  destruct (Z.lt_total (Cal.dyear a) (Cal.dyear b)) as [H | [H | H]];
  destruct (Z.lt_total (Cal.dmonth a) (Cal.dmonth b)) as [H1 | [H1 | H1]];
  destruct (Z.lt_total (Cal.dday a) (Cal.dday b)) as [H2 | [H2 | H2]];
  try (assert (L : date_lt a b) by (unfold date_lt; lia);
       pose proof (toordinal_lt a b Ha Hb L); lia);
  try (assert (L : date_lt b a) by (unfold date_lt; lia);
       pose proof (toordinal_lt b a Hb Ha L); lia).
  destruct a, b; cbn in *; congruence.
Qed.

Lemma toordinal_bounds (d : Cal.date) :
  date_valid d -> 1 <= Cal.toordinal d <= Cal.MAXORDINAL.
Proof.
  intros H. split.
  - destruct (decide (d = Cal.Date 1 1 1)) as [-> | Hne]; [vm_compute; congruence |].
    assert (L : date_lt (Cal.Date 1 1 1) d).
    { destruct d as [y m dd]. unfold date_valid in H. cbn in H.
      apply date_ok_spec in H. unfold date_lt. cbn.
      assert (~ (y = 1 /\ m = 1 /\ dd = 1)) by (intros (-> & -> & ->); congruence).
      lia. }
    pose proof (toordinal_lt (Cal.Date 1 1 1) d eq_refl H L) as Hlt.
    change (Cal.toordinal (Cal.Date 1 1 1)) with 1 in Hlt. lia.
  - destruct (decide (d = Cal.Date 9999 12 31)) as [-> | Hne]; [vm_compute; congruence |].
    assert (L : date_lt d (Cal.Date 9999 12 31)).
    { destruct d as [y m dd]. unfold date_valid in H. cbn in H.
      apply date_ok_spec in H. unfold date_lt. cbn.
      assert (~ (y = 9999 /\ m = 12 /\ dd = 31)) by (intros (-> & -> & ->); congruence).
      pose proof (days_in_month_bounds y m). lia. }
    pose proof (toordinal_lt d (Cal.Date 9999 12 31) H eq_refl L) as Hlt.
    change (Cal.toordinal (Cal.Date 9999 12 31)) with Cal.MAXORDINAL in Hlt. lia.
Qed.

Lemma next_day_spec (d d' : Cal.date) :
  date_valid d -> Cal.next_day d = Some d' ->
  date_valid d' /\ Cal.toordinal d' = Cal.toordinal d + 1.
Proof.
  destruct d as [y m dd]. unfold date_valid, Cal.next_day, Cal.toordinal, Cal.ymd2ord.
  cbn. rewrite date_ok_spec. intros (Hy & Hm & Hd) H.
  destruct (Z.ltb_spec dd (Cal.days_in_month y m)) as [L1 | L1].
  { inversion H; subst; cbn. rewrite date_ok_spec. lia. }
  destruct (Z.ltb_spec m 12) as [L2 | L2].
  { inversion H; subst; cbn. rewrite date_ok_spec.
    rewrite days_before_month_succ by lia.
    pose proof (days_in_month_bounds y (m + 1)). lia. }
  unfold Cal.MAXYEAR in H.
  destruct (Z.ltb_spec y 9999) as [L3 | L3]; [| discriminate].
  inversion H; subst; cbn. rewrite date_ok_spec.
  assert (m = 12) by lia; subst m.
  rewrite days_before_year_succ.
  pose proof (days_before_month_december y) as D.
  change (Cal.days_in_month y 12) with 31 in *.
  change (Cal.days_in_month (y + 1) 1) with 31.
  change (Cal.days_before_month (y + 1) 1) with 0.
  destruct (Cal.is_leap y); lia.
Qed.

Lemma next_day_None (d : Cal.date) :
  date_valid d -> Cal.next_day d = None -> Cal.toordinal d = Cal.MAXORDINAL.
Proof.
  destruct d as [y m dd]. unfold date_valid, Cal.next_day. cbn.
  rewrite date_ok_spec. intros (Hy & Hm & Hd) H.
  destruct (Z.ltb_spec dd (Cal.days_in_month y m)); [discriminate |].
  destruct (Z.ltb_spec m 12); [discriminate |].
  unfold Cal.MAXYEAR in H. destruct (Z.ltb_spec y 9999); [discriminate |].
  assert (y = 9999) by lia. assert (m = 12) by lia. subst.
  change (Cal.days_in_month 9999 12) with 31 in *.
  assert (dd = 31) by lia. subst. reflexivity.
Qed.

Lemma prev_day_spec (d d' : Cal.date) :
  date_valid d -> Cal.prev_day d = Some d' ->
  date_valid d' /\ Cal.toordinal d' = Cal.toordinal d - 1.
Proof.
  destruct d as [y m dd]. unfold date_valid, Cal.prev_day, Cal.toordinal, Cal.ymd2ord.
  cbn. rewrite date_ok_spec. intros (Hy & Hm & Hd) H.
  destruct (Z.ltb_spec 1 dd) as [L1 | L1].
  { inversion H; subst; cbn. rewrite date_ok_spec. lia. }
  destruct (Z.ltb_spec 1 m) as [L2 | L2].
  { inversion H; subst; cbn. rewrite date_ok_spec.
    pose proof (days_before_month_succ y (m - 1) ltac:(lia)) as E.
    replace (m - 1 + 1) with m in E by lia.
    pose proof (days_in_month_bounds y (m - 1)). lia. }
  unfold Cal.MINYEAR in H.
  destruct (Z.ltb_spec 1 y) as [L3 | L3]; [| discriminate].
  inversion H; subst; cbn. rewrite date_ok_spec.
  assert (m = 1) by lia; subst m. assert (dd = 1) by lia; subst dd.
  pose proof (days_before_year_succ (y - 1)) as E.
  replace (y - 1 + 1) with y in E by lia.
  pose proof (days_before_month_december (y - 1)) as D.
  change (Cal.days_in_month (y - 1) 12) with 31.
  change (Cal.days_before_month y 1) with 0.
  destruct (Cal.is_leap (y - 1)); lia.
Qed.

Lemma prev_day_None (d : Cal.date) :
  date_valid d -> Cal.prev_day d = None -> Cal.toordinal d = 1.
Proof.
  destruct d as [y m dd]. unfold date_valid, Cal.prev_day. cbn.
  rewrite date_ok_spec. intros (Hy & Hm & Hd) H.
  destruct (Z.ltb_spec 1 dd); [discriminate |].
  destruct (Z.ltb_spec 1 m); [discriminate |].
  unfold Cal.MINYEAR in H. destruct (Z.ltb_spec 1 y); [discriminate |].
  assert (y = 1) by lia. assert (m = 1) by lia. assert (dd = 1) by lia.
  subst. reflexivity.
Qed.

Lemma iter_next_day_spec (n : nat) (d d' : Cal.date) :
  date_valid d -> Cal.iter_day Cal.next_day n d = Some d' ->
  date_valid d' /\ Cal.toordinal d' = Cal.toordinal d + Z.of_nat n.
Proof.
  revert d. induction n as [| n IH]; intros d Hd H; cbn in H.
  - inversion H; subst. split; [assumption | lia].
  - destruct (Cal.next_day d) as [d1 |] eqn:E; [| discriminate].
    destruct (next_day_spec d d1 Hd E) as [V1 O1].
    destruct (IH d1 V1 H) as [V O]. split; [assumption | lia].
Qed.

Lemma iter_prev_day_spec (n : nat) (d d' : Cal.date) :
  date_valid d -> Cal.iter_day Cal.prev_day n d = Some d' ->
  date_valid d' /\ Cal.toordinal d' = Cal.toordinal d - Z.of_nat n.
Proof.
  revert d. induction n as [| n IH]; intros d Hd H; cbn in H.
  - inversion H; subst. split; [assumption | lia].
  - destruct (Cal.prev_day d) as [d1 |] eqn:E; [| discriminate].
    destruct (prev_day_spec d d1 Hd E) as [V1 O1].
    destruct (IH d1 V1 H) as [V O]. split; [assumption | lia].
Qed.

Lemma iter_next_day_total (n : nat) (d : Cal.date) :
  date_valid d -> Cal.toordinal d + Z.of_nat n <= Cal.MAXORDINAL ->
  is_Some (Cal.iter_day Cal.next_day n d).
Proof.
  revert d. induction n as [| n IH]; intros d Hd H; cbn.
  - eauto.
  - destruct (Cal.next_day d) as [d1 |] eqn:E.
    + destruct (next_day_spec d d1 Hd E) as [V1 O1]. apply IH; [assumption | lia].
    + pose proof (next_day_None d Hd E). lia.
Qed.

Lemma iter_prev_day_total (n : nat) (d : Cal.date) :
  date_valid d -> 1 <= Cal.toordinal d - Z.of_nat n ->
  is_Some (Cal.iter_day Cal.prev_day n d).
Proof.
  revert d. induction n as [| n IH]; intros d Hd H; cbn.
  - eauto.
  - destruct (Cal.prev_day d) as [d1 |] eqn:E.
    + destruct (prev_day_spec d d1 Hd E) as [V1 O1]. apply IH; [assumption | lia].
    + pose proof (prev_day_None d Hd E). lia.
Qed.

(** [shift_days d k] is the date whose ordinal is [toordinal d + k] *)
Lemma toordinal_shift_days (d d' : Cal.date) (k : Z) :
  date_valid d -> Cal.shift_days d k = Some d' ->
  date_valid d' /\ Cal.toordinal d' = Cal.toordinal d + k.
Proof.
  unfold Cal.shift_days. intros Hd H.
  destruct (Z.leb_spec 0 k).
  - destruct (iter_next_day_spec _ _ _ Hd H). split; [assumption | lia].
  - destruct (iter_prev_day_spec _ _ _ Hd H). split; [assumption | lia].
Qed.

Lemma shift_days_total (d : Cal.date) (k : Z) :
  date_valid d -> 1 <= Cal.toordinal d + k <= Cal.MAXORDINAL ->
  is_Some (Cal.shift_days d k).
Proof.
  unfold Cal.shift_days. intros Hd H.
  destruct (Z.leb_spec 0 k).
  - apply iter_next_day_total; [assumption | lia].
  - apply iter_prev_day_total; [assumption | lia].
Qed.

(** and it is [None] exactly when that ordinal is no date *)
Lemma shift_days_None (d : Cal.date) (k : Z) :
  date_valid d -> Cal.shift_days d k = None ->
  Cal.toordinal d + k < 1 \/ Cal.MAXORDINAL < Cal.toordinal d + k.
Proof.
  intros Hd H.
  destruct (Z_lt_dec (Cal.toordinal d + k) 1); [lia |].
  destruct (Z_lt_dec Cal.MAXORDINAL (Cal.toordinal d + k)); [lia |].
  destruct (shift_days_total d k Hd ltac:(lia)) as [x E]. congruence.
Qed.

(** ** Datetimes *)

Lemma time_ok_spec (h mi s us : Z) :
  time_ok h mi s us = true <->
  0 <= h <= 23 /\ 0 <= mi <= 59 /\ 0 <= s <= 59 /\ 0 <= us <= 999999.
Proof. unfold time_ok. rewrite !andb_true_iff, !Z.leb_le. tauto. Qed.

Lemma dt_ok_spec (t : datetime) :
  dt_ok t = true <->
  date_valid (dt_date t) /\
  0 <= hour t <= 23 /\ 0 <= minute t <= 59 /\ 0 <= second t <= 59 /\
  0 <= microsecond t <= 999999.
Proof. unfold dt_ok. rewrite andb_true_iff, time_ok_spec. reflexivity. Qed.

Lemma time_us_bounds (t : datetime) :
  dt_ok t = true -> 0 <= time_us t < US_PER_DAY.
Proof.
  rewrite dt_ok_spec. unfold time_us, US_PER_DAY, US_PER_SECOND. lia.
Qed.

Lemma timestamp_bounds (t : datetime) :
  dt_ok t = true ->
  US_PER_DAY <= timestamp t < (Cal.MAXORDINAL + 1) * US_PER_DAY.
Proof.
  intros H. pose proof (time_us_bounds t H) as B.
  apply dt_ok_spec in H. destruct H as [H _].
  pose proof (toordinal_bounds _ H). unfold timestamp.
  unfold US_PER_DAY, US_PER_SECOND in *. lia.
Qed.

Lemma timestamp_date_lt (a b : datetime) :
  dt_ok a = true -> dt_ok b = true -> date_lt (dt_date a) (dt_date b) ->
  timestamp a < timestamp b.
Proof.
  intros Ha Hb L.
  pose proof (time_us_bounds a Ha). pose proof (time_us_bounds b Hb).
  apply dt_ok_spec in Ha, Hb. destruct Ha as [Ha _], Hb as [Hb _].
  pose proof (toordinal_lt _ _ Ha Hb L).
  unfold timestamp, US_PER_DAY, US_PER_SECOND in *. lia.
Qed.

(** Comparing datetimes is comparing their timestamps. *)
Lemma dt_compare_timestamp (a b : datetime) :
  dt_ok a = true -> dt_ok b = true ->
  dt_compare a b = (timestamp a ?= timestamp b).
Proof.
  intros Ha Hb. unfold dt_compare.
  destruct (Z.compare_spec (year a) (year b)) as [Ey | Ly | Ly].
  2: { symmetry. apply Z.compare_lt_iff, timestamp_date_lt; auto.
       unfold date_lt; cbn; lia. }
  2: { symmetry. apply Z.compare_gt_iff, timestamp_date_lt; auto.
       unfold date_lt; cbn; lia. }
  destruct (Z.compare_spec (month a) (month b)) as [Em | Lm | Lm].
  2: { symmetry. apply Z.compare_lt_iff, timestamp_date_lt; auto.
       unfold date_lt; cbn; lia. }
  2: { symmetry. apply Z.compare_gt_iff, timestamp_date_lt; auto.
       unfold date_lt; cbn; lia. }
  destruct (Z.compare_spec (day a) (day b)) as [Ed | Ld | Ld].
  2: { symmetry. apply Z.compare_lt_iff, timestamp_date_lt; auto.
       unfold date_lt; cbn; lia. }
  2: { symmetry. apply Z.compare_gt_iff, timestamp_date_lt; auto.
       unfold date_lt; cbn; lia. }
  assert (Eo : Cal.toordinal (dt_date a) = Cal.toordinal (dt_date b)).
  { unfold dt_date. rewrite Ey, Em, Ed. reflexivity. }
  apply dt_ok_spec in Ha, Hb.
  destruct Ha as (_ & ? & ? & ? & ?), Hb as (_ & ? & ? & ? & ?).
  unfold timestamp, time_us, US_PER_DAY, US_PER_SECOND. rewrite Eo.
  destruct (Z.compare_spec (hour a) (hour b));
    [| symmetry; first [apply Z.compare_lt_iff | apply Z.compare_gt_iff]; lia ..].
  destruct (Z.compare_spec (minute a) (minute b));
    [| symmetry; first [apply Z.compare_lt_iff | apply Z.compare_gt_iff]; lia ..].
  destruct (Z.compare_spec (second a) (second b));
    [| symmetry; first [apply Z.compare_lt_iff | apply Z.compare_gt_iff]; lia ..].
  destruct (Z.compare_spec (microsecond a) (microsecond b));
    symmetry;
    first [apply Z.compare_eq_iff | apply Z.compare_lt_iff | apply Z.compare_gt_iff];
    lia.
Qed.

Lemma dt_le_timestamp (a b : datetime) :
  dt_ok a = true -> dt_ok b = true ->
  dt_le a b = true <-> timestamp a <= timestamp b.
Proof.
  intros Ha Hb. unfold dt_le. rewrite (dt_compare_timestamp a b Ha Hb).
  destruct (Z.compare_spec (timestamp a) (timestamp b)); split; intros; try lia; congruence.
Qed.

Lemma dt_lt_timestamp (a b : datetime) :
  dt_ok a = true -> dt_ok b = true ->
  dt_lt a b = true <-> timestamp a < timestamp b.
Proof.
  intros Ha Hb. unfold dt_lt. rewrite (dt_compare_timestamp a b Ha Hb).
  destruct (Z.compare_spec (timestamp a) (timestamp b)); split; intros; try lia; congruence.
Qed.

Lemma dt_le_false_timestamp (a b : datetime) :
  dt_ok a = true -> dt_ok b = true ->
  dt_le a b = false <-> timestamp b < timestamp a.
Proof.
  intros Ha Hb. rewrite <- not_true_iff_false, dt_le_timestamp by assumption. lia.
Qed.

Lemma dt_lt_false_timestamp (a b : datetime) :
  dt_ok a = true -> dt_ok b = true ->
  dt_lt a b = false <-> timestamp b <= timestamp a.
Proof.
  intros Ha Hb. rewrite <- not_true_iff_false, dt_lt_timestamp by assumption. lia.
Qed.

Lemma timestamp_inj (a b : datetime) :
  dt_ok a = true -> dt_ok b = true -> timestamp a = timestamp b -> a = b.
Proof.
  intros Ha Hb E.
  pose proof (dt_compare_timestamp a b Ha Hb) as C.
  rewrite E, Z.compare_refl in C. unfold dt_compare in C.
  destruct a, b; cbn in *.
  repeat match type of C with
  | match (?x ?= ?y) with _ => _ end = Eq =>
      destruct (Z.compare_spec x y); try discriminate; subst
  end.
  apply Z.compare_eq in C. subst. reflexivity.
Qed.

Lemma td_us_of_us (x : Z) : td_us (td_of_us x) = x.
Proof.
  unfold td_us, td_of_us, US_PER_DAY, US_PER_SECOND. cbn.
  Z.to_euclidean_division_equations. lia.
Qed.

Lemma td_us_mk_timedelta (w d h m : Z) :
  td_us (mk_timedelta w d h m) = (((w * 7 + d) * 24 + h) * 60 + m) * 60 * US_PER_SECOND.
Proof. unfold mk_timedelta. apply td_us_of_us. Qed.

(** [dt_add] adds the length of the [timedelta] to the timestamp. *)
Lemma dt_add_spec (a r : datetime) (d : timedelta) :
  dt_ok a = true -> dt_add a d = Ok r ->
  dt_ok r = true /\ timestamp r = timestamp a + td_us d.
Proof.
  intros Ha H. unfold dt_add in H.
  pose proof (time_us_bounds a Ha) as B.
  apply dt_ok_spec in Ha. destruct Ha as [Hd _].
  set (us := time_us a + td_seconds d * US_PER_SECOND + td_microseconds d) in *.
  destruct (Cal.shift_days (dt_date a) (td_days d + us / US_PER_DAY))
    as [[y m dd] |] eqn:E; [| discriminate].
  destruct (toordinal_shift_days _ _ _ Hd E) as [V O].
  inversion H; subst r; clear H.
  assert (R : 0 <= us mod US_PER_DAY < US_PER_DAY)
    by (apply Z.mod_pos_bound; reflexivity).
  pose proof (Z.div_mod us US_PER_DAY ltac:(discriminate)) as DM.
  set (q := us / US_PER_DAY) in *. set (r := us mod US_PER_DAY) in *.
  split.
  - apply dt_ok_spec. cbn. split; [exact V |].
    unfold US_PER_DAY, US_PER_SECOND in *.
    clearbody r q us. clear -R.
    Z.to_euclidean_division_equations. lia.
  - unfold timestamp at 1. unfold dt_date at 1, time_us at 1. cbn.
    change (Cal.toordinal (Cal.Date y m dd)) with (Cal.toordinal {| Cal.dyear := y; Cal.dmonth := m; Cal.dday := dd |}).
    rewrite O. unfold timestamp, td_us.
    assert (T : ((r / (3600 * US_PER_SECOND) * 60 + r / (60 * US_PER_SECOND) mod 60) * 60
              + r / US_PER_SECOND mod 60) * US_PER_SECOND + r mod US_PER_SECOND = r).
    { unfold US_PER_DAY, US_PER_SECOND in *. clearbody r. clear -R.
      Z.to_euclidean_division_equations. lia. }
    rewrite T. subst us. unfold US_PER_DAY in *. lia.
Qed.

Lemma dt_add_total (a : datetime) (d : timedelta) :
  dt_ok a = true ->
  US_PER_DAY <= timestamp a + td_us d < (Cal.MAXORDINAL + 1) * US_PER_DAY ->
  exists r, dt_add a d = Ok r.
Proof.
  intros Ha H. unfold dt_add.
  pose proof (time_us_bounds a Ha) as B.
  apply dt_ok_spec in Ha. destruct Ha as [Hd _].
  set (us := time_us a + td_seconds d * US_PER_SECOND + td_microseconds d) in *.
  assert (S : is_Some (Cal.shift_days (dt_date a) (td_days d + us / US_PER_DAY))).
  { apply shift_days_total; [assumption |].
    unfold timestamp, td_us in H.
    assert (E : Cal.toordinal (dt_date a) * US_PER_DAY + time_us a +
                ((td_days d * 86400 + td_seconds d) * US_PER_SECOND + td_microseconds d)
                = (Cal.toordinal (dt_date a) + td_days d) * US_PER_DAY + us)
      by (subst us; unfold US_PER_DAY; lia).
    rewrite E in H. clearbody us.
    set (o := Cal.toordinal (dt_date a) + td_days d) in *.
    replace (Cal.toordinal (dt_date a) + (td_days d + us / US_PER_DAY))
      with (o + us / US_PER_DAY) by (subst o; lia).
    clearbody o. unfold Cal.MAXORDINAL, US_PER_DAY, US_PER_SECOND in *.
    clear -H. Z.to_euclidean_division_equations. lia. }
  destruct S as [[y m dd] ->]. eauto.
Qed.

(** the only exception of [dt_add] *)
Lemma dt_add_raise (a : datetime) (d : timedelta) (e : exn) :
  dt_add a d = Raise e -> e = OverflowError.
Proof.
  unfold dt_add.
  destruct (Cal.shift_days _ _) as [[y m dd] |]; congruence.
Qed.

Lemma dt_add_overflow (a : datetime) (d : timedelta) (e : exn) :
  dt_ok a = true -> dt_add a d = Raise e ->
  timestamp a + td_us d < US_PER_DAY \/
  (Cal.MAXORDINAL + 1) * US_PER_DAY <= timestamp a + td_us d.
Proof.
  intros Ha H.
  destruct (Z_lt_dec (timestamp a + td_us d) US_PER_DAY); [lia |].
  destruct (Z_le_dec ((Cal.MAXORDINAL + 1) * US_PER_DAY) (timestamp a + td_us d)); [lia |].
  destruct (dt_add_total a d Ha ltac:(lia)) as [r E]. congruence.
Qed.

(** ** [calculate_next_run] *)

Lemma as_c_int_PInt (z : Z) :
  - 2 ^ 31 <= z < 2 ^ 31 -> as_c_int (PInt z) = Ok z.
Proof.
  intros H. unfold as_c_int. cbn.
  destruct (Z.leb_spec (- 2 ^ 31) z); [| lia].
  destruct (Z.ltb_spec z (2 ^ 31)); [reflexivity | lia].
Qed.

Lemma datetime_new_ok (y mo d h mi s us : Z) :
  dt_ok (DateTime y mo d h mi s us) = true ->
  datetime_new y mo d h mi s us = Ok (DateTime y mo d h mi s us).
Proof. unfold datetime_new, dt_ok. cbn. intros ->. reflexivity. Qed.

Lemma datetime_new_inv (y mo d h mi s us : Z) (r : datetime) :
  datetime_new y mo d h mi s us = Ok r ->
  r = DateTime y mo d h mi s us /\ dt_ok r = true.
Proof.
  unfold datetime_new. destruct (_ && _) eqn:E; [| discriminate].
  intros H. inversion H; subst. split; [reflexivity | exact E].
Qed.

Lemma replace_minute (t : datetime) (m : Z) :
  dt_ok t = true -> 0 <= m <= 59 ->
  replace t None (Some (PInt m)) (Some (PInt 0)) (Some (PInt 0)) =
  Ok (DateTime (year t) (month t) (day t) (hour t) m 0 0).
Proof.
  intros H Hm. unfold replace. cbn [arg_or].
  rewrite !as_c_int_PInt by lia. cbn.
  apply datetime_new_ok. apply dt_ok_spec in H. apply dt_ok_spec. cbn.
  unfold dt_date in H. intuition lia.
Qed.

Lemma replace_hour_minute (t : datetime) (h m : Z) :
  dt_ok t = true -> 0 <= h <= 23 -> 0 <= m <= 59 ->
  replace t (Some (PInt h)) (Some (PInt m)) (Some (PInt 0)) (Some (PInt 0)) =
  Ok (DateTime (year t) (month t) (day t) h m 0 0).
Proof.
  intros H Hh Hm. unfold replace. cbn [arg_or].
  rewrite !as_c_int_PInt by lia. cbn.
  apply datetime_new_ok. apply dt_ok_spec in H. apply dt_ok_spec. cbn.
  unfold dt_date in H. intuition lia.
Qed.

(** whatever [replace] returns is a datetime of the same day *)
Lemma replace_inv (t r : datetime) (h mi s us : option pyval) :
  replace t h mi s us = Ok r ->
  dt_ok r = true /\ dt_date r = dt_date t.
Proof.
  unfold replace. intros H.
  destruct (arg_or (hour t) h) as [h' |]; [| discriminate].
  destruct (arg_or (minute t) mi) as [mi' |]; [| discriminate].
  destruct (arg_or (second t) s) as [s' |]; [| discriminate].
  destruct (arg_or (microsecond t) us) as [us' |]; [| discriminate].
  cbn in H. apply datetime_new_inv in H. destruct H as [-> H].
  split; [exact H | reflexivity].
Qed.

Lemma same_day_timestamp (a b : datetime) :
  dt_date a = dt_date b ->
  timestamp a - time_us a = timestamp b - time_us b.
Proof. unfold timestamp. intros ->. lia. Qed.

(** adding a whole number of hours or days keeps minute, second and
    microsecond *)
Lemma dt_add_keeps_minute (a r : datetime) (d : timedelta) :
  dt_ok a = true -> td_seconds d mod 3600 = 0 -> td_microseconds d = 0 ->
  dt_add a d = Ok r ->
  minute r = minute a /\ second r = second a /\ microsecond r = microsecond a.
Proof.
  intros Ha Hs Hu H. unfold dt_add in H.
  destruct (Cal.shift_days _ _) as [[y m dd] |]; [| discriminate].
  inversion H; subst r; clear H. cbn.
  apply dt_ok_spec in Ha. destruct Ha as (_ & Hh & Hm & Hsec & Hus).
  rewrite Hu. unfold time_us, US_PER_DAY, US_PER_SECOND.
  set (k := td_seconds d) in *. clearbody k.
  assert (exists q, k = 3600 * q) as [q ->].
  { exists (k / 3600). pose proof (Z.div_mod k 3600 ltac:(lia)). lia. }
  clear Hs.
  set (us := ((hour a * 60 + minute a) * 60 + second a) * 1000000 + microsecond a
             + 3600 * q * 1000000 + 0).
  assert (E : us = (((hour a + q) * 60 + minute a) * 60 + second a) * 1000000
                   + microsecond a) by (subst us; lia).
  clearbody us. subst us.
  set (H' := hour a + q). clearbody H'.
  set (mi := minute a) in *. set (s := second a) in *. set (u := microsecond a) in *.
  clearbody mi s u.
  Z.to_euclidean_division_equations. lia.
Qed.

Lemma td_hour : mk_timedelta 0 0 1 0 = TimeDelta 0 3600 0.
Proof. reflexivity. Qed.
Lemma td_day : mk_timedelta 0 1 0 0 = TimeDelta 1 0 0.
Proof. reflexivity. Qed.
Lemma td_week : mk_timedelta 1 0 0 0 = TimeDelta 7 0 0.
Proof. reflexivity. Qed.
Lemma td_five_minutes : mk_timedelta 0 0 0 5 = TimeDelta 0 300 0.
Proof. reflexivity. Qed.

(** ** The hourly branch *)

Lemma hourly_next_spec (t : datetime) (m : Z) :
  dt_ok t = true -> 0 <= m <= 59 ->
  representable (timestamp t + HOUR_US) ->
  exists r, hourly_next (PInt m) t = Ok r /\ dt_ok r = true /\
    minute r = m /\ second r = 0 /\ microsecond r = 0 /\
    timestamp t < timestamp r <= timestamp t + HOUR_US.
Proof.
  intros Ht Hm Hrep. unfold hourly_next.
  rewrite (replace_minute t m Ht Hm). cbn [mbind res_bind].
  set (c := DateTime (year t) (month t) (day t) (hour t) m 0 0).
  assert (Hc : dt_ok c = true).
  { apply dt_ok_spec in Ht. apply dt_ok_spec. subst c. cbn.
    unfold dt_date in Ht. intuition lia. }
  assert (Ec : timestamp c = timestamp t - time_us t + (hour t * 60 + m) * MINUTE_US).
  { rewrite <- (same_day_timestamp c t) by reflexivity.
    unfold time_us, MINUTE_US, US_PER_SECOND. subst c. cbn. lia. }
  pose proof Ht as Hf. apply dt_ok_spec in Hf. destruct Hf as (_ & Hh & Hmi & Hs & Hus).
  assert (Et : time_us t = (hour t * 60 + minute t) * MINUTE_US
                           + second t * US_PER_SECOND + microsecond t).
  { unfold time_us, MINUTE_US. lia. }
  unfold representable, HOUR_US, MINUTE_US, US_PER_DAY, US_PER_SECOND in *.
  destruct (dt_le c t) eqn:Ele.
  - apply dt_le_timestamp in Ele; [| assumption ..].
    pose proof (timestamp_bounds c Hc) as Bc.
    destruct (dt_add_total c (mk_timedelta 0 0 1 0) Hc) as [r Er].
    { rewrite td_us_mk_timedelta.
      unfold US_PER_DAY, US_PER_SECOND in *. lia. }
    exists r. split; [exact Er |].
    destruct (dt_add_spec c r _ Hc Er) as [Hr Tr].
    destruct (dt_add_keeps_minute c r (mk_timedelta 0 0 1 0) Hc eq_refl eq_refl Er)
      as (M & S & U).
    rewrite td_us_mk_timedelta in Tr. unfold US_PER_SECOND in Tr.
    subst c; cbn in M, S, U.
    repeat split; try assumption; lia.
  - apply dt_le_false_timestamp in Ele; [| assumption ..].
    exists c. subst c; cbn. repeat split; try assumption; cbn in *; lia.
Qed.

(** C8.  For every reference time [t] earlier than 9999-12-31T23:00:00
    and every hourly parameter [m] in [0, 59], the next run of an hourly
    task is computed without an error, is strictly after [t], has minute
    [m], second 0 and microsecond 0, and is at most one hour after [t];
    with [m = 30] and [t] = 2024-01-01T10:15:00 it is 2024-01-01T10:30:00. *)
Theorem hourly_next_run :
  (forall (depth : nat) (self : BackupTask) (t : datetime) (m : Z),
     dt_ok t = true ->
     frequency self = PStr "hourly" -> time_params self = PInt m ->
     0 <= m <= 59 ->
     dt_lt t (DateTime 9999 12 31 23 0 0 0) = true ->
     exists r,
       calculate_next_run_at (S depth) self t = (Ok r, []) /\
       dt_ok r = true /\ dt_lt t r = true /\
       minute r = m /\ second r = 0 /\ microsecond r = 0 /\
       0 < td_us (dt_sub r t) <= HOUR_US) /\
  (forall (depth : nat) (self : BackupTask),
     frequency self = PStr "hourly" -> time_params self = PInt 30 ->
     calculate_next_run_at (S depth) self (DateTime 2024 1 1 10 15 0 0) =
     (Ok (DateTime 2024 1 1 10 30 0 0), [])).
Proof.
  split.
  - intros depth self t m Ht Hf Hp Hm Hb.
    apply dt_lt_timestamp in Hb; [| assumption | reflexivity].
    assert (Hrep : representable (timestamp t + HOUR_US)).
    { pose proof (timestamp_bounds t Ht) as B.
      change (timestamp (DateTime 9999 12 31 23 0 0 0))
        with ((Cal.MAXORDINAL + 1) * US_PER_DAY - HOUR_US) in Hb.
      unfold representable, HOUR_US, US_PER_DAY, US_PER_SECOND in *. lia. }
    destruct (hourly_next_spec t m Ht Hm Hrep) as (r & E & Hr & M & S & U & T).
    exists r. cbn [calculate_next_run_at]. unfold next_run_try.
    rewrite Hf, Hp. cbn [eq_str].
    rewrite (proj2 (String.eqb_eq _ _) eq_refl). rewrite E. cbn [next_run_except].
    repeat split; try assumption.
    + apply dt_lt_timestamp; [assumption .. | lia].
    + unfold dt_sub. rewrite td_us_of_us. lia.
    + unfold dt_sub. rewrite td_us_of_us. lia.
  - intros depth self Hf Hp. cbn [calculate_next_run_at]. unfold next_run_try.
    rewrite Hf, Hp. reflexivity.
Qed.

(** ** The monthly branch *)

Lemma unpack3_seq (v a b c : pyval) :
  as_seq v = Some [a; b; c] -> unpack3 v = Ok (a, b, c).
Proof. destruct v; cbn; intros H; inversion H; subst; reflexivity. Qed.

Lemma unpack2_seq (v a b : pyval) :
  as_seq v = Some [a; b] -> unpack2 v = Ok (a, b).
Proof. destruct v; cbn; intros H; inversion H; subst; reflexivity. Qed.

Lemma datetime_of_ints (y mo d h mi : Z) :
  1 <= y <= 10000 -> 1 <= mo <= 12 -> 1 <= d <= 31 -> 0 <= h <= 23 -> 0 <= mi <= 59 ->
  datetime_of (PInt y) (PInt mo) (PInt d) (PInt h) (PInt mi) =
  datetime_new y mo d h mi 0 0.
Proof.
  intros. unfold datetime_of. rewrite !as_c_int_PInt by lia. reflexivity.
Qed.

(** the next month is after every moment of this month *)
Lemma next_month_later (t r : datetime) :
  dt_ok t = true -> year r = target_year t -> month r = target_month t ->
  dt_lt t r = true.
Proof.
  intros Ht Hy Hm. apply dt_ok_spec in Ht. destruct Ht as (Hd & _).
  unfold date_valid in Hd. cbn in Hd. apply date_ok_spec in Hd.
  unfold dt_lt, dt_compare, target_year, target_month in *. rewrite Hy, Hm.
  destruct (Z.eqb_spec (month t) 12) as [E | E].
  - rewrite (proj2 (Z.compare_lt_iff (year t) (year t + 1))) by lia. reflexivity.
  - rewrite Z.compare_refl.
    rewrite (proj2 (Z.compare_lt_iff (month t) (month t + 1))) by lia. reflexivity.
Qed.

Lemma monthly_candidate_spec (tp : pyval) (t : datetime) (d h mi : Z) :
  dt_ok t = true ->
  as_seq tp = Some [PInt d; PInt h; PInt mi] ->
  1 <= d <= 31 -> 0 <= h <= 23 -> 0 <= mi <= 59 ->
  target_year t <= 9999 ->
  let r := DateTime (target_year t) (target_month t)
             (Z.min d (Cal.days_in_month (target_year t) (target_month t))) h mi 0 0 in
  monthly_candidate tp t = Ok r /\ dt_ok r = true.
Proof.
  intros Ht Hp Hd Hh Hmi Hy r.
  pose proof Ht as Hv. apply dt_ok_spec in Hv. destruct Hv as (Hv & _).
  unfold date_valid in Hv. cbn in Hv. apply date_ok_spec in Hv.
  assert (Ey : 1 <= target_year t <= 9999)
    by (revert Hy; unfold target_year; destruct (month t =? 12); lia).
  assert (Em : 1 <= target_month t <= 12).
  { unfold target_month. destruct (Z.eqb_spec (month t) 12); lia. }
  pose proof (days_in_month_bounds (target_year t) (target_month t)) as Hdim.
  assert (Hr : dt_ok r = true).
  { apply dt_ok_spec. subst r. cbn. unfold date_valid. cbn.
    rewrite date_ok_spec. lia. }
  split; [| exact Hr].
  unfold monthly_candidate. rewrite (unpack3_seq _ _ _ _ Hp). cbn [mbind res_bind].
  assert (E : (if 12 <? month t + 1 then (1, year t + 1) else (month t + 1, year t))
              = (target_month t, target_year t)).
  { unfold target_month, target_year.
    destruct (Z.ltb_spec 12 (month t + 1)), (Z.eqb_spec (month t) 12);
      try reflexivity; lia. }
  rewrite E. clear E.
  rewrite datetime_of_ints by lia.
  destruct (Z_le_dec d (Cal.days_in_month (target_year t) (target_month t))) as [L | L].
  - rewrite datetime_new_ok.
    + subst r. rewrite Z.min_l by lia. reflexivity.
    + subst r. rewrite Z.min_l in Hr by lia. exact Hr.
  - assert (N : datetime_new (target_year t) (target_month t) d h mi 0 0 = Raise ValueError).
    { unfold datetime_new.
      assert (F : Cal.date_ok (target_year t) (target_month t) d = false).
      { apply not_true_iff_false. rewrite date_ok_spec. lia. }
      rewrite F. reflexivity. }
    rewrite N. rewrite datetime_of_ints by lia.
    subst r. rewrite Z.min_r in * by lia.
    apply datetime_new_ok. exact Hr.
Qed.

(** C6.  For a monthly task with day in [1, 31], hour in [0, 23] and
    minute in [0, 59] and every reference time [t] before December 9999,
    the next run is computed without an error and is a valid date: the
    requested day of the month after [t]'s, or the last day of that month
    when the month is shorter.  With (31, 0, 0) and [t] = 2024-01-20 it is
    2024-02-29T00:00:00. *)
Theorem monthly_next_run :
  (forall (depth : nat) (self : BackupTask) (t : datetime) (d h mi : Z),
     dt_ok t = true ->
     frequency self = PStr "monthly" ->
     as_seq (time_params self) = Some [PInt d; PInt h; PInt mi] ->
     1 <= d <= 31 -> 0 <= h <= 23 -> 0 <= mi <= 59 ->
     dt_lt t (DateTime 9999 12 1 0 0 0 0) = true ->
     let r := DateTime (target_year t) (target_month t)
                (Z.min d (Cal.days_in_month (target_year t) (target_month t)))
                h mi 0 0 in
     calculate_next_run_at (S depth) self t = (Ok r, []) /\
     dt_ok r = true /\ dt_lt t r = true) /\
  (forall (depth : nat) (self : BackupTask),
     frequency self = PStr "monthly" ->
     as_seq (time_params self) = Some [PInt 31; PInt 0; PInt 0] ->
     calculate_next_run_at (S depth) self (DateTime 2024 1 20 0 0 0 0) =
     (Ok (DateTime 2024 2 29 0 0 0 0), [])).
Proof.
  assert (G : forall (depth : nat) (self : BackupTask) (t : datetime) (d h mi : Z),
     dt_ok t = true ->
     frequency self = PStr "monthly" ->
     as_seq (time_params self) = Some [PInt d; PInt h; PInt mi] ->
     1 <= d <= 31 -> 0 <= h <= 23 -> 0 <= mi <= 59 ->
     dt_lt t (DateTime 9999 12 1 0 0 0 0) = true ->
     let r := DateTime (target_year t) (target_month t)
                (Z.min d (Cal.days_in_month (target_year t) (target_month t)))
                h mi 0 0 in
     calculate_next_run_at (S depth) self t = (Ok r, []) /\
     dt_ok r = true /\ dt_lt t r = true).
  { intros depth self t d h mi Ht Hf Hp Hd Hh Hmi Hb r.
    assert (Hy : target_year t <= 9999).
    { pose proof Ht as Hv. apply dt_ok_spec in Hv. destruct Hv as (Hv & _).
      unfold date_valid in Hv. cbn in Hv. apply date_ok_spec in Hv.
      unfold target_year. destruct (Z.eqb_spec (month t) 12) as [E | E]; [| lia].
      destruct (Z_le_dec (year t) 9998); [lia |].
      exfalso. apply dt_ok_spec in Ht. destruct Ht as (_ & ? & ? & ? & ?).
      unfold dt_lt, dt_compare in Hb. cbn [year month day hour minute second microsecond] in Hb.
      rewrite E in Hb.
      repeat match type of Hb with
      | context [Z.compare ?x ?y] =>
          destruct (Z.compare_spec x y); try discriminate; try lia
      end. }
    destruct (monthly_candidate_spec _ t d h mi Ht Hp Hd Hh Hmi Hy) as [E Hr].
    fold r in E, Hr.
    assert (L : dt_lt t r = true) by (apply next_month_later; [assumption | reflexivity ..]).
    repeat split; try assumption.
    cbn [calculate_next_run_at]. unfold next_run_try. rewrite Hf. cbn [eq_str].
    rewrite !(proj2 (String.eqb_neq _ _)) by discriminate.
    rewrite (proj2 (String.eqb_eq _ _) eq_refl).
    rewrite E, L. reflexivity. }
  split; [exact G |].
  intros depth self Hf Hp.
  exact (proj1 (G depth self (DateTime 2024 1 20 0 0 0 0) 31 0 0 eq_refl Hf Hp
                 ltac:(lia) ltac:(lia) ltac:(lia) eq_refl)).
Qed.

(** ** All four kinds: the next run is after the reference time *)

Lemma replace_keeps_hour (t r : datetime) (mi s us : option pyval) :
  replace t None mi s us = Ok r -> hour r = hour t.
Proof.
  unfold replace. cbn [arg_or mbind res_bind]. intros H.
  destruct (arg_or (minute t) mi) as [mi' |]; [| discriminate].
  destruct (arg_or (second t) s) as [s' |]; [| discriminate].
  destruct (arg_or (microsecond t) us) as [us' |]; [| discriminate].
  cbn in H. apply datetime_new_inv in H. destruct H as [-> _]. reflexivity.
Qed.

Lemma day_start (t : datetime) :
  dt_ok t = true ->
  timestamp t - time_us t <= timestamp t < timestamp t - time_us t + US_PER_DAY.
Proof. intros H. pose proof (time_us_bounds t H). lia. Qed.

Lemma hourly_after (tp : pyval) (t r : datetime) :
  dt_ok t = true -> hourly_next tp t = Ok r ->
  dt_ok r = true /\ timestamp t < timestamp r.
Proof.
  intros Ht H. unfold hourly_next in H.
  destruct (replace t None (Some tp) (Some (PInt 0)) (Some (PInt 0))) as [c |] eqn:E;
    [| discriminate].
  cbn [mbind res_bind] in H.
  destruct (replace_inv _ _ _ _ _ _ E) as [Hc Dc].
  pose proof (replace_keeps_hour _ _ _ _ _ E) as Hh.
  pose proof (same_day_timestamp c t Dc) as Sd.
  assert (Lo : timestamp t - HOUR_US < timestamp c).
  { apply dt_ok_spec in Ht, Hc.
    destruct Ht as (_ & ? & ? & ? & ?), Hc as (_ & ? & ? & ? & ?).
    unfold time_us, HOUR_US, US_PER_SECOND in *. lia. }
  destruct (dt_le c t) eqn:Ele.
  - destruct (dt_add_spec c r _ Hc H) as [Hr Tr].
    rewrite td_us_mk_timedelta in Tr. unfold HOUR_US in Lo.
    split; [assumption | lia].
  - inversion H; subst r.
    apply dt_le_false_timestamp in Ele; [| assumption ..]. split; assumption.
Qed.

Lemma daily_after (tp : pyval) (t r : datetime) :
  dt_ok t = true -> daily_next tp t = Ok r ->
  dt_ok r = true /\ timestamp t < timestamp r.
Proof.
  intros Ht H. unfold daily_next in H.
  destruct (unpack2 tp) as [[h mi] |]; [| discriminate].
  cbn [mbind res_bind] in H.
  destruct (replace t (Some h) (Some mi) (Some (PInt 0)) (Some (PInt 0))) as [c |] eqn:E;
    [| discriminate].
  cbn [mbind res_bind] in H.
  destruct (replace_inv _ _ _ _ _ _ E) as [Hc Dc].
  pose proof (same_day_timestamp c t Dc) as Sd.
  pose proof (day_start t Ht). pose proof (day_start c Hc).
  destruct (dt_le c t) eqn:Ele.
  - destruct (dt_add_spec c r _ Hc H) as [Hr Tr].
    rewrite td_us_mk_timedelta in Tr. unfold US_PER_DAY in *.
    split; [assumption | lia].
  - inversion H; subst r.
    apply dt_le_false_timestamp in Ele; [| assumption ..]. split; assumption.
Qed.

Lemma weekly_after (tp : pyval) (t r : datetime) :
  dt_ok t = true -> weekly_next tp t = Ok r ->
  dt_ok r = true /\ timestamp t < timestamp r.
Proof.
  intros Ht H. unfold weekly_next in H.
  destruct (unpack3 tp) as [[[wd h] mi] |]; [| discriminate].
  cbn [mbind res_bind] in H.
  destruct (as_int wd) as [w |]; [| discriminate].
  destruct (replace t (Some h) (Some mi) (Some (PInt 0)) (Some (PInt 0))) as [c |] eqn:E;
    [| discriminate].
  cbn [mbind res_bind] in H.
  destruct (replace_inv _ _ _ _ _ _ E) as [Hc Dc].
  pose proof (same_day_timestamp c t Dc) as Sd.
  pose proof (day_start t Ht). pose proof (day_start c Hc).
  set (days_ahead := (w - dt_weekday t) mod 7) in *.
  assert (Ha : 0 <= days_ahead < 7) by (apply Z.mod_pos_bound; lia).
  destruct (dt_add c (mk_timedelta 0 days_ahead 0 0)) as [n |] eqn:En; [| discriminate].
  cbn [mbind res_bind] in H.
  destruct (dt_add_spec c n _ Hc En) as [Hn Tn].
  rewrite td_us_mk_timedelta in Tn.
  destruct (dt_le n t) eqn:Ele.
  - destruct (dt_add_spec n r _ Hn H) as [Hr Tr].
    rewrite td_us_mk_timedelta in Tr. unfold US_PER_DAY in *.
    split; [assumption | nia].
  - inversion H; subst r.
    apply dt_le_false_timestamp in Ele; [| assumption ..]. split; assumption.
Qed.

Lemma datetime_of_inv (y mo d h mi : pyval) (r : datetime) :
  datetime_of y mo d h mi = Ok r -> dt_ok r = true.
Proof.
  unfold datetime_of. intros H.
  destruct (as_c_int y); [| discriminate]. destruct (as_c_int mo); [| discriminate].
  destruct (as_c_int d); [| discriminate]. destruct (as_c_int h); [| discriminate].
  destruct (as_c_int mi); [| discriminate].
  cbn in H. apply datetime_new_inv in H. tauto.
Qed.

Lemma monthly_candidate_inv (tp : pyval) (t r : datetime) :
  monthly_candidate tp t = Ok r -> dt_ok r = true.
Proof.
  unfold monthly_candidate. intros H.
  destruct (unpack3 tp) as [[[d h] mi] |]; [| discriminate].
  cbn [mbind res_bind] in H.
  destruct (if 12 <? month t + 1 then (1, year t + 1) else (month t + 1, year t))
    as [nm ny].
  destruct (datetime_of (PInt ny) (PInt nm) d h mi) as [c | e] eqn:E.
  - inversion H; subst. eapply datetime_of_inv; eassumption.
  - destruct e; try discriminate. eapply datetime_of_inv; eassumption.
Qed.

Lemma next_run_try_after (recur : datetime -> logged datetime)
    (self : BackupTask) (t : datetime) :
  dt_ok t = true -> recognised (frequency self) = true ->
  (forall t', dt_ok t' = true -> after t' (recur t')) ->
  after t (next_run_try recur self t).
Proof.
  intros Ht Hf Hrec r l H. unfold next_run_try in H. unfold recognised in Hf.
  destruct (eq_str (frequency self) "hourly").
  { inversion H. eapply hourly_after; eassumption. }
  destruct (eq_str (frequency self) "daily").
  { inversion H. eapply daily_after; eassumption. }
  destruct (eq_str (frequency self) "weekly").
  { inversion H. eapply weekly_after; eassumption. }
  destruct (eq_str (frequency self) "monthly"); [| discriminate].
  destruct (monthly_candidate (time_params self) t) as [c |] eqn:E; [| discriminate].
  pose proof (monthly_candidate_inv _ _ _ E) as Hc.
  destruct (dt_lt t c) eqn:L.
  - inversion H; subst. split; [assumption |].
    apply dt_lt_timestamp in L; assumption.
  - destruct (dt_add t (mk_timedelta 0 1 0 0)) as [tomorrow |] eqn:Et; [| discriminate].
    destruct (dt_add_spec t tomorrow _ Ht Et) as [Hto Tto].
    rewrite td_us_mk_timedelta in Tto.
    destruct (Hrec tomorrow Hto r l H) as [Hr Tr].
    split; [assumption |]. unfold US_PER_SECOND in *. lia.
Qed.

Lemma next_run_except_after (t : datetime) (body : logged datetime) :
  dt_ok t = true -> after t body -> after t (next_run_except t body).
Proof.
  intros Ht Hb r l H. unfold next_run_except in H.
  destruct body as [[b | e] lb].
  - apply (Hb r l). exact H.
  - inversion H as [[E El]].
    destruct (dt_add_spec t r _ Ht E) as [Hr Tr].
    rewrite td_us_mk_timedelta in Tr. unfold US_PER_SECOND in *.
    split; [assumption | lia].
Qed.

(** Whenever a task of a recognised kind gets a next run, it is strictly
    after the reference time. *)
Lemma calculate_next_run_after (depth : nat) (self : BackupTask) (t : datetime) :
  dt_ok t = true -> recognised (frequency self) = true ->
  after t (calculate_next_run_at depth self t).
Proof.
  intros Ht Hf. revert t Ht.
  induction depth as [| depth IH]; intros t Ht.
  - intros r l H. discriminate.
  - cbn [calculate_next_run_at].
    apply next_run_except_after; [assumption |].
    apply next_run_try_after; assumption.
Qed.

(** It gets one whenever [t + 5 minutes] is a datetime. *)
Lemma calculate_next_run_total (depth : nat) (self : BackupTask) (t : datetime) :
  dt_ok t = true -> representable (timestamp t + 5 * MINUTE_US) ->
  exists r l, calculate_next_run_at (S depth) self t = (Ok r, l).
Proof.
  intros Ht Hrep. cbn [calculate_next_run_at].
  destruct (next_run_try (calculate_next_run_at depth self) self t) as [[r | e] l].
  - exists r, l. reflexivity.
  - cbn [next_run_except].
    destruct (dt_add_total t (mk_timedelta 0 0 0 5) Ht) as [r E].
    { rewrite td_us_mk_timedelta.
      unfold representable, MINUTE_US in Hrep. lia. }
    rewrite E. eauto.
Qed.

Lemma before_last_year (t : datetime) :
  dt_ok t = true -> year t < 9999 ->
  representable (timestamp t) /\
  timestamp t + 364 * US_PER_DAY < (Cal.MAXORDINAL + 1) * US_PER_DAY.
Proof.
  intros Ht Hy. pose proof (timestamp_bounds t Ht) as B.
  pose proof (time_us_bounds t Ht) as Bt.
  split; [exact B |].
  apply dt_ok_spec in Ht. destruct Ht as [Hd _].
  assert (L : date_lt (dt_date t) (Cal.Date 9999 1 1)) by (left; cbn; lia).
  pose proof (toordinal_lt _ (Cal.Date 9999 1 1) Hd eq_refl L) as O.
  change (Cal.toordinal (Cal.Date 9999 1 1)) with (Cal.MAXORDINAL - 364) in O.
  unfold timestamp. unfold US_PER_DAY, US_PER_SECOND in *. lia.
Qed.

Lemma daily_next_total (tp : pyval) (t : datetime) (h m : Z) :
  dt_ok t = true -> as_seq tp = Some [PInt h; PInt m] ->
  0 <= h <= 23 -> 0 <= m <= 59 -> year t < 9999 ->
  exists r, daily_next tp t = Ok r.
Proof.
  intros Ht Hp Hh Hm Hy. unfold daily_next.
  rewrite (unpack2_seq _ _ _ Hp). cbn [mbind res_bind].
  rewrite (replace_hour_minute t h m Ht Hh Hm). cbn [mbind res_bind].
  set (c := DateTime (year t) (month t) (day t) h m 0 0).
  destruct (dt_le c t) eqn:Ele; [| eauto].
  assert (Hc : dt_ok c = true).
  { apply dt_ok_spec in Ht. apply dt_ok_spec. subst c. cbn.
    unfold dt_date in Ht. intuition lia. }
  apply dt_le_timestamp in Ele; [| assumption ..].
  destruct (before_last_year t Ht Hy) as [B M].
  pose proof (timestamp_bounds c Hc).
  apply dt_add_total; [assumption |].
  rewrite td_us_mk_timedelta.
  unfold representable, Cal.MAXORDINAL, US_PER_DAY, US_PER_SECOND in *. lia.
Qed.

Lemma weekly_next_total (tp : pyval) (t : datetime) (wd h m : Z) :
  dt_ok t = true -> as_seq tp = Some [PInt wd; PInt h; PInt m] ->
  0 <= h <= 23 -> 0 <= m <= 59 -> year t < 9999 ->
  exists r, weekly_next tp t = Ok r.
Proof.
  intros Ht Hp Hh Hm Hy. unfold weekly_next.
  rewrite (unpack3_seq _ _ _ _ Hp). cbn [mbind res_bind as_int].
  rewrite (replace_hour_minute t h m Ht Hh Hm). cbn [mbind res_bind].
  set (c := DateTime (year t) (month t) (day t) h m 0 0).
  set (days_ahead := (wd - dt_weekday t) mod 7).
  assert (Ha : 0 <= days_ahead < 7) by (apply Z.mod_pos_bound; lia).
  assert (Hc : dt_ok c = true).
  { apply dt_ok_spec in Ht. apply dt_ok_spec. subst c. cbn.
    unfold dt_date in Ht. intuition lia. }
  destruct (before_last_year t Ht Hy) as [B M].
  pose proof (same_day_timestamp c t eq_refl) as Sd.
  pose proof (day_start t Ht). pose proof (day_start c Hc).
  pose proof (timestamp_bounds c Hc).
  destruct (dt_add_total c (mk_timedelta 0 days_ahead 0 0) Hc) as [n En].
  { rewrite td_us_mk_timedelta.
    unfold representable, Cal.MAXORDINAL, US_PER_DAY, US_PER_SECOND in *. lia. }
  rewrite En. cbn [mbind res_bind].
  destruct (dt_add_spec c n _ Hc En) as [Hn Tn].
  rewrite td_us_mk_timedelta in Tn.
  destruct (dt_le n t) eqn:Ele; [| eauto].
  apply dt_le_timestamp in Ele; [| assumption ..].
  pose proof (timestamp_bounds n Hn).
  apply dt_add_total; [assumption |].
  rewrite td_us_mk_timedelta.
  unfold representable, Cal.MAXORDINAL, US_PER_DAY, US_PER_SECOND in *. lia.
Qed.

(** With parameters in range and a reference time before year 9999 the
    [try] body returns, whatever the recursive call would do. *)
Lemma next_run_try_valid (recur : datetime -> logged datetime)
    (self : BackupTask) (t : datetime) :
  dt_ok t = true -> valid_recurrence (frequency self) (time_params self) ->
  year t < 9999 ->
  exists r, next_run_try recur self t = (Ok r, []).
Proof.
  intros Ht Hv Hy. unfold next_run_try.
  remember (frequency self) as f eqn:Ef. remember (time_params self) as tp eqn:Ep.
  clear Ef Ep.
  destruct Hv as [m Hm | tp h m Hp Hh Hm | tp wd h m Hp Hw Hh Hm | tp d h m Hp Hd Hh Hm];
    cbn [eq_str];
    rewrite ?(proj2 (String.eqb_neq _ _)) by discriminate;
    rewrite (proj2 (String.eqb_eq _ _) eq_refl).
  - destruct (before_last_year t Ht Hy) as [B M].
    destruct (hourly_next_spec t m Ht Hm) as (r & E & _).
    { unfold representable, HOUR_US, Cal.MAXORDINAL, US_PER_DAY, US_PER_SECOND in *. lia. }
    rewrite E. eauto.
  - destruct (daily_next_total tp t h m Ht Hp Hh Hm Hy) as [r E].
    rewrite E. eauto.
  - destruct (weekly_next_total tp t wd h m Ht Hp Hh Hm Hy) as [r E].
    rewrite E. eauto.
  - assert (Ty : target_year t <= 9999).
    { unfold target_year. destruct (month t =? 12); lia. }
    destruct (monthly_candidate_spec _ t d h m Ht Hp Hd Hh Hm Ty) as [E Hr].
    rewrite E. rewrite next_month_later by (try assumption; reflexivity). eauto.
Qed.

Lemma recognised_valid (f tp : pyval) :
  valid_recurrence f tp -> recognised f = true.
Proof. intros H. inversion H; reflexivity. Qed.

(** C5.  For every reference time [t] up to 9999-12-31T23:54:59.999999
    (so that [t] + 5 minutes is a datetime) and every recurrence of the
    four kinds with parameters in range, the next-run computation returns
    a datetime strictly after [t]; before year 9999 it does so without
    entering its error handler, so nothing is logged. *)
Theorem next_run_strictly_after
    (depth : nat) (self : BackupTask) (t : datetime) :
  dt_ok t = true ->
  valid_recurrence (frequency self) (time_params self) ->
  dt_le t (DateTime 9999 12 31 23 54 59 999999) = true ->
  exists r l,
    calculate_next_run_at (S depth) self t = (Ok r, l) /\
    dt_ok r = true /\ dt_lt t r = true /\
    (year t < 9999 -> l = []).
Proof.
  intros Ht Hv Hb.
  apply dt_le_timestamp in Hb; [| assumption | reflexivity].
  assert (Hrep : representable (timestamp t + 5 * MINUTE_US)).
  { pose proof (timestamp_bounds t Ht) as B.
    change (timestamp (DateTime 9999 12 31 23 54 59 999999))
      with ((Cal.MAXORDINAL + 1) * US_PER_DAY - 5 * MINUTE_US - 1) in Hb.
    unfold representable, MINUTE_US, US_PER_DAY, US_PER_SECOND in *. lia. }
  destruct (calculate_next_run_total depth self t Ht Hrep) as (r & l & E).
  exists r, l.
  destruct (calculate_next_run_after (S depth) self t Ht
              (recognised_valid _ _ Hv) r l E) as [Hr Tr].
  repeat split; try assumption.
  - apply dt_lt_timestamp; assumption.
  - intros Hy. cbn [calculate_next_run_at] in E.
    destruct (next_run_try_valid (calculate_next_run_at depth self) self t Ht Hv Hy)
      as [r' E'].
    rewrite E' in E. cbn [next_run_except] in E. congruence.
Qed.

(** ** Unrecognised frequencies and the claim of a due task *)

Lemma next_run_try_unrecognised (recur : datetime -> logged datetime)
    (self : BackupTask) (now : datetime) :
  recognised (frequency self) = false ->
  next_run_try recur self now = (Ok now, []).
Proof.
  unfold recognised, next_run_try. intros H.
  apply orb_false_elim in H. destruct H as [H Hm].
  apply orb_false_elim in H. destruct H as [H Hw].
  apply orb_false_elim in H. destruct H as [Hh Hd].
  rewrite Hh, Hd, Hw, Hm. reflexivity.
Qed.

(** C9.  For a task whose frequency is none of "hourly", "daily",
    "weekly" and "monthly", [calculate_next_run] returns the reference time
    itself (the clock reading when no time is passed), and nothing is
    logged; the claim of the scheduler therefore sets [next_run] to the
    clock reading of the claim, and the task is due at every tick whose
    [now] is not earlier than that reading. *)
Theorem unrecognised_frequency_always_due
    (depth : nat) (task : BackupTask) :
  recognised (frequency task) = false ->
  (forall now clock : datetime,
     calculate_next_run (S depth) task (Some now) clock = (Ok now, []) /\
     calculate_next_run (S depth) task None clock = (Ok clock, [])) /\
  (forall now clock : datetime,
     claim (S depth) task now clock =
       (set_next_run (set_last_run task (Some now)) clock, Ok (), []) /\
     forall tick : datetime,
       dt_le clock tick = true ->
       due (set_next_run (set_last_run task (Some now)) clock) tick = true).
Proof.
  intros H. split.
  - intros now clock. unfold calculate_next_run. cbn [default calculate_next_run_at].
    rewrite !next_run_try_unrecognised by assumption. split; reflexivity.
  - intros now clock. split.
    + unfold claim, calculate_next_run. cbn [default calculate_next_run_at].
      rewrite next_run_try_unrecognised by assumption. reflexivity.
    + intros tick Hle. unfold due. cbn. exact Hle.
Qed.

(** the claim of a recognised task moves [next_run] past the clock *)
Lemma claim_advances
    (depth : nat) (task : BackupTask) (now clock : datetime) :
  dt_ok now = true -> dt_ok clock = true ->
  recognised (frequency task) = true ->
  dt_le now clock = true ->
  dt_le clock LAST_SAFE = true ->
  exists (task' : BackupTask) (l : list log_entry),
    claim (S depth) task now clock = (task', Ok (), l) /\
    last_run task' = Some now /\
    dt_lt clock (next_run task') = true /\
    due task' now = false.
Proof.
  intros Hn Hc Hf Hle Hb.
  apply dt_le_timestamp in Hb; [| assumption | reflexivity].
  apply dt_le_timestamp in Hle; [| assumption ..].
  assert (Hrep : representable (timestamp clock + 5 * MINUTE_US)).
  { pose proof (timestamp_bounds clock Hc) as B.
    change (timestamp LAST_SAFE)
      with ((Cal.MAXORDINAL + 1) * US_PER_DAY - 5 * MINUTE_US - 1) in Hb.
    unfold representable, MINUTE_US, US_PER_DAY, US_PER_SECOND in *. lia. }
  set (task1 := set_last_run task (Some now)).
  destruct (calculate_next_run_total depth task1 clock Hc Hrep) as (r & l & E).
  destruct (calculate_next_run_after (S depth) task1 clock Hc Hf r l E) as [Hr Tr].
  exists (set_next_run task1 r), l.
  unfold claim, calculate_next_run. cbn [default]. fold task1. rewrite E.
  repeat split.
  - apply dt_lt_timestamp; assumption.
  - unfold due. cbn [next_run set_next_run].
    apply dt_le_false_timestamp; [assumption .. | lia].
Qed.

(** C3.  A due task of one of the four recognised kinds is not due any
    more once it is claimed: when the clock reading [clock] of the claim
    is not earlier than the [now] of the tick and at most
    9999-12-31T23:54:59.999999, the claim sets [last_run] to [now] and
    [next_run] to a time strictly after [clock], so that the due test with
    the same [now] fails. *)
Theorem claim_makes_not_due
    (depth : nat) (task : BackupTask) (now clock : datetime) :
  dt_ok now = true -> dt_ok clock = true ->
  recognised (frequency task) = true ->
  due task now = true ->
  dt_le now clock = true ->
  dt_le clock (DateTime 9999 12 31 23 54 59 999999) = true ->
  exists (task' : BackupTask) (l : list log_entry),
    claim (S depth) task now clock = (task', Ok (), l) /\
    last_run task' = Some now /\
    dt_lt clock (next_run task') = true /\
    due task' now = false.
Proof.
  intros Hn Hc Hf _ Hle Hb.
  apply dt_le_timestamp in Hb; [| assumption | reflexivity].
  apply dt_le_timestamp in Hle; [| assumption ..].
  pose proof (timestamp_bounds clock Hc) as B.
  change (timestamp (DateTime 9999 12 31 23 54 59 999999))
    with ((Cal.MAXORDINAL + 1) * US_PER_DAY - 5 * MINUTE_US - 1) in Hb.
  assert (Hrep : representable (timestamp clock + 5 * MINUTE_US))
    by (unfold representable, MINUTE_US, US_PER_DAY, US_PER_SECOND in *; lia).
  unfold claim, calculate_next_run. cbn [default].
  destruct (calculate_next_run_total depth (set_last_run task (Some now)) clock Hc Hrep)
    as (r & l & E).
  destruct (calculate_next_run_after (S depth) (set_last_run task (Some now)) clock
              Hc Hf r l E) as [Hr Tr].
  rewrite E. exists (set_next_run (set_last_run task (Some now)) r), l.
  split; [reflexivity |]. split; [reflexivity |]. split.
  - apply dt_lt_timestamp; assumption.
  - unfold due. cbn [next_run set_next_run].
    apply dt_le_false_timestamp; [assumption .. | lia].
Qed.

(** A pass over a registry in which nothing is due changes nothing and
    reads no clock. *)
Lemma claim_due_nothing_due (depth : nat) (clk : nat -> datetime) (now : datetime)
    (ts : list BackupTask) (k : nat) :
  Forall (fun t => due t now = false) ts ->
  claim_due depth clk now ts k = (ts, Ok [], [], k).
Proof.
  induction 1 as [| t ts Ht _ IH]; cbn; [reflexivity |].
  rewrite Ht, IH. reflexivity.
Qed.

(** After the pass of one tick over a registry of recognised tasks no
    task is due at the [now] of that tick: a second pass with the same
    [now] dispatches nothing. *)
Lemma claim_due_second_pass (depth : nat) (clk : nat -> datetime) (now : datetime)
    (ts : list BackupTask) (k : nat) :
  dt_ok now = true ->
  (forall i, dt_ok (clk i) = true /\ dt_le now (clk i) = true /\
             dt_le (clk i) LAST_SAFE = true) ->
  Forall (fun t => recognised (frequency t) = true) ts ->
  exists ts' to_run l k',
    claim_due (S depth) clk now ts k = (ts', Ok to_run, l, k') /\
    Forall (fun t => due t now = false) ts' /\
    forall k2, claim_due (S depth) clk now ts' k2 = (ts', Ok [], [], k2).
Proof.
  intros Hnow Hclk Hrec.
  assert (G : exists ts' to_run l k',
    claim_due (S depth) clk now ts k = (ts', Ok to_run, l, k') /\
    Forall (fun t => due t now = false) ts').
  { revert k. induction Hrec as [| t ts Ht _ IH]; intros k.
    - exists [], [], [], k. split; [reflexivity | constructor].
    - cbn [claim_due]. destruct (due t now) eqn:D.
      + destruct (Hclk k) as (Ck & Lk & Sk).
        destruct (claim_advances depth t now (clk k) Hnow Ck Ht Lk Sk)
          as (t' & l & E & _ & _ & D').
        rewrite E.
        destruct (IH (S k)) as (ts' & to_run & l' & k' & E' & F').
        rewrite E'. exists (t' :: ts'), (t' :: to_run), (l ++ l'), k'.
        split; [reflexivity | constructor; assumption].
      + destruct (IH k) as (ts' & to_run & l' & k' & E' & F').
        rewrite E'. exists (t :: ts'), to_run, l', k'.
        split; [reflexivity | constructor; assumption]. }
  destruct G as (ts' & to_run & l & k' & E & F).
  exists ts', to_run, l, k'. split; [exact E |]. split; [exact F |].
  intros k2. apply claim_due_nothing_due. exact F.
Qed.

(** ** [isoformat] and [fromisoformat] *)

Lemma digit_val_char (d : Z) : 0 <= d <= 9 -> digit_val (digit_char d) = Some d.
Proof.
  intros H.
  assert (C : d = 0 \/ d = 1 \/ d = 2 \/ d = 3 \/ d = 4 \/ d = 5 \/ d = 6 \/ d = 7
              \/ d = 8 \/ d = 9) by lia.
  repeat (destruct C as [-> | C]; [reflexivity |]). subst. reflexivity.
Qed.

Lemma number_digits2 (n : Z) : 0 <= n <= 99 -> number 0 (digits2 n) = Some n.
Proof.
  intros H. unfold digits2. cbn [number].
  rewrite !digit_val_char by (Z.to_euclidean_division_equations; lia).
  cbn [mbind option_bind]. f_equal. Z.to_euclidean_division_equations. lia.
Qed.

Lemma number_digits4 (n : Z) : 0 <= n <= 9999 -> number 0 (digits4 n) = Some n.
Proof.
  intros H. unfold digits4. cbn [number].
  rewrite !digit_val_char by (Z.to_euclidean_division_equations; lia).
  cbn [mbind option_bind]. f_equal. Z.to_euclidean_division_equations. lia.
Qed.

Lemma number_digits6 (n : Z) : 0 <= n <= 999999 -> number 0 (digits6 n) = Some n.
Proof.
  intros H. unfold digits6. cbn [number].
  rewrite !digit_val_char by (Z.to_euclidean_division_equations; lia).
  cbn [mbind option_bind]. f_equal. Z.to_euclidean_division_equations. lia.
Qed.

(** Reading back what [isoformat] wrote gives the same datetime. *)
Lemma fromisoformat_isoformat (t : datetime) :
  dt_ok t = true -> fromisoformat (isoformat t) = Ok t.
Proof.
  intros Ht. pose proof Ht as Hf. apply dt_ok_spec in Hf.
  destruct Hf as (Hd & Hh & Hmi & Hs & Hus).
  unfold date_valid in Hd. cbn in Hd. apply date_ok_spec in Hd.
  destruct Hd as (Hy & Hmo & Hday).
  pose proof (days_in_month_bounds (year t) (month t)) as Hdim.
  unfold fromisoformat, isoformat.
  rewrite list_ascii_of_string_of_list_ascii.
  pose proof (number_digits4 (year t) ltac:(lia)) as N1.
  pose proof (number_digits2 (month t) ltac:(lia)) as N2.
  pose proof (number_digits2 (day t) ltac:(lia)) as N3.
  pose proof (number_digits2 (hour t) ltac:(lia)) as N4.
  pose proof (number_digits2 (minute t) ltac:(lia)) as N5.
  pose proof (number_digits2 (second t) ltac:(lia)) as N6.
  pose proof (number_digits6 (microsecond t) ltac:(lia)) as N7.
  unfold digits4, digits2 in *. cbn [app].
  rewrite N1, N2, N3, N4, N5, N6.
  destruct (Z.eqb_spec (microsecond t) 0) as [E | E].
  - rewrite <- E. destruct t; cbn in *. apply datetime_new_ok. exact Ht.
  - unfold digits6 in *. cbn [length Nat.eqb].
    rewrite N7. destruct t; cbn in *. apply datetime_new_ok. exact Ht.
Qed.

(** ** Round trip through [tasks.json] *)

Lemma json_reload_native : forall v : pyval, json_native v = true -> json_reload v = v.
Proof.
  fix IH 1. intros [| b | z | s | l | l]; cbn; intros H;
    try reflexivity; try discriminate.
  f_equal. induction l as [| x l IHl]; cbn in *; [reflexivity |].
  apply andb_true_iff in H. destruct H as [H1 H2].
  rewrite (IH x H1), (IHl H2). reflexivity.
Qed.

Lemma json_reload_is_native : forall v : pyval, json_native (json_reload v) = true.
Proof.
  fix IH 1. intros [| b | z | s | l | l]; cbn; try reflexivity;
    induction l as [| x l IHl]; cbn; try reflexivity;
    rewrite (IH x), IHl; reflexivity.
Qed.

Lemma as_int_reload (v : pyval) : as_int (json_reload v) = as_int v.
Proof. destruct v; reflexivity. Qed.

Lemma as_c_int_reload (v : pyval) : as_c_int (json_reload v) = as_c_int v.
Proof. unfold as_c_int. rewrite as_int_reload. reflexivity. Qed.

Lemma unpack2_reload (v : pyval) :
  unpack2 (json_reload v) =
  (p ← unpack2 v; Ok (json_reload (fst p), json_reload (snd p))).
Proof.
  destruct v as [| | | s | l | l]; try reflexivity;
    [cbn; destruct (str_chars s) as [| a [| b [| c l]]]; reflexivity | ..];
    destruct l as [| a [| b [| c l]]]; reflexivity.
Qed.

Lemma unpack3_reload (v : pyval) :
  unpack3 (json_reload v) =
  (p ← unpack3 v;
   Ok (json_reload (fst (fst p)), json_reload (snd (fst p)), json_reload (snd p))).
Proof.
  destruct v as [| | | s | l | l]; try reflexivity;
    [cbn; destruct (str_chars s) as [| a [| b [| c [| d l]]]]; reflexivity | ..];
    destruct l as [| a [| b [| c [| d l]]]]; reflexivity.
Qed.

Lemma replace_reload (t : datetime) (h mi : option pyval) (s us : option pyval) :
  replace t (json_reload <$> h) (json_reload <$> mi) s us = replace t h mi s us.
Proof.
  unfold replace.
  assert (A : forall d o, arg_or d (json_reload <$> o) = arg_or d o).
  { intros d [v |]; cbn; [apply as_c_int_reload | reflexivity]. }
  rewrite !A. reflexivity.
Qed.

Lemma hourly_next_reload (tp : pyval) (t : datetime) :
  hourly_next (json_reload tp) t = hourly_next tp t.
Proof.
  unfold hourly_next.
  rewrite <- (replace_reload t None (Some tp)). reflexivity.
Qed.

Lemma daily_next_reload (tp : pyval) (t : datetime) :
  daily_next (json_reload tp) t = daily_next tp t.
Proof.
  unfold daily_next. rewrite unpack2_reload.
  destruct (unpack2 tp) as [[h mi] |]; [| reflexivity].
  cbn [mbind res_bind fst snd].
  rewrite <- (replace_reload t (Some h) (Some mi)). reflexivity.
Qed.

Lemma weekly_next_reload (tp : pyval) (t : datetime) :
  weekly_next (json_reload tp) t = weekly_next tp t.
Proof.
  unfold weekly_next. rewrite unpack3_reload.
  destruct (unpack3 tp) as [[[wd h] mi] |]; [| reflexivity].
  cbn [mbind res_bind fst snd]. rewrite as_int_reload.
  rewrite <- (replace_reload t (Some h) (Some mi)). reflexivity.
Qed.

Lemma datetime_of_reload (y mo d h mi : pyval) :
  datetime_of y mo (json_reload d) (json_reload h) (json_reload mi) =
  datetime_of y mo d h mi.
Proof. unfold datetime_of. rewrite !as_c_int_reload. reflexivity. Qed.

Lemma monthly_candidate_reload (tp : pyval) (t : datetime) :
  monthly_candidate (json_reload tp) t = monthly_candidate tp t.
Proof.
  unfold monthly_candidate. rewrite unpack3_reload.
  destruct (unpack3 tp) as [[[d h] mi] |]; [| reflexivity].
  cbn [mbind res_bind fst snd].
  destruct (if 12 <? month t + 1 then (1, year t + 1) else (month t + 1, year t))
    as [nm ny].
  rewrite datetime_of_reload.
  change (PInt (Cal.days_in_month ny nm))
    with (json_reload (PInt (Cal.days_in_month ny nm))) at 1.
  rewrite datetime_of_reload. reflexivity.
Qed.

(** [calculate_next_run] does not tell a tuple of parameters from the
    list it becomes in [tasks.json]. *)
Lemma calculate_next_run_reload (depth : nat) (self self' : BackupTask) (t : datetime) :
  frequency self' = frequency self ->
  time_params self' = json_reload (time_params self) ->
  calculate_next_run_at depth self' t = calculate_next_run_at depth self t.
Proof.
  intros Hf Hp. revert t. induction depth as [| depth IH]; intros t; [reflexivity |].
  cbn [calculate_next_run_at]. f_equal.
  unfold next_run_try. rewrite Hf, Hp.
  rewrite hourly_next_reload, daily_next_reload, weekly_next_reload,
    monthly_candidate_reload.
  repeat match goal with |- context [if ?b then _ else _] => destruct b; try reflexivity end.
  destruct (monthly_candidate (time_params self) t); [| reflexivity].
  destruct (dt_lt t a); [reflexivity |].
  destruct (dt_add t (mk_timedelta 0 1 0 0)); [apply IH | reflexivity].
Qed.

Lemma getitem_reload_to_dict (task : BackupTask) (key : string) (v : pyval) :
  to_dict task !! key = Some v ->
  getitem (json_reload <$> to_dict task) key = Ok (json_reload v).
Proof. intros H. unfold getitem. rewrite lookup_fmap, H. reflexivity. Qed.

Lemma BackupTask_init_total (depth : nat) (n s d c f tp : pyval) (clock : datetime) :
  dt_ok clock = true -> dt_le clock LAST_SAFE = true ->
  exists r l,
    calculate_next_run_at (S depth)
      (mkBackupTask n s d c f tp None clock) clock = (Ok r, l) /\
    BackupTask_init (S depth) n s d c f tp clock =
      (Ok (mkBackupTask n s d c f tp None r), l).
Proof.
  intros Hc Hb.
  apply dt_le_timestamp in Hb; [| assumption | reflexivity].
  assert (Hrep : representable (timestamp clock + 5 * MINUTE_US)).
  { pose proof (timestamp_bounds clock Hc) as B.
    change (timestamp LAST_SAFE)
      with ((Cal.MAXORDINAL + 1) * US_PER_DAY - 5 * MINUTE_US - 1) in Hb.
    unfold representable, MINUTE_US, US_PER_DAY, US_PER_SECOND in *. lia. }
  destruct (calculate_next_run_total depth (mkBackupTask n s d c f tp None clock)
              clock Hc Hrep) as (r & l & E).
  exists r, l. split; [exact E |].
  unfold BackupTask_init, calculate_next_run. cbn [default]. rewrite E. reflexivity.
Qed.

(** C7.  A task whose name, source, destination, compression and
    frequency hold JSON values is reproduced by [to_dict], [json.dump],
    [json.load] and the loop body of [load_tasks]: these five fields and
    [last_run] are identical, the recurrence parameters are the same
    values in the same order (a tuple is read back as a list, which
    [calculate_next_run] treats alike), and [next_run] is what
    [calculate_next_run] returns at the clock reading of the reload,
    whatever the [next_run] of the saved task was. *)
Theorem reload_reproduces_task
    (depth : nat) (task : BackupTask) (clock1 clock2 : datetime) :
  dt_ok clock1 = true -> dt_ok clock2 = true ->
  dt_le clock1 LAST_SAFE = true -> dt_le clock2 LAST_SAFE = true ->
  json_native (name task) = true -> json_native (source task) = true ->
  json_native (destination task) = true -> json_native (compression task) = true ->
  json_native (frequency task) = true ->
  (forall t, last_run task = Some t -> dt_ok t = true) ->
  exists (task' : BackupTask) (l : list log_entry),
    load_task (S depth) (json_reload <$> to_dict task) clock1 clock2 = (Ok task', l) /\
    name task' = name task /\ source task' = source task /\
    destination task' = destination task /\ compression task' = compression task /\
    frequency task' = frequency task /\
    time_params task' = json_reload (time_params task) /\
    last_run task' = last_run task /\
    (forall d t, calculate_next_run_at d task' t = calculate_next_run_at d task t) /\
    (forall stored : datetime,
       fst (calculate_next_run (S depth) (set_next_run task stored) None clock2)
       = Ok (next_run task')).
Proof.
  intros Hc1 Hc2 Hb1 Hb2 Nn Ns Nd Nc Nf Hlr.
  unfold load_task, item_fields.
  rewrite (getitem_reload_to_dict task "name" (name task)) by reflexivity.
  rewrite (getitem_reload_to_dict task "source" (source task)) by reflexivity.
  rewrite (getitem_reload_to_dict task "destination" (destination task)) by reflexivity.
  rewrite (getitem_reload_to_dict task "compression" (compression task)) by reflexivity.
  rewrite (getitem_reload_to_dict task "frequency" (frequency task)) by reflexivity.
  rewrite (getitem_reload_to_dict task "time_params" (time_params task)) by reflexivity.
  cbn [mbind res_bind].
  rewrite !json_reload_native by assumption.
  destruct (BackupTask_init_total depth (name task) (source task) (destination task)
              (compression task) (frequency task) (json_reload (time_params task))
              clock1 Hc1 Hb1) as (r1 & l1 & _ & E1).
  rewrite E1.
  assert (Elr : item_last_run (json_reload <$> to_dict task) = Ok (last_run task)).
  { unfold item_last_run.
    rewrite (getitem_reload_to_dict task "last_run"
               (match last_run task with
                | Some t => PStr (isoformat t)
                | None => PNone
                end)) by reflexivity.
    cbn [mbind res_bind].
    destruct (last_run task) as [t |] eqn:El; [| reflexivity].
    cbn [json_reload truthy].
    assert (Hne : String.eqb (isoformat t) EmptyString = false).
    { apply String.eqb_neq. unfold isoformat, digits4. cbn. discriminate. }
    rewrite Hne. cbn [negb].
    rewrite fromisoformat_isoformat by (apply Hlr; reflexivity). reflexivity. }
  rewrite Elr.
  set (task1 := set_last_run _ (last_run task)).
  apply dt_le_timestamp in Hb2; [| assumption | reflexivity].
  assert (Hrep : representable (timestamp clock2 + 5 * MINUTE_US)).
  { pose proof (timestamp_bounds clock2 Hc2) as B.
    change (timestamp LAST_SAFE)
      with ((Cal.MAXORDINAL + 1) * US_PER_DAY - 5 * MINUTE_US - 1) in Hb2.
    unfold representable, MINUTE_US, US_PER_DAY, US_PER_SECOND in *. lia. }
  destruct (calculate_next_run_total depth task1 clock2 Hc2 Hrep) as (r2 & l2 & E2).
  unfold calculate_next_run at 1. cbn [default]. rewrite E2.
  exists (set_next_run task1 r2), (l1 ++ l2).
  repeat split.
  - intros d t. apply calculate_next_run_reload; reflexivity.
  - intros stored. unfold calculate_next_run. cbn [default].
    rewrite <- (calculate_next_run_reload (S depth) (set_next_run task stored) task1)
      by reflexivity.
    rewrite E2. reflexivity.
Qed.

(** ** Editing a task *)

(** [calculate_next_run] reads the frequency and the parameters of the
    task, nothing else. *)
Lemma calculate_next_run_ext (depth : nat) (a b : BackupTask) (t : datetime) :
  frequency a = frequency b -> time_params a = time_params b ->
  calculate_next_run_at depth a t = calculate_next_run_at depth b t.
Proof.
  intros Hf Hp. revert t. induction depth as [| depth IH]; intros t; [reflexivity |].
  cbn [calculate_next_run_at]. f_equal. unfold next_run_try. rewrite Hf, Hp.
  repeat match goal with |- context [if ?b then _ else _] => destruct b; try reflexivity end.
  destruct (monthly_candidate (time_params b) t); [| reflexivity].
  destruct (dt_lt t a0); [reflexivity |].
  destruct (dt_add t (mk_timedelta 0 1 0 0)); [apply IH | reflexivity].
Qed.

(** a form that passes the checks of [on_ok] yields a fresh task *)
Lemma on_ok_accepts (depth : nat) (d : TaskDialog) (tp : pyval) (clock : datetime) :
  nonempty (name_entry d) = true -> nonempty (source_entry d) = true ->
  nonempty (dest_entry d) = true ->
  dialog_time_params d = Ok tp ->
  dt_ok clock = true -> dt_le clock LAST_SAFE = true ->
  exists r l,
    calculate_next_run_at (S depth)
      (mkBackupTask (PStr (name_entry d)) (PStr (source_entry d)) (PStr (dest_entry d))
         (PBool (compression_var d)) (PStr (frequency_var d)) tp None clock) clock
      = (Ok r, l) /\
    on_ok (S depth) d clock =
      (Some (mkBackupTask (PStr (name_entry d)) (PStr (source_entry d))
               (PStr (dest_entry d)) (PBool (compression_var d))
               (PStr (frequency_var d)) tp None r), l).
Proof.
  intros Hn Hs Hd Hp Hc Hb. unfold on_ok. rewrite Hn, Hs, Hd, Hp. cbn [andb negb].
  destruct (BackupTask_init_total depth (PStr (name_entry d)) (PStr (source_entry d))
              (PStr (dest_entry d)) (PBool (compression_var d))
              (PStr (frequency_var d)) tp clock Hc Hb) as (r & l & E & Ei).
  exists r, l. split; [exact E |]. rewrite Ei. reflexivity.
Qed.

(** C10.  When a row is selected and the form passes the checks of
    [on_ok], [edit_task] puts the task that [on_ok] constructs in the place
    of the selected one.  The new task has [last_run = None], whatever the
    [last_run] of the task it replaces, and its [next_run] is what
    [calculate_next_run] returns at the time of the construction. *)
Theorem edit_resets_last_run
    (depth : nat) (app : BackupApp) (index : nat) (old : BackupTask)
    (d : TaskDialog) (tp : pyval) (clock : datetime) :
  tasks app !! index = Some old ->
  nonempty (name_entry d) = true -> nonempty (source_entry d) = true ->
  nonempty (dest_entry d) = true ->
  dialog_time_params d = Ok tp ->
  dt_ok clock = true -> dt_le clock LAST_SAFE = true ->
  exists (result : BackupTask) (l : list log_entry) (app' : BackupApp),
    on_ok (S depth) d clock = (Some result, l) /\
    edit_task (S depth) app (Some index) (Some d) clock = Ok app' /\
    tasks app' = <[index := result]> (tasks app) /\
    tasks app' !! index = Some result /\
    last_run result = None /\
    fst (calculate_next_run (S depth) result None clock) = Ok (next_run result).
Proof.
  intros Hi Hn Hs Hd Hp Hc Hb.
  destruct (on_ok_accepts depth d tp clock Hn Hs Hd Hp Hc Hb) as (r & l & E & Eok).
  eexists _, l, _. split; [exact Eok |].
  unfold edit_task. rewrite Hi, Eok. split; [reflexivity |].
  cbn [tasks add_log set_tasks]. split; [reflexivity |].
  split; [apply list_lookup_insert_eq; eapply lookup_lt_Some; eassumption |].
  split; [reflexivity |].
  unfold calculate_next_run. cbn [default].
  erewrite calculate_next_run_ext; [rewrite E; reflexivity | reflexivity ..].
Qed.

(** ** The status line *)

Lemma td_of_us_seconds (x : Z) : 0 <= td_seconds (td_of_us x) < 86400.
Proof.
  unfold td_of_us, US_PER_DAY, US_PER_SECOND. cbn.
  Z.to_euclidean_division_equations. lia.
Qed.

(** the hours of the countdown never reach 24: whole days are dropped *)
Lemma countdown_bounds (a b : datetime) :
  0 <= fst (countdown (dt_sub a b)) <= 23 /\
  0 <= snd (countdown (dt_sub a b)) <= 59.
Proof.
  unfold countdown, dt_sub. cbn [fst snd].
  pose proof (td_of_us_seconds (timestamp a - timestamp b)) as B.
  set (s := td_seconds _) in *. clearbody s.
  Z.to_euclidean_division_equations. lia.
Qed.

Lemma nearest_in (l : list datetime) (m : datetime) :
  nearest l = Some m -> In m l.
Proof.
  destruct l as [| t rest]; [discriminate |]. cbn [nearest]. intros H.
  inversion H as [E]. clear H E.
  revert t. induction rest as [| x rest IH]; intros t; cbn.
  - left. reflexivity.
  - destruct (IH (if dt_lt x t then x else t)) as [E | I].
    + destruct (dt_lt x t); rewrite <- E; auto.
    + right. right. exact I.
Qed.

Lemma nearest_least (l : list datetime) (m : datetime) :
  Forall (fun t => dt_ok t = true) l -> nearest l = Some m ->
  Forall (fun t => timestamp m <= timestamp t) l.
Proof.
  destruct l as [| t rest]; [discriminate |]. cbn [nearest]. intros Hok H.
  inversion H as [E]. clear H E.
  inversion Hok as [| ? ? Ht Hrest]; subst. clear Hok.
  assert (G : forall t, dt_ok t = true ->
    dt_ok (foldl (fun m x => if dt_lt x m then x else m) t rest) = true /\
    timestamp (foldl (fun m x => if dt_lt x m then x else m) t rest) <= timestamp t /\
    Forall (fun x => timestamp (foldl (fun m x => if dt_lt x m then x else m) t rest)
                     <= timestamp x) rest).
  { clear t Ht. induction rest as [| x rest IH]; intros t Ht; cbn.
    - repeat split; [assumption | lia | constructor].
    - inversion Hrest as [| ? ? Hx Hrest']; subst.
      destruct (dt_lt x t) eqn:L.
      + apply dt_lt_timestamp in L; [| assumption ..].
        destruct (IH Hrest' x Hx) as (O & T & F).
        repeat split; [assumption | lia | constructor; assumption].
      + apply dt_lt_false_timestamp in L; [| assumption ..].
        destruct (IH Hrest' t Ht) as (O & T & F).
        repeat split; [assumption | lia | constructor; [lia | assumption]]. }
  destruct (G t Ht) as (_ & T & F). constructor; assumption.
Qed.

(** When the nearest [next_run] is not after [now], the status line says
    "now" instead of a negative duration. *)
Lemma update_status_due_now (app : BackupApp) (now n : datetime) :
  dt_ok now = true -> dt_ok n = true ->
  nearest (map next_run (tasks app)) = Some n ->
  dt_le n now = true ->
  next_task_text (update_status app now) = "Следующая задача: сейчас".
Proof.
  intros Hnow Hn E Hle. unfold update_status. rewrite E.
  destruct (if 0 <? running_tasks app then _ else _) as [st col].
  cbn [next_task_text].
  apply dt_le_timestamp in Hle; [| assumption ..].
  unfold td_positive, dt_sub. rewrite td_us_of_us.
  destruct (Z.ltb_spec 0 (timestamp n - timestamp now)); [lia | reflexivity].
Qed.

(** When it is after [now], the line counts hours and minutes of what
    remains once the whole days are taken off. *)
Lemma update_status_countdown (app : BackupApp) (now n : datetime) :
  dt_ok now = true -> dt_ok n = true ->
  nearest (map next_run (tasks app)) = Some n ->
  dt_lt now n = true ->
  let s := ((timestamp n - timestamp now) mod US_PER_DAY) / US_PER_SECOND in
  next_task_text (update_status app now) =
  "Ближайшая задача через: " +:+ pretty (s / 3600) +:+ "ч "
    +:+ pretty (s mod 3600 / 60) +:+ "м".
Proof.
  intros Hnow Hn E Hlt s. unfold update_status. rewrite E.
  destruct (if 0 <? running_tasks app then _ else _) as [st col].
  cbn [next_task_text].
  apply dt_lt_timestamp in Hlt; [| assumption ..].
  unfold td_positive. unfold dt_sub at 1. rewrite td_us_of_us.
  destruct (Z.ltb_spec 0 (timestamp n - timestamp now)); [| lia].
  reflexivity.
Qed.

(** C4 on the code: with one task due on 2024-01-03 at 12:00 and [now] =
    2024-01-01 10:00, fifty hours remain and the status line shows
    "2ч 0м". *)
Theorem update_status_drops_days :
  let now := DateTime 2024 1 1 10 0 0 0 in
  nearest (map next_run (tasks weekly_app)) = Some (DateTime 2024 1 3 12 0 0 0) /\
  td_us (dt_sub (DateTime 2024 1 3 12 0 0 0) now) = 50 * HOUR_US /\
  next_task_text (update_status weekly_app now) = "Ближайшая задача через: 2ч 0м".
Proof. vm_compute. repeat split; reflexivity. Qed.

(** ** The executor *)

Lemma run_task_counter (app : BackupApp) (task : BackupTask) :
  running_tasks (run_task app task) = running_tasks app /\
  length (in_flight (run_task app task)) = S (length (in_flight app)).
Proof.
  unfold run_task. cbn. split; [reflexivity |].
  rewrite length_app. cbn. lia.
Qed.

Lemma backup_counter (app app' : BackupApp) (i : nat) (w : world) (art : artifact) :
  backup app i w = Some (app', art) ->
  running_tasks app' = running_tasks app - 1 /\
  length (in_flight app) = S (length (in_flight app')).
Proof.
  unfold backup. destruct (in_flight app !! i) as [task |] eqn:E; [| discriminate].
  destruct (backup_body task w) as [[a r] l]. intros H. inversion H; subst. cbn.
  split; [reflexivity |].
  rewrite length_delete by (rewrite E; eauto). 
  pose proof (lookup_lt_Some _ _ _ E). lia.
Qed.

(** What the counter holds after any history: it only ever goes down, by
    one for every backup that ended. *)
Lemma run_counter (evs : list event) (app app' : BackupApp) :
  run app evs = Some app' ->
  running_tasks app' = running_tasks app - finished evs /\
  Z.of_nat (length (in_flight app')) =
    Z.of_nat (length (in_flight app)) + started evs - finished evs.
Proof.
  revert app. induction evs as [| ev evs IH]; intros app H; cbn in H.
  - inversion H; subst. cbn. lia.
  - destruct (step app ev) as [app1 |] eqn:E; [| discriminate].
    cbn in H. destruct (IH app1 H) as [C F].
    destruct ev as [task | i w]; cbn in E.
    + inversion E; subst app1. destruct (run_task_counter app task) as [C1 F1].
      cbn [finished started]. lia.
    + destruct (backup app i w) as [[a art] |] eqn:Eb; [| discriminate].
      cbn in E. inversion E; subst a.
      destruct (backup_counter _ _ _ _ _ Eb) as [C1 F1].
      cbn [finished started]. lia.
Qed.

(** C1 on the code: [run_task] leaves [running_tasks] at 0 while its
    backup runs, and the end of that backup takes it to -1. *)
Theorem running_tasks_goes_negative (task : BackupTask) (w : world) :
  let app1 := run_task BackupApp_init task in
  running_tasks app1 = 0 /\ length (in_flight app1) = 1%nat /\
  exists (app2 : BackupApp) (art : artifact),
    backup app1 0 w = Some (app2, art) /\
    running_tasks app2 = -1 /\ in_flight app2 = [].
Proof.
  cbn zeta. split; [reflexivity |]. split; [reflexivity |].
  unfold backup, run_task, BackupApp_init. cbn.
  destruct (backup_body task w) as [[art r] l]. eauto.
Qed.

(** ** Archiving a folder *)

Lemma zip_all_readable (z : archive) (files : list (list string * option string)) :
  all_readable files = true ->
  zip_all z files = (z ++ readable_entries files, Ok ()).
Proof.
  revert z. induction files as [| [p c] files IH]; intros z H; cbn.
  - rewrite app_nil_r. reflexivity.
  - cbn in H. destruct c as [data |]; [| discriminate].
    cbn. rewrite IH by exact H. rewrite <- app_assoc. reflexivity.
Qed.

(** the loops of [run_task] end at the first unreadable file: the files
    listed after it are not archived *)
Lemma zip_all_stops (z : archive) (pre post : list (list string * option string))
    (p : list string) :
  all_readable pre = true ->
  zip_all z (pre ++ (p, None) :: post) = (z ++ readable_entries pre, Raise PermissionError).
Proof.
  revert z. induction pre as [| [q c] pre IH]; intros z H; cbn.
  - rewrite app_nil_r. reflexivity.
  - cbn in H. destruct c as [data |]; [| discriminate].
    cbn. rewrite IH by exact H. rewrite <- app_assoc. reflexivity.
Qed.

(** [add_to_zip], which [run_task] does not call, skips the unreadable
    files one by one and archives every readable file *)
Lemma add_all_entries (z : archive) (base : string)
    (files : list (list string * option string)) :
  fst (add_all z base files) =
  z ++ map (fun e => (arc_name base (fst e), snd e)) (readable_entries files).
Proof.
  revert z. induction files as [| [p c] files IH]; intros z; cbn.
  - rewrite app_nil_r. reflexivity.
  - destruct c as [data |]; cbn.
    + specialize (IH (z ++ [(arc_name base p, data)])).
      destruct (add_all (z ++ [(arc_name base p, data)]) base files) as [z' l'].
      cbn in *. rewrite IH, <- app_assoc. reflexivity.
    + specialize (IH z). destruct (add_all z base files) as [z' l'].
      cbn in *. exact IH.
Qed.

(** C2 on the code: for a source folder listing an unreadable file before
    two readable ones, the Compressed backup of [run_task] leaves an empty
    archive and logs one error for the whole task; [create_zip] on the same
    folder archives the two readable files and prints one line. *)
Theorem compressed_backup_aborts :
  let task := sample_task "daily" (PTuple [PInt 3; PInt 0]) in
  let w := World (Some three_files) true in
  backup_body task w =
    (ZipFile [], Raise PermissionError, [Info "1"; Info "2"; Info "3"; Info "4"]) /\
  (exists app' : BackupApp,
     backup (run_task BackupApp_init task) 0 w = Some (app', ZipFile []) /\
     filter (fun e => is_error e = true) (log app') = [Error "Ошибка" PermissionError]) /\
  create_zip "/home/user/docs" (Some three_files) =
    ([(["docs"; "b.txt"], "bbb"); (["docs"; "c.txt"], "ccc")],
     [Print "Пропущен заблокированный файл" ["a.txt"]]).
Proof.
  cbn zeta. split; [reflexivity |]. split; [| reflexivity].
  eexists. split; reflexivity.
Qed.

(** * Further properties of the code *)

(** ** The daily and weekly branches *)

(** adding whole days keeps the time of day and moves the date by as many
    days *)
Lemma dt_add_days (a r : datetime) (d : timedelta) :
  dt_ok a = true -> td_seconds d = 0 -> td_microseconds d = 0 ->
  dt_add a d = Ok r ->
  hour r = hour a /\ minute r = minute a /\ second r = second a /\
  microsecond r = microsecond a /\
  Cal.toordinal (dt_date r) = Cal.toordinal (dt_date a) + td_days d.
Proof.
  intros Ha Hs Hu H. unfold dt_add in H. rewrite Hs, Hu in H.
  pose proof (time_us_bounds a Ha) as B.
  replace (time_us a + 0 * US_PER_SECOND + 0) with (time_us a) in H by lia.
  rewrite (Z.div_small (time_us a)), (Z.mod_small (time_us a)) in H by lia.
  pose proof Ha as Hf. apply dt_ok_spec in Hf. destruct Hf as (Hd & Hh & Hm & Hsec & Hus).
  destruct (Cal.shift_days (dt_date a) (td_days d + 0)) as [[y m dd] |] eqn:E;
    [| discriminate].
  destruct (toordinal_shift_days _ _ _ Hd E) as [_ O].
  inversion H; subst r; clear H.
  assert (Eo : Cal.toordinal (Cal.Date y m dd) = Cal.toordinal (dt_date a) + td_days d)
    by lia.
  unfold dt_date at 1. cbn [hour minute second microsecond year month day].
  rewrite Eo. clear O Eo E Hd.
  unfold time_us, US_PER_SECOND in *.
  set (h := hour a) in *. set (mi := minute a) in *. set (s := second a) in *.
  set (u := microsecond a) in *. clearbody h mi s u.
  repeat split; Z.to_euclidean_division_equations; lia.
Qed.

Lemma daily_next_spec (tp : pyval) (t : datetime) (h m : Z) :
  dt_ok t = true -> as_seq tp = Some [PInt h; PInt m] ->
  0 <= h <= 23 -> 0 <= m <= 59 ->
  representable (timestamp t + DAY_US) ->
  exists r, daily_next tp t = Ok r /\ dt_ok r = true /\
    hour r = h /\ minute r = m /\ second r = 0 /\ microsecond r = 0 /\
    timestamp t < timestamp r <= timestamp t + DAY_US.
Proof.
  intros Ht Hp Hh Hm Hrep. unfold daily_next.
  rewrite (unpack2_seq _ _ _ Hp). cbn [mbind res_bind].
  rewrite (replace_hour_minute t h m Ht Hh Hm). cbn [mbind res_bind].
  set (c := DateTime (year t) (month t) (day t) h m 0 0).
  assert (Hc : dt_ok c = true).
  { apply dt_ok_spec in Ht. apply dt_ok_spec. subst c. cbn.
    unfold dt_date in Ht. intuition lia. }
  pose proof (same_day_timestamp c t eq_refl) as Sd.
  pose proof (day_start t Ht) as Dt. pose proof (day_start c Hc) as Dc.
  pose proof (timestamp_bounds c Hc) as Bc.
  unfold representable, DAY_US in *.
  destruct (dt_le c t) eqn:Ele.
  - apply dt_le_timestamp in Ele; [| assumption ..].
    destruct (dt_add_total c (mk_timedelta 0 1 0 0) Hc) as [r Er].
    { rewrite td_us_mk_timedelta. unfold Cal.MAXORDINAL, US_PER_DAY, US_PER_SECOND in *. lia. }
    exists r. split; [exact Er |].
    destruct (dt_add_spec c r _ Hc Er) as [Hr Tr].
    destruct (dt_add_days c r (mk_timedelta 0 1 0 0) Hc eq_refl eq_refl Er)
      as (H1 & H2 & H3 & H4 & _).
    rewrite td_us_mk_timedelta in Tr.
    unfold Cal.MAXORDINAL, US_PER_DAY, US_PER_SECOND in *.
    subst c; cbn in H1, H2, H3, H4.
    repeat split; try assumption; lia.
  - apply dt_le_false_timestamp in Ele; [| assumption ..].
    exists c. subst c; cbn. repeat split; try assumption; cbn in *; lia.
Qed.

(** X1.  For a daily task with hour [h] in [0, 23] and minute [m] in
    [0, 59] and every reference time [t] before 9999-12-31, the next run
    is computed without an error, is strictly after [t], is at
    [h]:[m]:00.000000 and is at most one day after [t]. *)
Theorem daily_next_run
    (depth : nat) (self : BackupTask) (t : datetime) (h m : Z) :
  dt_ok t = true ->
  frequency self = PStr "daily" ->
  as_seq (time_params self) = Some [PInt h; PInt m] ->
  0 <= h <= 23 -> 0 <= m <= 59 ->
  dt_lt t (DateTime 9999 12 31 0 0 0 0) = true ->
  exists r,
    calculate_next_run_at (S depth) self t = (Ok r, []) /\
    dt_ok r = true /\ dt_lt t r = true /\
    hour r = h /\ minute r = m /\ second r = 0 /\ microsecond r = 0 /\
    0 < td_us (dt_sub r t) <= DAY_US.
Proof.
  intros Ht Hf Hp Hh Hm Hb.
  apply dt_lt_timestamp in Hb; [| assumption | reflexivity].
  assert (Hrep : representable (timestamp t + DAY_US)).
  { pose proof (timestamp_bounds t Ht) as B.
    change (timestamp (DateTime 9999 12 31 0 0 0 0))
      with ((Cal.MAXORDINAL + 1) * US_PER_DAY - DAY_US) in Hb.
    unfold representable, DAY_US, US_PER_DAY, US_PER_SECOND in *. lia. }
  destruct (daily_next_spec _ t h m Ht Hp Hh Hm Hrep) as (r & E & Hr & H1 & H2 & H3 & H4 & T).
  exists r. cbn [calculate_next_run_at]. unfold next_run_try.
  rewrite Hf. cbn [eq_str].
  rewrite !(proj2 (String.eqb_neq _ _)) by discriminate.
  rewrite (proj2 (String.eqb_eq _ _) eq_refl). rewrite E. cbn [next_run_except].
  repeat split; try assumption.
  - apply dt_lt_timestamp; [assumption .. | lia].
  - unfold dt_sub. rewrite td_us_of_us. lia.
  - unfold dt_sub. rewrite td_us_of_us. lia.
Qed.

Lemma weekday_bounds (t : datetime) : 0 <= dt_weekday t < 7.
Proof. unfold dt_weekday, Cal.weekday. apply Z.mod_pos_bound. lia. Qed.

Lemma weekly_next_spec (tp : pyval) (t : datetime) (wd h m : Z) :
  dt_ok t = true -> as_seq tp = Some [PInt wd; PInt h; PInt m] ->
  0 <= wd <= 6 -> 0 <= h <= 23 -> 0 <= m <= 59 ->
  representable (timestamp t + 14 * DAY_US) ->
  exists r, weekly_next tp t = Ok r /\ dt_ok r = true /\
    dt_weekday r = wd /\
    hour r = h /\ minute r = m /\ second r = 0 /\ microsecond r = 0 /\
    timestamp t < timestamp r <= timestamp t + 7 * DAY_US.
Proof.
  intros Ht Hp Hw Hh Hm Hrep. unfold weekly_next.
  rewrite (unpack3_seq _ _ _ _ Hp). cbn [mbind res_bind as_int].
  rewrite (replace_hour_minute t h m Ht Hh Hm). cbn [mbind res_bind].
  set (c := DateTime (year t) (month t) (day t) h m 0 0).
  set (days_ahead := (wd - dt_weekday t) mod 7).
  assert (Ha : 0 <= days_ahead < 7) by (apply Z.mod_pos_bound; lia).
  assert (Hc : dt_ok c = true).
  { apply dt_ok_spec in Ht. apply dt_ok_spec. subst c. cbn.
    unfold dt_date in Ht. intuition lia. }
  pose proof (same_day_timestamp c t eq_refl) as Sd.
  pose proof (day_start t Ht) as Dt. pose proof (day_start c Hc) as Dc.
  pose proof (timestamp_bounds c Hc) as Bc.
  pose proof (weekday_bounds t) as Wt.
  assert (Wc : (Cal.toordinal (dt_date c) + 6 + days_ahead) mod 7 = wd).
  { change (dt_date c) with (dt_date t).
    subst days_ahead. unfold dt_weekday, Cal.weekday in *.
    set (o := Cal.toordinal (dt_date t)) in *. clearbody o.
    Z.to_euclidean_division_equations. lia. }
  unfold representable, DAY_US in *.
  destruct (dt_add_total c (mk_timedelta 0 days_ahead 0 0) Hc) as [n En].
  { rewrite td_us_mk_timedelta. unfold Cal.MAXORDINAL, US_PER_DAY, US_PER_SECOND in *. lia. }
  rewrite En. cbn [mbind res_bind].
  destruct (dt_add_spec c n _ Hc En) as [Hn Tn].
  rewrite td_us_mk_timedelta in Tn.
  assert (Sn : td_seconds (mk_timedelta 0 days_ahead 0 0) = 0
               /\ td_microseconds (mk_timedelta 0 days_ahead 0 0) = 0
               /\ td_days (mk_timedelta 0 days_ahead 0 0) = days_ahead).
  { unfold mk_timedelta, td_of_us, US_PER_DAY, US_PER_SECOND. cbn.
    repeat split; Z.to_euclidean_division_equations; lia. }
  destruct Sn as (Sn1 & Sn2 & Sn3).
  destruct (dt_add_days c n _ Hc Sn1 Sn2 En) as (N1 & N2 & N3 & N4 & N5).
  rewrite Sn3 in N5.
  assert (Wn : dt_weekday n = wd).
  { unfold dt_weekday, Cal.weekday. rewrite N5.
    replace (Cal.toordinal (dt_date c) + days_ahead + 6)
      with (Cal.toordinal (dt_date c) + 6 + days_ahead) by lia. exact Wc. }
  pose proof (timestamp_bounds n Hn) as Bn.
  destruct (dt_le n t) eqn:Ele.
  - apply dt_le_timestamp in Ele; [| assumption ..].
    destruct (dt_add_total n (mk_timedelta 1 0 0 0) Hn) as [r Er].
    { rewrite td_us_mk_timedelta. unfold Cal.MAXORDINAL, US_PER_DAY, US_PER_SECOND in *. lia. }
    exists r. split; [exact Er |].
    destruct (dt_add_spec n r _ Hn Er) as [Hr Tr].
    destruct (dt_add_days n r (mk_timedelta 1 0 0 0) Hn eq_refl eq_refl Er)
      as (R1 & R2 & R3 & R4 & R5).
    rewrite td_us_mk_timedelta in Tr.
    unfold Cal.MAXORDINAL, US_PER_DAY, US_PER_SECOND in *.
    subst c; cbn in N1, N2, N3, N4.
    repeat split; try assumption; try lia.
    unfold dt_weekday, Cal.weekday in *. rewrite R5.
    change (td_days (mk_timedelta 1 0 0 0)) with 7.
    set (o := Cal.toordinal (dt_date n)) in *. clearbody o.
    clear -Wn Hw. Z.to_euclidean_division_equations. lia.
  - apply dt_le_false_timestamp in Ele; [| assumption ..].
    exists n. unfold Cal.MAXORDINAL, US_PER_DAY, US_PER_SECOND in *. subst c; cbn in N1, N2, N3, N4.
    repeat split; try assumption; lia.
Qed.

(** X2.  For a weekly task with weekday in [0, 6] (Monday is 0), hour in
    [0, 23] and minute in [0, 59] and every reference time [t] before year
    9999, the next run is computed without an error, falls on that
    weekday at hour:minute:00.000000, is strictly after [t] and at most
    seven days after [t]. *)
Theorem weekly_next_run
    (depth : nat) (self : BackupTask) (t : datetime) (wd h m : Z) :
  dt_ok t = true ->
  frequency self = PStr "weekly" ->
  as_seq (time_params self) = Some [PInt wd; PInt h; PInt m] ->
  0 <= wd <= 6 -> 0 <= h <= 23 -> 0 <= m <= 59 ->
  year t < 9999 ->
  exists r,
    calculate_next_run_at (S depth) self t = (Ok r, []) /\
    dt_ok r = true /\ dt_lt t r = true /\ dt_weekday r = wd /\
    hour r = h /\ minute r = m /\ second r = 0 /\ microsecond r = 0 /\
    0 < td_us (dt_sub r t) <= 7 * DAY_US.
Proof.
  intros Ht Hf Hp Hw Hh Hm Hy.
  destruct (before_last_year t Ht Hy) as [B M].
  assert (Hrep : representable (timestamp t + 14 * DAY_US)).
  { unfold representable, DAY_US, Cal.MAXORDINAL, US_PER_DAY, US_PER_SECOND in *. lia. }
  destruct (weekly_next_spec _ t wd h m Ht Hp Hw Hh Hm Hrep)
    as (r & E & Hr & W & H1 & H2 & H3 & H4 & T).
  exists r. cbn [calculate_next_run_at]. unfold next_run_try.
  rewrite Hf. cbn [eq_str].
  rewrite !(proj2 (String.eqb_neq _ _)) by discriminate.
  rewrite (proj2 (String.eqb_eq _ _) eq_refl). rewrite E. cbn [next_run_except].
  repeat split; try assumption.
  - apply dt_lt_timestamp; [assumption .. | lia].
  - unfold dt_sub. rewrite td_us_of_us. lia.
  - unfold dt_sub. rewrite td_us_of_us. lia.
Qed.

(** ** The error handler and the recursion of [calculate_next_run] *)

Lemma as_c_int_PInt_inv (z z' : Z) : as_c_int (PInt z) = Ok z' -> z' = z.
Proof.
  unfold as_c_int. cbn. destruct (_ && _); intros H; inversion H. reflexivity.
Qed.

Lemma datetime_of_target (y mo : Z) (d h mi : pyval) (r : datetime) :
  datetime_of (PInt y) (PInt mo) d h mi = Ok r -> year r = y /\ month r = mo.
Proof.
  unfold datetime_of. intros H.
  destruct (as_c_int (PInt y)) as [y' |] eqn:Ey; [| discriminate].
  destruct (as_c_int (PInt mo)) as [mo' |] eqn:Em; [| discriminate].
  destruct (as_c_int d); [| discriminate]. destruct (as_c_int h); [| discriminate].
  destruct (as_c_int mi); [| discriminate].
  cbn in H. apply datetime_new_inv in H. destruct H as [-> _]. cbn.
  apply as_c_int_PInt_inv in Ey, Em. subst. split; reflexivity.
Qed.

(** whatever the monthly branch builds lies in the month after [t]'s *)
Lemma monthly_candidate_target (tp : pyval) (t r : datetime) :
  dt_ok t = true -> monthly_candidate tp t = Ok r ->
  year r = target_year t /\ month r = target_month t.
Proof.
  intros Ht H. unfold monthly_candidate in H.
  apply dt_ok_spec in Ht. destruct Ht as (Hd & _).
  unfold date_valid in Hd. cbn in Hd. apply date_ok_spec in Hd.
  destruct (unpack3 tp) as [[[d h] mi] |]; [| discriminate].
  cbn [mbind res_bind] in H.
  assert (E : (if 12 <? month t + 1 then (1, year t + 1) else (month t + 1, year t))
              = (target_month t, target_year t)).
  { unfold target_month, target_year.
    destruct (Z.ltb_spec 12 (month t + 1)), (Z.eqb_spec (month t) 12);
      try reflexivity; lia. }
  rewrite E in H.
  destruct (datetime_of (PInt (target_year t)) (PInt (target_month t)) d h mi)
    as [c | e] eqn:Ec.
  - inversion H; subst. eapply datetime_of_target; eassumption.
  - destruct e; try discriminate. eapply datetime_of_target; eassumption.
Qed.

(** X3.  For every valid reference time the monthly branch never makes
    its recursive call [self.calculate_next_run(now + timedelta(days=1))]:
    the date it builds is in the next month and so already after [now].
    The result of [calculate_next_run] is that of the four branches
    without recursion under the handler, whatever stack depth is left. *)
Theorem monthly_never_recurses (depth : nat) (self : BackupTask) (t : datetime) :
  dt_ok t = true ->
  calculate_next_run_at (S depth) self t = next_run_except t (plain_next self t, []) /\
  calculate_next_run_at (S depth) self t = calculate_next_run_at 1 self t.
Proof.
  intros Ht.
  assert (G : forall recur,
            next_run_try recur self t =
            match plain_next self t with
            | Ok r => (Ok r, [])
            | Raise e => (Raise e, [])
            end).
  { intros recur. unfold next_run_try, plain_next.
    destruct (eq_str (frequency self) "hourly");
      [destruct (hourly_next _ _); reflexivity |].
    destruct (eq_str (frequency self) "daily");
      [destruct (daily_next _ _); reflexivity |].
    destruct (eq_str (frequency self) "weekly");
      [destruct (weekly_next _ _); reflexivity |].
    destruct (eq_str (frequency self) "monthly"); [| reflexivity].
    destruct (monthly_candidate (time_params self) t) as [c |] eqn:E; [| reflexivity].
    destruct (monthly_candidate_target _ _ _ Ht E) as [Ey Em].
    rewrite (next_month_later t c Ht Ey Em). reflexivity. }
  cbn [calculate_next_run_at]. rewrite !G.
  split; [| reflexivity].
  destruct (plain_next self t); reflexivity.
Qed.

(** parameters that are no tuple or list either do not unpack, or are a
    [str] that unpacks into strings *)
Lemma unpack2_not_seq (v : pyval) :
  as_seq v = None ->
  (exists e, unpack2 v = Raise e) \/ (exists a b, unpack2 v = Ok (PStr a, PStr b)).
Proof.
  destruct v as [| | | s | l | l]; try discriminate; intros _; cbn; eauto.
  destruct (str_chars s) as [| a [| b [| c l]]]; eauto.
Qed.

Lemma unpack3_not_seq (v : pyval) :
  as_seq v = None ->
  (exists e, unpack3 v = Raise e) \/
  (exists a b c, unpack3 v = Ok (PStr a, PStr b, PStr c)).
Proof.
  destruct v as [| | | s | l | l]; try discriminate; intros _; cbn; eauto.
  destruct (str_chars s) as [| a [| b [| c [| d l]]]]; eauto 6.
Qed.

Lemma daily_next_not_seq (tp : pyval) (t : datetime) :
  as_seq tp = None -> exists e, daily_next tp t = Raise e.
Proof.
  intros Hp. unfold daily_next.
  destruct (unpack2_not_seq tp Hp) as [[e U] | (a & b & U)]; rewrite U; cbn; eauto.
Qed.

Lemma weekly_next_not_seq (tp : pyval) (t : datetime) :
  as_seq tp = None -> exists e, weekly_next tp t = Raise e.
Proof.
  intros Hp. unfold weekly_next.
  destruct (unpack3_not_seq tp Hp) as [[e U] | (a & b & c & U)]; rewrite U; cbn; eauto.
Qed.

Lemma monthly_candidate_not_seq (tp : pyval) (t : datetime) :
  as_seq tp = None -> exists e, monthly_candidate tp t = Raise e.
Proof.
  intros Hp. unfold monthly_candidate.
  destruct (unpack3_not_seq tp Hp) as [[e U] | (a & b & c & U)]; rewrite U;
    cbn [mbind res_bind]; [eauto |].
  destruct (if 12 <? month t + 1 then (1, year t + 1) else (month t + 1, year t))
    as [nm ny].
  unfold datetime_of.
  destruct (as_c_int (PInt ny)) as [y' | e]; cbn [mbind res_bind];
    [| destruct e; eauto].
  destruct (as_c_int (PInt nm)) as [m' | e]; cbn [mbind res_bind];
    [| destruct e; eauto].
  cbn. eauto.
Qed.

(** X4.  A task of a recognised kind whose parameters cannot be used
    gets [now] + 5 minutes and one logged error: an hourly task whose
    minute is an integer outside [0, 59], or a daily, weekly or monthly
    task whose parameters are no tuple or list.  ([now] at most
    9999-12-31T23:54:59.999999.) *)
Theorem malformed_params_fallback (depth : nat) (self : BackupTask) (t : datetime) :
  dt_ok t = true -> dt_le t LAST_SAFE = true ->
  (frequency self = PStr "hourly" /\
   exists m, time_params self = PInt m /\ (m < 0 \/ 59 < m)) \/
  ((frequency self = PStr "daily" \/ frequency self = PStr "weekly" \/
    frequency self = PStr "monthly") /\ as_seq (time_params self) = None) ->
  exists r e,
    calculate_next_run_at (S depth) self t =
      (Ok r, [Error "Ошибка расчета времени для задачи" e]) /\
    dt_ok r = true /\ timestamp r = timestamp t + 5 * MINUTE_US.
Proof.
  intros Ht Hb Hbad.
  apply dt_le_timestamp in Hb; [| assumption | reflexivity].
  destruct (dt_add_total t (mk_timedelta 0 0 0 5) Ht) as [r Er].
  { rewrite td_us_mk_timedelta. pose proof (timestamp_bounds t Ht) as B.
    change (timestamp LAST_SAFE)
      with ((Cal.MAXORDINAL + 1) * US_PER_DAY - 5 * MINUTE_US - 1) in Hb.
    unfold MINUTE_US, Cal.MAXORDINAL, US_PER_DAY, US_PER_SECOND in *. lia. }
  destruct (dt_add_spec t r _ Ht Er) as [Hr Tr].
  rewrite td_us_mk_timedelta in Tr.
  assert (G : exists e, next_run_try (calculate_next_run_at depth self) self t
                        = (Raise e, [])).
  { unfold next_run_try.
    destruct Hbad as [[Hf (m & Hp & Hm)] | [Hf Hp]].
    - rewrite Hf, Hp. cbn [eq_str].
      rewrite (proj2 (String.eqb_eq _ _) eq_refl).
      unfold hourly_next, replace. cbn [arg_or mbind res_bind].
      destruct (as_c_int (PInt m)) as [m' | e] eqn:Em; cbn [mbind res_bind];
        [| eauto].
      apply as_c_int_PInt_inv in Em. subst m'.
      rewrite !as_c_int_PInt by lia. cbn [mbind res_bind].
      unfold datetime_new.
      assert (F : time_ok (hour t) m 0 0 = false).
      { apply not_true_iff_false. rewrite time_ok_spec. lia. }
      rewrite F, andb_false_r. cbn [mbind res_bind]. eauto.
    - destruct Hf as [Hf | [Hf | Hf]]; rewrite Hf; cbn [eq_str];
        rewrite ?(proj2 (String.eqb_neq _ _)) by discriminate;
        rewrite (proj2 (String.eqb_eq _ _) eq_refl).
      + destruct (daily_next_not_seq _ t Hp) as [e E]. rewrite E. eauto.
      + destruct (weekly_next_not_seq _ t Hp) as [e E]. rewrite E. eauto.
      + destruct (monthly_candidate_not_seq _ t Hp) as [e E]. rewrite E. eauto. }
  destruct G as [e G].
  exists r, e. cbn [calculate_next_run_at]. rewrite G. cbn [next_run_except app].
  rewrite Er. unfold MINUTE_US. repeat split; try assumption; lia.
Qed.

(** X5.  The monthly branch does not reject a day that is no day of the
    target month: for every integer day below 1 or above the length of the
    month after [t]'s (and within a C int), with hour and minute in range
    and [t] before December 9999, the next run is the last day of that
    month. *)
Theorem monthly_day_out_of_range
    (depth : nat) (self : BackupTask) (t : datetime) (d h mi : Z) :
  dt_ok t = true ->
  frequency self = PStr "monthly" ->
  as_seq (time_params self) = Some [PInt d; PInt h; PInt mi] ->
  - 2 ^ 31 <= d < 2 ^ 31 ->
  d < 1 \/ Cal.days_in_month (target_year t) (target_month t) < d ->
  0 <= h <= 23 -> 0 <= mi <= 59 ->
  dt_lt t (DateTime 9999 12 1 0 0 0 0) = true ->
  calculate_next_run_at (S depth) self t =
    (Ok (DateTime (target_year t) (target_month t)
           (Cal.days_in_month (target_year t) (target_month t)) h mi 0 0), []).
Proof.
  intros Ht Hf Hp Hc Hd Hh Hmi Hb.
  pose proof Ht as Hv. apply dt_ok_spec in Hv. destruct Hv as (Hv & Hth & Htm & Hts & Htu).
  unfold date_valid in Hv. cbn in Hv. apply date_ok_spec in Hv.
  assert (Ty : 1 <= target_year t <= 9999).
  { unfold target_year. destruct (Z.eqb_spec (month t) 12) as [E | E]; [| lia].
    destruct (Z_le_dec (year t) 9998); [lia |]. exfalso.
    unfold dt_lt, dt_compare in Hb.
    cbn [year month day hour minute second microsecond] in Hb. rewrite E in Hb.
    repeat match type of Hb with
    | context [Z.compare ?x ?y] =>
        destruct (Z.compare_spec x y); try discriminate; try lia
    end. }
  assert (Tm : 1 <= target_month t <= 12).
  { unfold target_month. destruct (Z.eqb_spec (month t) 12); lia. }
  pose proof (days_in_month_bounds (target_year t) (target_month t)) as Hdim.
  set (last := Cal.days_in_month (target_year t) (target_month t)) in *.
  set (r := DateTime (target_year t) (target_month t) last h mi 0 0).
  assert (Hr : dt_ok r = true).
  { apply dt_ok_spec. subst r last. cbn. unfold date_valid. cbn.
    rewrite date_ok_spec. lia. }
  assert (E : monthly_candidate (time_params self) t = Ok r).
  { unfold monthly_candidate. rewrite (unpack3_seq _ _ _ _ Hp). cbn [mbind res_bind].
    assert (E : (if 12 <? month t + 1 then (1, year t + 1) else (month t + 1, year t))
                = (target_month t, target_year t)).
    { unfold target_month, target_year.
      destruct (Z.ltb_spec 12 (month t + 1)), (Z.eqb_spec (month t) 12);
        try reflexivity; lia. }
    rewrite E. clear E.
    unfold datetime_of at 1. rewrite !as_c_int_PInt by lia. cbn [mbind res_bind].
    assert (N : datetime_new (target_year t) (target_month t) d h mi 0 0
                = Raise ValueError).
    { unfold datetime_new.
      assert (F : Cal.date_ok (target_year t) (target_month t) d = false).
      { apply not_true_iff_false. rewrite date_ok_spec. subst last. lia. }
      rewrite F. reflexivity. }
    rewrite N. fold last. rewrite datetime_of_ints by lia.
    apply datetime_new_ok. exact Hr. }
  cbn [calculate_next_run_at]. unfold next_run_try. rewrite Hf. cbn [eq_str].
  rewrite !(proj2 (String.eqb_neq _ _)) by discriminate.
  rewrite (proj2 (String.eqb_eq _ _) eq_refl).
  rewrite E, (next_month_later t r Ht eq_refl eq_refl). reflexivity.
Qed.

(** ** The pass of the scheduler over the registry *)

Lemma same_identity_refl (t : BackupTask) : same_identity t t.
Proof. unfold same_identity. tauto. Qed.

Lemma claim_identity (depth : nat) (task : BackupTask) (now clock : datetime) :
  same_identity (fst (fst (claim depth task now clock))) task /\
  last_run (fst (fst (claim depth task now clock))) = Some now.
Proof.
  unfold claim.
  destruct (calculate_next_run depth (set_last_run task (Some now)) None clock)
    as [[r | e] l]; cbn; unfold same_identity; cbn; tauto.
Qed.

(** X6.  One pass of [scheduler_loop] over the registry keeps every task
    in its place with its name, source, destination, compression,
    frequency and parameters; a task that is not due is left as it is; and
    when no claim raises, [tasks_to_run] holds the due tasks in registry
    order, each with [last_run] set to the [now] of the pass. *)
Theorem claim_due_frame (depth : nat) (clk : nat -> datetime) (now : datetime)
    (ts : list BackupTask) (k : nat) :
  let '(ts', r, _, _) := claim_due depth clk now ts k in
  Forall2 same_identity ts' ts /\
  (forall i t, ts !! i = Some t -> due t now = false -> ts' !! i = Some t) /\
  (forall to_run, r = Ok to_run ->
     Forall2 same_identity to_run (due_tasks ts now) /\
     Forall (fun t => last_run t = Some now) to_run).
Proof.
  revert k. induction ts as [| t ts IH]; intros k; cbn [claim_due].
  - split; [constructor |]. split; [intros i t H; discriminate |].
    intros to_run H. inversion H; subst. split; constructor.
  - unfold due_tasks. rewrite filter_cons.
    destruct (due t now) eqn:D.
    + rewrite decide_True by reflexivity.
      pose proof (claim_identity depth t now (clk k)) as [I L].
      destruct (claim depth t now (clk k)) as [[t' [u | e]] l]; cbn in I, L.
      * specialize (IH (S k)).
        destruct (claim_due depth clk now ts (S k)) as [[[ts' r] l'] k'].
        destruct IH as (F & U & R).
        split; [constructor; assumption |].
        split.
        { intros [| i] x Hx Dx; cbn in *.
          - inversion Hx; subst. congruence.
          - eapply U; eassumption. }
        intros to_run H. destruct r as [tr |]; cbn in H; [| discriminate].
        inversion H; subst. destruct (R tr eq_refl) as [R1 R2].
        split; constructor; assumption.
      * split; [constructor; [assumption | apply Forall2_same_length_lookup_2;
                  [reflexivity | intros i x y Hx Hy; rewrite Hx in Hy;
                                 inversion Hy; apply same_identity_refl]] |].
        split.
        { intros [| i] x Hx Dx; cbn in *.
          - inversion Hx; subst. congruence.
          - exact Hx. }
        intros to_run H. discriminate.
    + rewrite decide_False by discriminate.
      specialize (IH k).
      destruct (claim_due depth clk now ts k) as [[[ts' r] l'] k'].
      destruct IH as (F & U & R).
      split; [constructor; [apply same_identity_refl | assumption] |].
      split.
      { intros [| i] x Hx Dx; cbn in *; [exact Hx | eapply U; eassumption]. }
      exact R.
Qed.

Lemma claim_total (depth : nat) (task : BackupTask) (now clock : datetime) :
  dt_ok clock = true -> dt_le clock LAST_SAFE = true ->
  exists task' l, claim (S depth) task now clock = (task', Ok (), l).
Proof.
  intros Hc Hb.
  apply dt_le_timestamp in Hb; [| assumption | reflexivity].
  assert (Hrep : representable (timestamp clock + 5 * MINUTE_US)).
  { pose proof (timestamp_bounds clock Hc) as B.
    change (timestamp LAST_SAFE)
      with ((Cal.MAXORDINAL + 1) * US_PER_DAY - 5 * MINUTE_US - 1) in Hb.
    unfold representable, MINUTE_US, US_PER_DAY, US_PER_SECOND in *. lia. }
  unfold claim, calculate_next_run. cbn [default].
  destruct (calculate_next_run_total depth (set_last_run task (Some now)) clock Hc Hrep)
    as (r & l & E).
  rewrite E. eauto.
Qed.

Lemma claim_due_total (depth : nat) (clk : nat -> datetime) (now : datetime)
    (ts : list BackupTask) (k : nat) :
  (forall i, dt_ok (clk i) = true /\ dt_le (clk i) LAST_SAFE = true) ->
  exists ts' to_run l,
    claim_due (S depth) clk now ts k =
      (ts', Ok to_run, l, (k + length (due_tasks ts now))%nat) /\
    Forall2 same_identity ts' ts /\
    Forall2 same_identity to_run (due_tasks ts now).
Proof.
  intros Hclk. revert k. induction ts as [| t ts IH]; intros k.
  - exists [], [], []. cbn. rewrite Nat.add_0_r.
    split; [reflexivity |]. split; constructor.
  - cbn [claim_due]. unfold due_tasks. rewrite filter_cons.
    destruct (due t now) eqn:D.
    + rewrite decide_True by reflexivity.
      destruct (Hclk k) as [Ck Sk].
      destruct (claim_total depth t now (clk k) Ck Sk) as (t' & l & E).
      pose proof (claim_identity (S depth) t now (clk k)) as [I _].
      rewrite E in I. cbn in I.
      rewrite E. destruct (IH (S k)) as (ts' & tr & l' & E' & F1 & F2).
      fold (due_tasks ts now). rewrite E'. cbn [mbind res_bind length].
      exists (t' :: ts'), (t' :: tr), (l ++ l').
      replace (k + S (length (due_tasks ts now)))%nat
        with (S k + length (due_tasks ts now))%nat by lia.
      split; [reflexivity |]. split; constructor; assumption.
    + rewrite decide_False by discriminate.
      destruct (IH k) as (ts' & tr & l' & E' & F1 & F2).
      fold (due_tasks ts now). rewrite E'.
      exists (t :: ts'), tr, l'.
      split; [reflexivity |].
      split; [constructor; [apply same_identity_refl | assumption] | assumption].
Qed.

Lemma dispatch_effect (to_run : list BackupTask) (app : BackupApp) :
  running_tasks (dispatch app to_run) = running_tasks app /\
  tasks (dispatch app to_run) = tasks app /\
  in_flight (dispatch app to_run) = in_flight app ++ to_run.
Proof.
  unfold dispatch. revert app.
  induction to_run as [| t tr IH]; intros app; cbn [foldl].
  - rewrite app_nil_r. tauto.
  - destruct (IH (run_task (add_log app [Info "Запуск задачи"]) t)) as (R & T & F).
    rewrite R, T, F. cbn. rewrite <- app_assoc. tauto.
Qed.

(** X7.  While every clock reading is at most 9999-12-31T23:54:59.999999,
    one tick of [scheduler_loop] starts one backup for each task that is
    due at the tick's [now], in registry order, and for no other; it reads
    the clock once more for every due task, keeps the number of tasks and
    does not touch [running_tasks]. *)
Theorem scheduler_tick_dispatches_due
    (depth : nat) (clk : nat -> datetime) (app : BackupApp) (k : nat) :
  (forall i, dt_ok (clk i) = true /\ dt_le (clk i) LAST_SAFE = true) ->
  exists to_run,
    in_flight (fst (scheduler_tick (S depth) clk app k)) = in_flight app ++ to_run /\
    Forall2 same_identity to_run (due_tasks (tasks app) (clk k)) /\
    Forall2 same_identity (tasks (fst (scheduler_tick (S depth) clk app k))) (tasks app) /\
    running_tasks (fst (scheduler_tick (S depth) clk app k)) = running_tasks app /\
    snd (scheduler_tick (S depth) clk app k)
      = (S k + length (due_tasks (tasks app) (clk k)))%nat.
Proof.
  intros Hclk. unfold scheduler_tick.
  destruct (claim_due_total depth clk (clk k) (tasks app) (S k) Hclk)
    as (ts' & to_run & l & E & F1 & F4).
  rewrite E.
  destruct (dispatch_effect to_run (add_log (set_tasks app ts') l)) as (R & T & I).
  exists to_run. cbn [fst snd]. rewrite R, T, I. cbn.
  repeat split; assumption.
Qed.

Lemma claim_raise (depth : nat) (task task' : BackupTask) (now clock : datetime)
    (e : exn) (l : list log_entry) :
  claim depth task now clock = (task', Raise e, l) ->
  task' = set_last_run task (Some now).
Proof.
  unfold claim.
  destruct (calculate_next_run depth (set_last_run task (Some now)) None clock)
    as [[r | e'] l']; intros H; inversion H; reflexivity.
Qed.

(** the pass ends at the first task whose claim raises *)
Lemma claim_due_raise (depth : nat) (clk : nat -> datetime) (now : datetime)
    (ts ts' : list BackupTask) (k k' : nat) (e : exn) (l : list log_entry) :
  claim_due depth clk now ts k = (ts', Raise e, l, k') ->
  exists pre pre' t post,
    ts = pre ++ t :: post /\
    ts' = pre' ++ set_last_run t (Some now) :: post /\
    length pre' = length pre /\ due t now = true.
Proof.
  revert ts' k l. induction ts as [| t ts IH]; intros ts' k l H; cbn [claim_due] in H.
  - discriminate.
  - destruct (due t now) eqn:D.
    + destruct (claim depth t now (clk k)) as [[t' [u | e1]] l1] eqn:Ec.
      * destruct (claim_due depth clk now ts (S k)) as [[[ts1 r1] l2] k1] eqn:E1.
        destruct r1 as [tr |]; cbn in H; [discriminate |].
        inversion H; subst.
        destruct (IH _ _ _ E1) as (pre & pre' & x & post & A & B & C & Dx).
        exists (t :: pre), (t' :: pre'), x, post. subst. cbn.
        repeat split; try reflexivity; try assumption. lia.
      * inversion H; subst. apply claim_raise in Ec. subst t'.
        exists [], [], t, ts. repeat split; try reflexivity; assumption.
    + destruct (claim_due depth clk now ts k) as [[[ts1 r1] l2] k1] eqn:E1.
      inversion H; subst.
      destruct (IH _ _ _ E1) as (pre & pre' & x & post & A & B & C & Dx).
      exists (t :: pre), (t :: pre'), x, post. subst. cbn.
      repeat split; try reflexivity; try assumption. lia.
Qed.

(** X8.  A tick in which the claim of some task raises starts no backup
    at all, not even for the tasks that the same pass had claimed before.
    The pass ends at the task whose claim raised: that task keeps its
    [next_run] with [last_run] already set, the tasks after it are not
    looked at, and the error of the scheduler is logged. *)
Theorem scheduler_tick_claim_raises
    (depth : nat) (clk : nat -> datetime) (app : BackupApp) (k : nat)
    (ts' : list BackupTask) (e : exn) (l : list log_entry) (k' : nat) :
  claim_due depth clk (clk k) (tasks app) (S k) = (ts', Raise e, l, k') ->
  in_flight (fst (scheduler_tick depth clk app k)) = in_flight app /\
  log (fst (scheduler_tick depth clk app k))
    = log app ++ l ++ [Error "Ошибка планировщика" e] /\
  exists pre pre' t post,
    tasks app = pre ++ t :: post /\
    tasks (fst (scheduler_tick depth clk app k))
      = pre' ++ set_last_run t (Some (clk k)) :: post /\
    length pre' = length pre /\ due t (clk k) = true.
Proof.
  intros E. pose proof (claim_due_raise _ _ _ _ _ _ _ _ _ E) as R.
  unfold scheduler_tick. rewrite E. cbn.
  rewrite <- app_assoc. split; [reflexivity |]. split; [reflexivity |]. exact R.
Qed.

(** ** The counter and the status line *)

Lemma finished_nonneg (evs : list event) : 0 <= finished evs.
Proof. induction evs as [| [t | i w] evs IH]; cbn [finished]; lia. Qed.

(** X9.  Whatever calls of [run_task] and ends of backup threads a
    freshly constructed application has seen, [running_tasks] is minus
    the number of backups that ended, the threads in flight are those
    started and not ended, and the status line never shows the state
    "backup in progress" (orange), which needs [running_tasks > 0]. *)
Theorem status_never_in_progress
    (evs : list event) (app : BackupApp) (now : datetime) :
  run BackupApp_init evs = Some app ->
  running_tasks app = - finished evs /\
  Z.of_nat (length (in_flight app)) = started evs - finished evs /\
  color (update_status app now) <> "orange" /\
  status_text (update_status app now) <> "Статус: Выполняется резервное копирование...".
Proof.
  intros H. destruct (run_counter evs BackupApp_init app H) as [C F].
  cbn in C, F. pose proof (finished_nonneg evs) as N.
  split; [lia |]. split; [lia |].
  unfold update_status.
  destruct (Z.ltb_spec 0 (running_tasks app)) as [L | L]; [lia |].
  destruct (tasks app); cbn; split; discriminate.
Qed.

(** X10.  When the nearest [next_run] is after [now] by less than a day,
    the hours and minutes of the status line are the whole minutes that
    remain. *)
Theorem update_status_within_a_day (app : BackupApp) (now n : datetime) :
  dt_ok now = true -> dt_ok n = true ->
  nearest (map next_run (tasks app)) = Some n ->
  0 < timestamp n - timestamp now < US_PER_DAY ->
  exists h m,
    next_task_text (update_status app now) =
      "Ближайшая задача через: " +:+ pretty h +:+ "ч " +:+ pretty m +:+ "м" /\
    0 <= h <= 23 /\ 0 <= m <= 59 /\
    (h * 60 + m) * MINUTE_US <= timestamp n - timestamp now
      < (h * 60 + m + 1) * MINUTE_US.
Proof.
  intros Hnow Hn E D.
  assert (L : dt_lt now n = true) by (apply dt_lt_timestamp; [assumption .. | lia]).
  pose proof (update_status_countdown app now n Hnow Hn E L) as T. cbn zeta in T.
  rewrite (Z.mod_small (timestamp n - timestamp now)) in T by lia.
  set (s := (timestamp n - timestamp now) / US_PER_SECOND) in *.
  exists (s / 3600), (s mod 3600 / 60). split; [exact T |].
  unfold MINUTE_US, US_PER_DAY, US_PER_SECOND in *.
  set (x := timestamp n - timestamp now) in *. clearbody x. subst s.
  repeat split; Z.to_euclidean_division_equations; lia.
Qed.

(** ** Saving and loading the registry *)

Lemma safe_representable (clock : datetime) :
  dt_ok clock = true -> dt_le clock LAST_SAFE = true ->
  representable (timestamp clock + 5 * MINUTE_US).
Proof.
  intros Hc Hb. apply dt_le_timestamp in Hb; [| assumption | reflexivity].
  pose proof (timestamp_bounds clock Hc) as B.
  change (timestamp LAST_SAFE)
    with ((Cal.MAXORDINAL + 1) * US_PER_DAY - 5 * MINUTE_US - 1) in Hb.
  unfold representable, MINUTE_US, US_PER_DAY, US_PER_SECOND in *. lia.
Qed.

Lemma item_last_run_saved (task : BackupTask) :
  (forall d, last_run task = Some d -> dt_ok d = true) ->
  item_last_run (json_reload <$> to_dict task) = Ok (last_run task).
Proof.
  intros Hlr. unfold item_last_run.
  rewrite (getitem_reload_to_dict task "last_run"
             (match last_run task with
              | Some t => PStr (isoformat t)
              | None => PNone
              end)) by reflexivity.
  cbn [mbind res_bind].
  destruct (last_run task) as [t |] eqn:El; [| reflexivity].
  cbn [json_reload truthy].
  assert (Hne : String.eqb (isoformat t) EmptyString = false).
  { apply String.eqb_neq. unfold isoformat, digits4. cbn. discriminate. }
  rewrite Hne. cbn [negb].
  rewrite fromisoformat_isoformat by (apply Hlr; reflexivity). reflexivity.
Qed.

(** the loop body of [load_tasks] on the record of a storable task *)
Lemma load_task_saved (depth : nat) (task : BackupTask) (clock1 clock2 : datetime) :
  storable task ->
  dt_ok clock1 = true -> dt_le clock1 LAST_SAFE = true ->
  dt_ok clock2 = true -> dt_le clock2 LAST_SAFE = true ->
  exists task' l,
    load_task (S depth) (json_reload <$> to_dict task) clock1 clock2 = (Ok task', l) /\
    reloaded task' task.
Proof.
  intros (Nn & Ns & Nd & Nc & Nf & Hlr) Hc1 Hb1 Hc2 Hb2.
  unfold load_task, item_fields.
  rewrite (getitem_reload_to_dict task "name" (name task)) by reflexivity.
  rewrite (getitem_reload_to_dict task "source" (source task)) by reflexivity.
  rewrite (getitem_reload_to_dict task "destination" (destination task)) by reflexivity.
  rewrite (getitem_reload_to_dict task "compression" (compression task)) by reflexivity.
  rewrite (getitem_reload_to_dict task "frequency" (frequency task)) by reflexivity.
  rewrite (getitem_reload_to_dict task "time_params" (time_params task)) by reflexivity.
  cbn [mbind res_bind].
  rewrite !json_reload_native by assumption.
  destruct (BackupTask_init_total depth (name task) (source task) (destination task)
              (compression task) (frequency task) (json_reload (time_params task))
              clock1 Hc1 Hb1) as (r1 & l1 & _ & E1).
  rewrite E1, (item_last_run_saved task Hlr).
  set (task1 := set_last_run _ (last_run task)).
  destruct (calculate_next_run_total depth task1 clock2 Hc2
              (safe_representable clock2 Hc2 Hb2)) as (r2 & l2 & E2).
  unfold calculate_next_run. cbn [default]. rewrite E2.
  exists (set_next_run task1 r2), (l1 ++ l2).
  split; [reflexivity |]. unfold reloaded. cbn. tauto.
Qed.

Lemma json_reload_idem (v : pyval) : json_reload (json_reload v) = json_reload v.
Proof. apply json_reload_native, json_reload_is_native. Qed.

(** a reloaded task is written to [tasks.json] as the task it came from *)
Lemma to_dict_reloaded (t' t : BackupTask) :
  reloaded t' t -> json_reload <$> to_dict t' = json_reload <$> to_dict t.
Proof.
  intros (En & Es & Ed & Ec & Ef & Ep & El). unfold to_dict.
  rewrite En, Es, Ed, Ec, Ef, Ep, El. rewrite !fmap_insert, json_reload_idem.
  reflexivity.
Qed.

Lemma load_items_saved (depth : nat) (clk : nat -> datetime)
    (ts : list BackupTask) (k : nat) :
  safe_clock clk -> Forall storable ts ->
  exists ts' l,
    load_items (S depth) clk (saved_data ts) k
      = (ts', Ok (), l, (k + 2 * length ts)%nat) /\
    Forall2 reloaded ts' ts.
Proof.
  intros Hclk Hs. revert k. induction Hs as [| t ts Ht _ IH]; intros k.
  - exists [], []. cbn. rewrite Nat.add_0_r. split; [reflexivity | constructor].
  - cbn [saved_data map load_items].
    destruct (Hclk k) as [C1 S1]. destruct (Hclk (S k)) as [C2 S2].
    destruct (load_task_saved depth t (clk k) (clk (S k)) Ht C1 S1 C2 S2)
      as (t' & l & E & R).
    rewrite E. destruct (IH (S (S k))) as (ts' & l' & E' & F).
    fold (saved_data ts). rewrite E'.
    exists (t' :: ts'), (l ++ l').
    replace (k + 2 * length (t :: ts))%nat with (S (S k) + 2 * length ts)%nat
      by (cbn [length]; lia).
    split; [reflexivity | constructor; assumption].
Qed.

(** X11.  What [save_tasks] writes for a registry of storable tasks,
    [load_tasks] reads back in full at the next start: as many tasks, in
    the same order, each with the same name, source, destination,
    compression, frequency and [last_run] and the same parameter values;
    and saving the loaded registry writes the same file again. *)
Theorem load_tasks_saved_registry
    (depth : nat) (clk : nat -> datetime) (ts : list BackupTask) (k : nat) :
  safe_clock clk -> Forall storable ts ->
  exists app',
    load_tasks (S depth) clk BackupApp_init (Some (saved_data ts)) k
      = (app', Ok (), (k + 2 * length ts)%nat) /\
    Forall2 reloaded (tasks app') ts /\
    saved_data (tasks app') = saved_data ts.
Proof.
  intros Hclk Hs.
  destruct (load_items_saved depth clk ts k Hclk Hs) as (ts' & l & E & F).
  exists (add_log (set_tasks BackupApp_init ts') l).
  unfold load_tasks. rewrite E. split; [reflexivity |].
  cbn [tasks add_log set_tasks BackupApp_init app].
  split; [exact F |].
  unfold saved_data. clear E Hs.
  induction F as [| t' t ts' ts R _ IH]; cbn [map]; [reflexivity |].
  rewrite (to_dict_reloaded t' t R), IH. reflexivity.
Qed.

Lemma getitem_missing (item : gmap string pyval) (key : string) :
  item !! key = None -> getitem item key = Raise KeyError.
Proof. unfold getitem. intros ->. reflexivity. Qed.

Lemma load_task_missing_key (depth : nat) (item : gmap string pyval)
    (clock1 clock2 : datetime) (key : string) :
  dt_ok clock1 = true -> dt_le clock1 LAST_SAFE = true ->
  key ∈ task_keys -> item !! key = None ->
  exists l, load_task (S depth) item clock1 clock2 = (Raise KeyError, l).
Proof.
  intros Hc Hb Hk Hmiss. unfold load_task.
  destruct (item_fields item) as [[[[[[n s] d] c] f] tp] | e] eqn:Ef.
  - assert (Hl : key = "last_run").
    { unfold item_fields in Ef. unfold task_keys in Hk.
      repeat match type of Ef with
      | context [getitem item ?x] =>
          let E := fresh "E" in
          destruct (getitem item x) eqn:E; cbn [mbind res_bind] in Ef;
            [| discriminate]
      end.
      repeat (apply elem_of_cons in Hk; destruct Hk as [-> | Hk];
              [try reflexivity;
               match goal with
               | E : getitem item _ = Ok _ |- _ =>
                   rewrite (getitem_missing _ _ Hmiss) in E; discriminate E
               end |]).
      apply elem_of_nil in Hk. destruct Hk. }
    subst key.
    destruct (BackupTask_init_total depth n s d c f tp clock1 Hc Hb)
      as (r & l & _ & Ei).
    rewrite Ei. unfold item_last_run. rewrite (getitem_missing _ _ Hmiss).
    cbn [mbind res_bind]. eauto.
  - exists []. f_equal. f_equal.
    unfold item_fields in Ef.
    repeat match type of Ef with
    | context [getitem item ?x] =>
        let E := fresh "E" in
        destruct (getitem item x) eqn:E; cbn [mbind res_bind] in Ef;
          [| unfold getitem in E; destruct (item !! x); congruence]
    end.
    discriminate.
Qed.

(** X12.  A record of [tasks.json] that lacks one of the seven keys
    makes [load_tasks] raise [KeyError], which it does not catch: the
    records before it are loaded, that record and those after it are
    not. *)
Theorem load_tasks_missing_key
    (depth : nat) (clk : nat -> datetime) (good : list BackupTask)
    (item : gmap string pyval) (rest : list (gmap string pyval)) (key : string)
    (k : nat) :
  safe_clock clk -> Forall storable good ->
  key ∈ task_keys -> item !! key = None ->
  exists app' k',
    load_tasks (S depth) clk BackupApp_init
      (Some (saved_data good ++ item :: rest)) k = (app', Raise KeyError, k') /\
    Forall2 reloaded (tasks app') good.
Proof.
  intros Hclk Hs Hk Hmiss.
  assert (G : forall k, exists ts' l k',
             load_items (S depth) clk (saved_data good ++ item :: rest) k
               = (ts', Raise KeyError, l, k') /\ Forall2 reloaded ts' good).
  { clear k. induction Hs as [| t ts Ht _ IH]; intros k.
    - cbn [saved_data map app load_items].
      destruct (Hclk k) as [C1 S1].
      destruct (load_task_missing_key depth item (clk k) (clk (S k)) key C1 S1 Hk Hmiss)
        as [l E].
      rewrite E. eexists [], l, _. split; [reflexivity | constructor].
    - cbn [saved_data map app load_items].
      destruct (Hclk k) as [C1 S1]. destruct (Hclk (S k)) as [C2 S2].
      destruct (load_task_saved depth t (clk k) (clk (S k)) Ht C1 S1 C2 S2)
        as (t' & l & E & R).
      rewrite E. destruct (IH (S (S k))) as (ts' & l' & k' & E' & F).
      fold (saved_data ts). rewrite E'.
      exists (t' :: ts'), (l ++ l'), k'.
      split; [reflexivity | constructor; assumption]. }
  destruct (G k) as (ts' & l & k' & E & F).
  unfold load_tasks. rewrite E. eexists _, k'. split; [reflexivity | exact F].
Qed.

(** ** The task dialog *)

Lemma in_range_spec (lo x hi : Z) : in_range lo x hi = true <-> lo <= x <= hi.
Proof. unfold in_range. rewrite andb_true_iff, !Z.leb_le. tauto. Qed.

(** what [on_ok] accepts is a recurrence of the data model *)
Lemma dialog_time_params_valid (d : TaskDialog) (tp : pyval) :
  (forall w, weekday_combo d = Ok w -> w <= 6) ->
  dialog_time_params d = Ok tp ->
  valid_recurrence (PStr (frequency_var d)) tp.
Proof.
  intros Hw H. unfold dialog_time_params in H.
  destruct (String.eqb_spec (frequency_var d) "hourly") as [-> | _].
  { destruct (minute_spinbox d) as [m |]; [| discriminate]. cbn in H.
    destruct (in_range 0 m 59) eqn:R; [| discriminate]. cbn in H.
    inversion H; subst. apply valid_hourly. apply in_range_spec. exact R. }
  destruct (String.eqb_spec (frequency_var d) "daily") as [-> | _].
  { destruct (hour_spinbox d) as [h |]; [| discriminate].
    destruct (minute_spinbox d) as [m |]; [| discriminate]. cbn in H.
    destruct (in_range 0 h 23) eqn:Rh; [| discriminate].
    destruct (in_range 0 m 59) eqn:Rm; [| discriminate]. cbn in H.
    inversion H; subst.
    apply (valid_daily _ h m); [reflexivity | apply in_range_spec ..]; assumption. }
  destruct (String.eqb_spec (frequency_var d) "weekly") as [-> | _].
  { destruct (weekday_combo d) as [w |] eqn:Ew; [| discriminate].
    destruct (hour_spinbox d) as [h |]; [| discriminate].
    destruct (minute_spinbox d) as [m |]; [| discriminate]. cbn in H.
    destruct (Z.ltb_spec w 0) as [| W]; [discriminate |].
    destruct (in_range 0 h 23) eqn:Rh; [| discriminate].
    destruct (in_range 0 m 59) eqn:Rm; [| discriminate]. cbn in H.
    inversion H; subst. specialize (Hw w eq_refl).
    apply (valid_weekly _ w h m);
      [reflexivity | lia | apply in_range_spec; assumption ..]. }
  destruct (String.eqb_spec (frequency_var d) "monthly") as [-> | _]; [| discriminate].
  destruct (day_spinbox d) as [dd |]; [| discriminate].
  destruct (hour_spinbox d) as [h |]; [| discriminate].
  destruct (minute_spinbox d) as [m |]; [| discriminate]. cbn in H.
  destruct (in_range 1 dd 31) eqn:Rd; [| discriminate].
  destruct (in_range 0 h 23) eqn:Rh; [| discriminate].
  destruct (in_range 0 m 59) eqn:Rm; [| discriminate]. cbn in H.
  inversion H; subst.
  apply (valid_monthly _ dd h m); [reflexivity | apply in_range_spec ..]; assumption.
Qed.

(** X13.  Every task that [on_ok] builds has the three texts of the form,
    none of them empty, as name, source and destination, one of the four
    frequencies with parameters in range (the weekday list has seven
    rows), no [last_run], and a [next_run] strictly after the time of its
    construction: it is not due when it enters the registry. *)
Theorem on_ok_builds_valid_task
    (depth : nat) (d : TaskDialog) (clock : datetime)
    (task : BackupTask) (l : list log_entry) :
  dt_ok clock = true ->
  (forall w, weekday_combo d = Ok w -> w <= 6) ->
  on_ok depth d clock = (Some task, l) ->
  name task = PStr (name_entry d) /\ source task = PStr (source_entry d) /\
  destination task = PStr (dest_entry d) /\
  nonempty (name_entry d) = true /\ nonempty (source_entry d) = true /\
  nonempty (dest_entry d) = true /\
  compression task = PBool (compression_var d) /\
  valid_recurrence (frequency task) (time_params task) /\
  last_run task = None /\
  dt_lt clock (next_run task) = true /\ due task clock = false.
Proof.
  intros Hc Hw H. unfold on_ok in H.
  destruct (nonempty (name_entry d)) eqn:Nn; [| inversion H].
  destruct (nonempty (source_entry d)) eqn:Ns; [| inversion H].
  destruct (nonempty (dest_entry d)) eqn:Nd; [| inversion H].
  cbn [andb negb] in H.
  destruct (dialog_time_params d) as [tp |] eqn:Ep; [| inversion H].
  pose proof (dialog_time_params_valid d tp Hw Ep) as V.
  unfold BackupTask_init, calculate_next_run in H. cbn [default] in H.
  set (self := mkBackupTask _ _ _ _ _ _ None clock) in H.
  destruct (calculate_next_run_at depth self clock) as [[r | e] l'] eqn:E;
    [| inversion H].
  inversion H; subst task l; clear H. cbn.
  destruct (calculate_next_run_after depth self clock Hc
              (recognised_valid _ _ V) r l' E) as [Hr Tr].
  repeat split; try reflexivity; try assumption.
  - apply dt_lt_timestamp; assumption.
  - unfold due. cbn. apply dt_le_false_timestamp; assumption.
Qed.

Lemma dialog_time_params_rejects (d : TaskDialog) :
  recognised (PStr (frequency_var d)) = false \/
  (exists m, minute_spinbox d = Ok m /\ (m < 0 \/ 59 < m)) ->
  exists e, dialog_time_params d = Raise e.
Proof.
  intros H. unfold dialog_time_params.
  assert (R : forall m, m < 0 \/ 59 < m -> in_range 0 m 59 = false).
  { intros m Hm. apply not_true_iff_false. rewrite in_range_spec. lia. }
  destruct H as [H | (m & Em & Hm)].
  - unfold recognised in H. cbn [eq_str] in H.
    apply orb_false_elim in H. destruct H as [H H4].
    apply orb_false_elim in H. destruct H as [H H3].
    apply orb_false_elim in H. destruct H as [H1 H2].
    rewrite H1, H2, H3, H4. eauto.
  - rewrite Em. specialize (R m Hm).
    destruct (String.eqb (frequency_var d) "hourly").
    { cbn. rewrite R. cbn. eauto. }
    destruct (String.eqb (frequency_var d) "daily").
    { destruct (hour_spinbox d); cbn; [| eauto].
      rewrite R. cbn. rewrite orb_true_r. eauto. }
    destruct (String.eqb (frequency_var d) "weekly").
    { destruct (weekday_combo d); cbn; [| eauto].
      destruct (hour_spinbox d); cbn; [| eauto].
      rewrite R. cbn. rewrite !orb_true_r. eauto. }
    destruct (String.eqb (frequency_var d) "monthly"); [| eauto].
    destruct (day_spinbox d); cbn; [| eauto].
    destruct (hour_spinbox d); cbn; [| eauto].
    rewrite R. cbn. rewrite !orb_true_r. eauto.
Qed.

(** X14.  A form with an empty name, source or destination, with a
    frequency outside the four kinds, or with a minute outside [0, 59]
    gives no result: [on_ok] logs one error, and [edit_task] leaves every
    task of the registry as it was. *)
Theorem invalid_form_changes_nothing
    (depth : nat) (app : BackupApp) (index : nat) (d : TaskDialog)
    (clock : datetime) :
  (index < length (tasks app))%nat ->
  nonempty (name_entry d) = false \/ nonempty (source_entry d) = false \/
  nonempty (dest_entry d) = false \/
  recognised (PStr (frequency_var d)) = false \/
  (exists m, minute_spinbox d = Ok m /\ (m < 0 \/ 59 < m)) ->
  exists e app',
    on_ok depth d clock = (None, [Error EmptyString e]) /\
    edit_task depth app (Some index) (Some d) clock = Ok app' /\
    tasks app' = tasks app /\ running_tasks app' = running_tasks app /\
    in_flight app' = in_flight app.
Proof.
  intros Hi H.
  assert (G : exists e, on_ok depth d clock = (None, [Error EmptyString e])).
  { unfold on_ok.
    destruct (nonempty (name_entry d)); cbn [andb negb]; [| eauto].
    destruct (nonempty (source_entry d)); cbn [andb negb]; [| eauto].
    destruct (nonempty (dest_entry d)); cbn [andb negb]; [| eauto].
    destruct H as [H | [H | [H | H]]]; try discriminate.
    destruct (dialog_time_params_rejects d H) as [e E]. rewrite E. eauto. }
  destruct G as [e G]. exists e.
  destruct (lookup_lt_is_Some_2 (tasks app) index Hi) as [old Eo].
  unfold edit_task. rewrite Eo, G. eexists. repeat split; reflexivity.
Qed.

(** X15.  [edit_task] touches one row only: whatever the form, the
    registry keeps its length, every other row keeps its task, and
    [running_tasks] and the running backups are not changed; without a
    selected row, or when the dialog is closed without OK, nothing changes
    at all.  Before it changes anything it raises [IndexError] for a
    selection beyond the last row, and otherwise only what the
    construction of the dialog on the selected row raises. *)
Theorem edit_task_frame
    (depth : nat) (app : BackupApp) (selected : option nat)
    (dialog : res (option TaskDialog)) (clock : datetime) :
  match edit_task_dialog depth app selected dialog clock with
  | Ok app' =>
      length (tasks app') = length (tasks app) /\
      (forall j, selected <> Some j -> tasks app' !! j = tasks app !! j) /\
      running_tasks app' = running_tasks app /\ in_flight app' = in_flight app /\
      (selected = None \/ dialog = Ok None -> app' = app)
  | Raise e =>
      exists i, selected = Some i /\
        ((length (tasks app) <= i)%nat /\ e = IndexError \/
         (i < length (tasks app))%nat /\ dialog = Raise e)
  end.
Proof.
  unfold edit_task_dialog, edit_task. destruct selected as [i |]; [| cbn; tauto].
  destruct (tasks app !! i) as [old |] eqn:Eo.
  - pose proof (lookup_lt_Some _ _ _ Eo) as Hi.
    destruct dialog as [[d |] | e]; cbn [mbind res_bind].
    + destruct (on_ok depth d clock) as [[result |] l]; cbn.
      * rewrite length_insert. repeat split; try congruence.
        -- intros j Hj. apply list_lookup_insert_ne. congruence.
        -- intros [H | H]; discriminate.
      * repeat split; try congruence. intros [H | H]; discriminate.
    + cbn. repeat split; congruence.
    + exists i. split; [reflexivity |]. right. split; [exact Hi | reflexivity].
  - exists i. split; [reflexivity |]. left. split; [| reflexivity].
    apply lookup_ge_None. exact Eo.
Qed.

(** ** The settings dialog *)

Lemma save_level (config : gmap string pyval) (level : res Z) :
  (exists v, config !! "compression_level" = Some (PInt v) /\ 0 <= v <= 9) ->
  (exists v, fst (fst (SettingsDialog_save config level)) !! "compression_level"
             = Some (PInt v) /\ 0 <= v <= 9) /\
  (forall key, key <> "compression_level" ->
     fst (fst (SettingsDialog_save config level)) !! key = config !! key).
Proof.
  intros H. unfold SettingsDialog_save.
  destruct level as [v | e]; cbn; [| tauto].
  destruct (in_range 0 v 9) eqn:R; cbn; [| tauto].
  apply in_range_spec in R. split.
  - exists v. rewrite lookup_insert_eq. tauto.
  - intros key Hk. apply lookup_insert_ne. congruence.
Qed.

(** X16.  The settings dialog keeps the compression level an integer
    between 0 and 9: after any sequence of saves, with any texts in the
    spin box, a configuration that started with a level in [0, 9] still
    has one, and none of its other keys has changed. *)
Theorem settings_keep_level_in_range
    (levels : list (res Z)) (config : gmap string pyval) :
  (exists v, config !! "compression_level" = Some (PInt v) /\ 0 <= v <= 9) ->
  (exists v, settings_session config levels !! "compression_level" = Some (PInt v)
             /\ 0 <= v <= 9) /\
  (forall key, key <> "compression_level" ->
     settings_session config levels !! key = config !! key).
Proof.
  revert config. induction levels as [| level levels IH]; intros config H;
    cbn [settings_session]; [tauto |].
  destruct (save_level config level H) as [H1 H2].
  destruct (IH _ H1) as [I1 I2]. split; [exact I1 |].
  intros key Hk. rewrite I2 by assumption. apply H2. assumption.
Qed.


(** ** What a backup leaves behind *)

Lemma zip_all_prefix (z : archive) (files : list (list string * option string)) :
  zip_all z files =
    (z ++ readable_prefix files,
     if all_readable files then Ok () else Raise PermissionError).
Proof.
  revert z. induction files as [| [p c] files IH]; intros z; cbn.
  - rewrite app_nil_r. reflexivity.
  - destruct c as [data |]; cbn.
    + rewrite IH, <- app_assoc. reflexivity.
    + rewrite app_nil_r. reflexivity.
Qed.

Lemma readable_prefix_all (files : list (list string * option string)) :
  all_readable files = true -> readable_prefix files = readable_entries files.
Proof.
  induction files as [| [p c] files IH]; cbn; [reflexivity |].
  destruct c as [data |]; [| discriminate]. cbn. intros H. rewrite IH by exact H.
  reflexivity.
Qed.


(** induction over a tree and the entries of its folders *)
Lemma node_induction (P : node -> Prop) :
  (forall c, P (File c)) ->
  P Locked ->
  (forall es, Forall (fun e => P (snd e)) es -> P (Folder es)) ->
  forall n, P n.
Proof.
  intros HF HL HD. fix IH 1. intros [c | es |]; [apply HF | apply HD | apply HL].
  induction es as [| e es IHes]; constructor; [apply IH | exact IHes].
Qed.

Lemma copy_tree_Folder (prefix : list string) (entries : list (string * node)) :
  copy_tree prefix (Folder entries) =
    (Folder (flat_map (fun c => fst (fst c)) (map (copy_entry prefix) entries)),
     flat_map (fun c => snd (fst c)) (map (copy_entry prefix) entries),
     flat_map snd (map (copy_entry prefix) entries)).
Proof. reflexivity. Qed.

Lemma walk_Folder (prefix : list string) (entries : list (string * node)) :
  walk prefix (Folder entries) =
    flat_map (files_of prefix) entries ++ flat_map (folders_of prefix) entries.
Proof. reflexivity. Qed.

Lemma readable_entries_app (a b : list (list string * option string)) :
  readable_entries (a ++ b) = readable_entries a ++ readable_entries b.
Proof. unfold readable_entries. apply flat_map_app. Qed.

Lemma unreadable_app (a b : list (list string * option string)) :
  unreadable (a ++ b) = unreadable a ++ unreadable b.
Proof. unfold unreadable. apply filter_app. Qed.

(** the copy holds the readable files that [os.walk] reaches in the tree
    and nothing else, one line is printed for every unreadable file, and
    an error is kept exactly when some folder cannot be listed *)
Lemma copy_tree_spec (n : node) :
  forall p q : list string,
    walk q (fst (fst (copy_tree p n))) = as_files (readable_entries (walk q n)) /\
    snd (fst (copy_tree p n)) ≡ₚ map skipped (unreadable (walk p n)) /\
    (snd (copy_tree p n) = [] <-> listable n = true).
Proof.
  induction n as [c | | es IH] using node_induction; intros p q.
  - repeat split; reflexivity.
  - cbn. split; [reflexivity |]. split; [reflexivity |]. split; discriminate.
  - rewrite copy_tree_Folder. cbn [fst snd listable]. rewrite !walk_Folder.
    rewrite readable_entries_app, unreadable_app. unfold as_files.
    rewrite !map_app.
    assert (G :
      flat_map (files_of q) (flat_map (fun c => fst (fst c)) (map (copy_entry p) es))
        = map (fun e => (fst e, Some (snd e))) (readable_entries (flat_map (files_of q) es)) /\
      flat_map (folders_of q) (flat_map (fun c => fst (fst c)) (map (copy_entry p) es))
        = map (fun e => (fst e, Some (snd e))) (readable_entries (flat_map (folders_of q) es)) /\
      flat_map (fun c => snd (fst c)) (map (copy_entry p) es)
        ≡ₚ map skipped (unreadable (flat_map (files_of p) es))
           ++ map skipped (unreadable (flat_map (folders_of p) es)) /\
      (flat_map snd (map (copy_entry p) es) = [] <->
       forallb (fun e => listable (snd e)) es = true)).
    { induction IH as [| [s n] es Hn _ IHes]; [repeat split; reflexivity |].
      destruct IHes as (G1 & G2 & G3 & G4).
      cbn [map flat_map forallb]. rewrite !flat_map_app, G1, G2, G3.
      rewrite andb_true_iff, <- G4.
      cbn [snd] in Hn.
      destruct n as [[data |] | sub |].
      - cbn. repeat split; try reflexivity; tauto.
      - cbn. repeat split; try reflexivity; tauto.
      - assert (C : copy_entry p (s, Folder sub) =
                    ([(s, fst (fst (copy_tree (p ++ [s]) (Folder sub))))],
                     snd (fst (copy_tree (p ++ [s]) (Folder sub))),
                     snd (copy_tree (p ++ [s]) (Folder sub)))).
        { unfold copy_entry. cbn [fst snd].
          destruct (copy_tree (p ++ [s]) (Folder sub)) as [[n1 l1] e1]; reflexivity. }
        rewrite C. clear C.
        destruct (Hn (p ++ [s]) (q ++ [s])) as (W & _ & _).
        destruct (Hn (p ++ [s]) (p ++ [s])) as (_ & L & E).
        rewrite copy_tree_Folder in *. cbn [fst snd] in *.
        cbn [flat_map].
        change (files_of ?a (s, Folder ?x)) with (@nil (list string * option string)).
        change (folders_of ?a (s, Folder ?x)) with (walk (a ++ [s]) (Folder x)).
        cbn [app]. rewrite !app_nil_r.
        split; [reflexivity |]. split; [| split].
        + rewrite W, readable_entries_app, map_app. reflexivity.
        + rewrite unreadable_app, map_app, L.
          rewrite !(assoc app). apply Permutation_app_tail.
          apply Permutation_app_comm.
        + rewrite <- E. split.
          * intros H. apply app_eq_nil in H. exact H.
          * intros [H1 H2]. rewrite H1, H2. reflexivity.
      - cbn. repeat split; try reflexivity; try discriminate.
        intros [H _]. discriminate. }
    destruct G as (G1 & G2 & G3 & G4). rewrite G1, G2.
    split; [reflexivity |]. split; [exact G3 | exact G4].
Qed.


Lemma add_all_spec (z : archive) (base : string)
    (files : list (list string * option string)) :
  add_all z base files =
    (z ++ map (fun e => (arc_name base (fst e), snd e)) (readable_entries files),
     map skipped (unreadable files)).
Proof.
  revert z. induction files as [| [p c] files IH]; intros z; cbn [add_all].
  - cbn. rewrite app_nil_r. reflexivity.
  - destruct c as [data |]; cbn [add_to_zip zip_write].
    + rewrite IH. unfold unreadable. rewrite filter_cons.
      rewrite decide_False by discriminate. cbn. rewrite <- app_assoc. reflexivity.
    + rewrite IH. unfold unreadable. rewrite filter_cons.
      rewrite decide_True by reflexivity. reflexivity.
Qed.


(** ** The registry after a tick *)

(** X21.  While the clock does not go back and stays at most
    9999-12-31T23:54:59.999999, one tick of [scheduler_loop] over a
    registry of tasks of the four kinds leaves no task due at the tick's
    [now]: every task it started has a [next_run] after it, so the same
    [now] would start nothing again. *)
Theorem scheduler_tick_leaves_nothing_due
    (depth : nat) (clk : nat -> datetime) (app : BackupApp) (k : nat) :
  (forall i, dt_ok (clk i) = true /\ dt_le (clk k) (clk i) = true /\
             dt_le (clk i) LAST_SAFE = true) ->
  Forall (fun t => recognised (frequency t) = true) (tasks app) ->
  due_tasks (tasks (fst (scheduler_tick (S depth) clk app k))) (clk k) = [] /\
  forall k2, claim_due (S depth) clk (clk k)
               (tasks (fst (scheduler_tick (S depth) clk app k))) k2
             = (tasks (fst (scheduler_tick (S depth) clk app k)), Ok [], [], k2).
Proof.
  intros Hclk Hrec. destruct (Hclk k) as (Hk & _ & _).
  destruct (claim_due_second_pass depth clk (clk k) (tasks app) (S k) Hk Hclk Hrec)
    as (ts' & to_run & l & k' & E & F & S2).
  unfold scheduler_tick. rewrite E. cbn [fst].
  destruct (dispatch_effect to_run (add_log (set_tasks app ts') l)) as (_ & T & _).
  rewrite T. cbn [tasks add_log set_tasks]. split; [| exact S2].
  unfold due_tasks. clear -F. induction F as [| t ts Ht _ IH]; [reflexivity |].
  rewrite filter_cons, decide_False by (rewrite Ht; discriminate). exact IH.
Qed.

(** ** The pass of the Tk timer *)

Lemma same_identity_sym (a b : BackupTask) : same_identity a b -> same_identity b a.
Proof. unfold same_identity. intuition congruence. Qed.

(** the two passes claim alike; they differ in what they have started
    when a claim raises *)
Lemma check_loop_spec (depth : nat) (clk : nat -> datetime) (now : datetime)
    (ts : list BackupTask) :
  forall (app : BackupApp) (k : nat),
    exists (started : list BackupTask) (lg : list log_entry),
      check_loop depth clk now app ts k =
        (fst (fst (fst (claim_due depth clk now ts k))),
         mkBackupApp (tasks app) (running_tasks app) (in_flight app ++ started)
           (log app ++ lg),
         match snd (fst (fst (claim_due depth clk now ts k))) with
         | Ok _ => Ok ()
         | Raise e => Raise e
         end,
         snd (claim_due depth clk now ts k)) /\
      match snd (fst (fst (claim_due depth clk now ts k))) with
      | Ok to_run => Forall2 same_identity started to_run
      | Raise _ => started <> []
      end.
Proof.
  induction ts as [| t ts IH]; intros app k; cbn [claim_due check_loop].
  - exists [], []. rewrite !app_nil_r. destruct app. split; [reflexivity | constructor].
  - destruct (due t now) eqn:D.
    + pose proof (claim_identity depth t now (clk k)) as [I _].
      destruct (claim depth t now (clk k)) as [[t' [u | e]] l]; cbn [fst] in I.
      * destruct (IH (add_log (run_task app t) l) (S k)) as (st & lg & E & M).
        rewrite E. clear E.
        destruct (claim_due depth clk now ts (S k)) as [[[ts1 r1] l1] k1].
        cbn [fst snd] in *.
        exists (t :: st), ([Info "Запуск задачи"] ++ l ++ lg).
        cbn [log tasks running_tasks in_flight add_log run_task].
        rewrite <- !app_assoc. cbn [Datatypes.app].
        destruct r1 as [tr | e1]; cbn [mbind res_bind];
          (split; [reflexivity |]).
        -- constructor; [apply same_identity_sym; exact I | exact M].
        -- discriminate.
      * exists [t], ([Info "Запуск задачи"] ++ l).
        unfold add_log, run_task.
        cbn [fst snd log tasks running_tasks in_flight].
        rewrite <- ?app_assoc.
        split; [reflexivity | discriminate].
    + destruct (IH app k) as (st & lg & E & M).
      rewrite E. clear E.
      destruct (claim_due depth clk now ts k) as [[[ts1 r1] l1] k1].
      cbn [fst snd] in *.
      exists st, lg. split; [reflexivity | exact M].
Qed.


(** * Instances and counterexamples *)

(** C8 at the scenario of the specification: minute 30 seen at
    2024-01-01T10:15:00. *)
Lemma hourly_next_run_witness :
  exists r,
    calculate_next_run_at 1 (sample_task "hourly" (PInt 30))
      (DateTime 2024 1 1 10 15 0 0) = (Ok r, []) /\
    dt_ok r = true /\ dt_lt (DateTime 2024 1 1 10 15 0 0) r = true /\
    minute r = 30 /\ second r = 0 /\ microsecond r = 0 /\
    0 < td_us (dt_sub r (DateTime 2024 1 1 10 15 0 0)) <= HOUR_US.
Proof.
  apply (proj1 hourly_next_run 0%nat (sample_task "hourly" (PInt 30))
           (DateTime 2024 1 1 10 15 0 0) 30);
    [reflexivity | reflexivity | reflexivity | lia | reflexivity].
Defined.

(** In the last hour of year 9999 the hourly branch overflows and the
    handler returns [t] + 5 minutes, whose minute is not the parameter. *)
Lemma hourly_next_run_counterexample :
  let task := sample_task "hourly" (PInt 15) in
  let t := DateTime 9999 12 31 23 30 0 0 in
  dt_ok t = true /\
  calculate_next_run_at 1 task t =
    (Ok (DateTime 9999 12 31 23 35 0 0),
     [Error "Ошибка расчета времени для задачи" OverflowError]) /\
  ~ (exists r l, calculate_next_run_at 1 task t = (Ok r, l) /\ minute r = 15).
Proof.
  cbn zeta. split; [reflexivity |]. split; [reflexivity |].
  intros (r & l & E & M). vm_compute in E. inversion E; subst. discriminate M.
Qed.

(** C6 at the scenario of the specification: day 31 seen on 2024-01-20. *)
Lemma monthly_next_run_witness :
  let t := DateTime 2024 1 20 0 0 0 0 in
  let r := DateTime (target_year t) (target_month t)
             (Z.min 31 (Cal.days_in_month (target_year t) (target_month t))) 0 0 0 0 in
  calculate_next_run_at 1 (sample_task "monthly" (PTuple [PInt 31; PInt 0; PInt 0])) t
    = (Ok r, []) /\
  dt_ok r = true /\ dt_lt t r = true.
Proof.
  apply (proj1 monthly_next_run 0%nat
           (sample_task "monthly" (PTuple [PInt 31; PInt 0; PInt 0]))
           (DateTime 2024 1 20 0 0 0 0) 31 0 0);
    [reflexivity | reflexivity | reflexivity | lia | lia | lia | reflexivity].
Defined.

(** In the last minutes of December 9999 there is no next month, and the
    handler's [t] + 5 minutes overflows: the computation raises. *)
Lemma monthly_next_run_counterexample :
  let task := sample_task "monthly" (PTuple [PInt 31; PInt 0; PInt 0]) in
  let t := DateTime 9999 12 31 23 58 0 0 in
  dt_ok t = true /\
  calculate_next_run_at 1 task t =
    (Raise OverflowError, [Error "Ошибка расчета времени для задачи" ValueError]) /\
  ~ (exists r l, calculate_next_run_at 1 task t = (Ok r, l)).
Proof.
  cbn zeta. split; [reflexivity |]. split; [reflexivity |].
  intros (r & l & E). vm_compute in E. discriminate E.
Qed.

(** C5 for a weekly task seen on Monday 2024-01-01. *)
Lemma next_run_strictly_after_witness :
  exists r l,
    calculate_next_run_at 1 (sample_task "weekly" (PTuple [PInt 2; PInt 9; PInt 0]))
      (DateTime 2024 1 1 0 0 0 0) = (Ok r, l) /\
    dt_ok r = true /\ dt_lt (DateTime 2024 1 1 0 0 0 0) r = true /\
    (year (DateTime 2024 1 1 0 0 0 0) < 9999 -> l = []).
Proof.
  apply (next_run_strictly_after 0%nat
           (sample_task "weekly" (PTuple [PInt 2; PInt 9; PInt 0]))
           (DateTime 2024 1 1 0 0 0 0)).
  - reflexivity.
  - apply (valid_weekly _ 2 9 0); [reflexivity | lia | lia | lia].
  - reflexivity.
Defined.

(** Two minutes before the end of year 9999 an hourly task at minute 0
    gets no next run at all: the computation raises [OverflowError]. *)
Lemma next_run_strictly_after_counterexample :
  let task := sample_task "hourly" (PInt 0) in
  let t := DateTime 9999 12 31 23 58 0 0 in
  dt_ok t = true /\
  valid_recurrence (frequency task) (time_params task) /\
  calculate_next_run_at 1 task t =
    (Raise OverflowError, [Error "Ошибка расчета времени для задачи" OverflowError]) /\
  ~ (exists r l, calculate_next_run_at 1 task t = (Ok r, l) /\ dt_lt t r = true).
Proof.
  cbn zeta. split; [reflexivity |].
  split; [apply valid_hourly; lia |]. split; [reflexivity |].
  intros (r & l & E & _). vm_compute in E. discriminate E.
Qed.

(** C9 for a task whose frequency is "yearly". *)
Lemma unrecognised_frequency_always_due_witness :
  let task := sample_task "yearly" (PInt 1) in
  (forall now clock : datetime,
     calculate_next_run 1 task (Some now) clock = (Ok now, []) /\
     calculate_next_run 1 task None clock = (Ok clock, [])) /\
  (forall now clock : datetime,
     claim 1 task now clock =
       (set_next_run (set_last_run task (Some now)) clock, Ok (), []) /\
     forall tick : datetime,
       dt_le clock tick = true ->
       due (set_next_run (set_last_run task (Some now)) clock) tick = true).
Proof.
  apply (unrecognised_frequency_always_due 0%nat (sample_task "yearly" (PInt 1))).
  reflexivity.
Defined.

(** C3 for an hourly task due at 10:15:00 and claimed a second later. *)
Lemma claim_makes_not_due_witness :
  exists (task' : BackupTask) (l : list log_entry),
    claim 1 (sample_task "hourly" (PInt 30))
      (DateTime 2024 1 1 10 15 0 0) (DateTime 2024 1 1 10 15 1 0) = (task', Ok (), l) /\
    last_run task' = Some (DateTime 2024 1 1 10 15 0 0) /\
    dt_lt (DateTime 2024 1 1 10 15 1 0) (next_run task') = true /\
    due task' (DateTime 2024 1 1 10 15 0 0) = false.
Proof.
  apply (claim_makes_not_due 0%nat (sample_task "hourly" (PInt 30))
           (DateTime 2024 1 1 10 15 0 0) (DateTime 2024 1 1 10 15 1 0));
    reflexivity.
Defined.

(** A due task whose frequency is "yearly" is still due after its claim
    when the clock has not moved: its [next_run] becomes the clock
    reading. *)
Lemma claim_makes_not_due_counterexample :
  let task := sample_task "yearly" (PInt 1) in
  let now := DateTime 2024 6 1 12 0 0 0 in
  due task now = true /\
  claim 1 task now now =
    (set_next_run (set_last_run task (Some now)) now, Ok (), []) /\
  due (set_next_run (set_last_run task (Some now)) now) now = true /\
  ~ (exists task' l, claim 1 task now now = (task', Ok (), l) /\ due task' now = false).
Proof.
  cbn zeta. split; [reflexivity |]. split; [reflexivity |]. split; [reflexivity |].
  intros (task' & l & E & D). vm_compute in E. inversion E; subst. discriminate D.
Qed.

(** C7 for a daily task built by the dialog, run once, and reloaded in
    2025. *)
Lemma reload_reproduces_task_witness :
  let task := set_last_run (sample_task "daily" (PTuple [PInt 15; PInt 30]))
                (Some (DateTime 2024 1 3 15 30 4 250000)) in
  let clock1 := DateTime 2025 3 1 8 0 0 0 in
  let clock2 := DateTime 2025 3 1 8 0 0 1000 in
  exists (task' : BackupTask) (l : list log_entry),
    load_task 1 (json_reload <$> to_dict task) clock1 clock2 = (Ok task', l) /\
    name task' = name task /\ source task' = source task /\
    destination task' = destination task /\ compression task' = compression task /\
    frequency task' = frequency task /\
    time_params task' = json_reload (time_params task) /\
    last_run task' = last_run task /\
    (forall d t, calculate_next_run_at d task' t = calculate_next_run_at d task t) /\
    (forall stored : datetime,
       fst (calculate_next_run 1 (set_next_run task stored) None clock2)
       = Ok (next_run task')).
Proof.
  cbn zeta.
  apply (reload_reproduces_task 0%nat
           (set_last_run (sample_task "daily" (PTuple [PInt 15; PInt 30]))
              (Some (DateTime 2024 1 3 15 30 4 250000)))
           (DateTime 2025 3 1 8 0 0 0) (DateTime 2025 3 1 8 0 0 1000));
    try reflexivity.
  intros t H. inversion H. reflexivity.
Defined.

(** The parameters of a daily task as [on_ok] builds them, the tuple
    (15, 30), are not identical after the reload: [json.load] returns the
    list [[15, 30]]. *)
Lemma reload_reproduces_task_counterexample :
  let task := sample_task "daily" (PTuple [PInt 15; PInt 30]) in
  let clock1 := DateTime 2025 3 1 8 0 0 0 in
  let clock2 := DateTime 2025 3 1 8 0 0 1000 in
  (exists (task' : BackupTask) (l : list log_entry),
     load_task 1 (json_reload <$> to_dict task) clock1 clock2 = (Ok task', l) /\
     time_params task' = PList [PInt 15; PInt 30]) /\
  ~ (exists (task' : BackupTask) (l : list log_entry),
       load_task 1 (json_reload <$> to_dict task) clock1 clock2 = (Ok task', l) /\
       time_params task' = time_params task).
Proof.
  cbn zeta. split.
  - eexists _, _. split; [vm_compute; reflexivity | reflexivity].
  - intros (task' & l & E & T). vm_compute in E. inversion E; subst. discriminate T.
Qed.

(** C10 for a registry whose only task ran on 2024-01-03 and is edited
    into an hourly task. *)
Lemma edit_resets_last_run_witness :
  let old := set_last_run (sample_task "daily" (PTuple [PInt 15; PInt 30]))
               (Some (DateTime 2024 1 3 15 30 4 250000)) in
  let app := mkBackupApp [old] 0 [] [] in
  let d := mkTaskDialog "docs" "/home/user/docs" "/mnt/backup" true "hourly"
             (Ok 30) (Raise AttributeError) (Raise AttributeError)
             (Raise AttributeError) in
  let clock := DateTime 2024 1 5 9 0 0 0 in
  exists (result : BackupTask) (l : list log_entry) (app' : BackupApp),
    on_ok 1 d clock = (Some result, l) /\
    edit_task 1 app (Some 0%nat) (Some d) clock = Ok app' /\
    tasks app' = <[0%nat := result]> (tasks app) /\
    tasks app' !! 0%nat = Some result /\
    last_run result = None /\
    fst (calculate_next_run 1 result None clock) = Ok (next_run result).
Proof.
  cbn zeta.
  apply (edit_resets_last_run 0%nat _ 0%nat
           (set_last_run (sample_task "daily" (PTuple [PInt 15; PInt 30]))
              (Some (DateTime 2024 1 3 15 30 4 250000)))
           _ (PInt 30)); reflexivity.
Defined.

(** * Instances of the further properties *)

(** a daily task at 15:30 seen at 10:15 the same day *)
Lemma daily_next_run_witness :
  exists r,
    calculate_next_run_at 1 (sample_task "daily" (PTuple [PInt 15; PInt 30]))
      (DateTime 2024 1 1 10 15 0 0) = (Ok r, []) /\
    dt_ok r = true /\ dt_lt (DateTime 2024 1 1 10 15 0 0) r = true /\
    hour r = 15 /\ minute r = 30 /\ second r = 0 /\ microsecond r = 0 /\
    0 < td_us (dt_sub r (DateTime 2024 1 1 10 15 0 0)) <= DAY_US.
Proof.
  apply (daily_next_run 0%nat (sample_task "daily" (PTuple [PInt 15; PInt 30]))
           (DateTime 2024 1 1 10 15 0 0) 15 30);
    [reflexivity | reflexivity | reflexivity | lia | lia | reflexivity].
Defined.

(** a task for Wednesdays at 09:30 seen on Friday 2024-01-05 *)
Lemma weekly_next_run_witness :
  exists r,
    calculate_next_run_at 1 (sample_task "weekly" (PTuple [PInt 2; PInt 9; PInt 30]))
      (DateTime 2024 1 5 9 0 0 0) = (Ok r, []) /\
    dt_ok r = true /\ dt_lt (DateTime 2024 1 5 9 0 0 0) r = true /\ dt_weekday r = 2 /\
    hour r = 9 /\ minute r = 30 /\ second r = 0 /\ microsecond r = 0 /\
    0 < td_us (dt_sub r (DateTime 2024 1 5 9 0 0 0)) <= 7 * DAY_US.
Proof.
  apply (weekly_next_run 0%nat (sample_task "weekly" (PTuple [PInt 2; PInt 9; PInt 30]))
           (DateTime 2024 1 5 9 0 0 0) 2 9 30);
    [reflexivity | reflexivity | reflexivity | lia | lia | lia | cbn; lia].
Defined.

(** a monthly task for the 31st seen on 2024-01-20 *)
Lemma monthly_never_recurses_witness :
  let self := sample_task "monthly" (PTuple [PInt 31; PInt 0; PInt 0]) in
  let t := DateTime 2024 1 20 0 0 0 0 in
  calculate_next_run_at 5 self t = next_run_except t (plain_next self t, []) /\
  calculate_next_run_at 5 self t = calculate_next_run_at 1 self t.
Proof.
  apply (monthly_never_recurses 4%nat
           (sample_task "monthly" (PTuple [PInt 31; PInt 0; PInt 0]))
           (DateTime 2024 1 20 0 0 0 0)).
  reflexivity.
Defined.

(** an hourly task whose stored minute is 75 *)
Lemma malformed_params_fallback_witness :
  exists r e,
    calculate_next_run_at 1 (sample_task "hourly" (PInt 75)) (DateTime 2024 1 1 10 15 0 0) =
      (Ok r, [Error "Ошибка расчета времени для задачи" e]) /\
    dt_ok r = true /\
    timestamp r = timestamp (DateTime 2024 1 1 10 15 0 0) + 5 * MINUTE_US.
Proof.
  apply (malformed_params_fallback 0%nat (sample_task "hourly" (PInt 75))
           (DateTime 2024 1 1 10 15 0 0)); [reflexivity | reflexivity |].
  left. split; [reflexivity |]. exists 75. split; [reflexivity | lia].
Defined.

(** a monthly task for day 40 seen in January 2024: the 29th of February *)
Lemma monthly_day_out_of_range_witness :
  calculate_next_run_at 1 (sample_task "monthly" (PTuple [PInt 40; PInt 6; PInt 0]))
    (DateTime 2024 1 20 0 0 0 0) = (Ok (DateTime 2024 2 29 6 0 0 0), []).
Proof.
  apply (monthly_day_out_of_range 0%nat
           (sample_task "monthly" (PTuple [PInt 40; PInt 6; PInt 0]))
           (DateTime 2024 1 20 0 0 0 0) 40 6 0);
    [reflexivity | reflexivity | reflexivity | lia | right; vm_compute; reflexivity
    | lia | lia
    | reflexivity].
Defined.

(** the registry of [weekly_app] at the time its task is due *)
Lemma scheduler_tick_dispatches_due_witness :
  let clk := fun _ : nat => DateTime 2024 1 3 12 0 0 0 in
  exists to_run,
    in_flight (fst (scheduler_tick 1 clk weekly_app 0)) = in_flight weekly_app ++ to_run /\
    Forall2 same_identity to_run (due_tasks (tasks weekly_app) (clk 0%nat)) /\
    Forall2 same_identity (tasks (fst (scheduler_tick 1 clk weekly_app 0)))
      (tasks weekly_app) /\
    running_tasks (fst (scheduler_tick 1 clk weekly_app 0)) = running_tasks weekly_app /\
    snd (scheduler_tick 1 clk weekly_app 0)
      = (1 + length (due_tasks (tasks weekly_app) (clk 0%nat)))%nat.
Proof.
  cbn zeta.
  apply (scheduler_tick_dispatches_due 0%nat (fun _ => DateTime 2024 1 3 12 0 0 0)
           weekly_app 0%nat).
  intros i. split; reflexivity.
Defined.

(** two minutes before the end of year 9999: the claim of the "yearly"
    task succeeds, that of the hourly task raises, and neither is
    started *)
Lemma scheduler_tick_claim_raises_witness :
  let clk := fun _ : nat => DateTime 9999 12 31 23 58 0 0 in
  let app := mkBackupApp [sample_task "yearly" (PInt 1); sample_task "hourly" (PInt 0)]
               0 [] [] in
  in_flight (fst (scheduler_tick 1 clk app 0)) = in_flight app /\
  log (fst (scheduler_tick 1 clk app 0))
    = log app ++ [Error "Ошибка расчета времени для задачи" OverflowError]
      ++ [Error "Ошибка планировщика" OverflowError] /\
  exists pre pre' t post,
    tasks app = pre ++ t :: post /\
    tasks (fst (scheduler_tick 1 clk app 0))
      = pre' ++ set_last_run t (Some (clk 0%nat)) :: post /\
    length pre' = length pre /\ due t (clk 0%nat) = true.
Proof.
  cbn zeta.
  apply (scheduler_tick_claim_raises 1%nat (fun _ => DateTime 9999 12 31 23 58 0 0)
           (mkBackupApp [sample_task "yearly" (PInt 1); sample_task "hourly" (PInt 0)]
              0 [] [])
           0%nat
           [set_next_run (set_last_run (sample_task "yearly" (PInt 1))
                            (Some (DateTime 9999 12 31 23 58 0 0)))
              (DateTime 9999 12 31 23 58 0 0);
            set_last_run (sample_task "hourly" (PInt 0))
              (Some (DateTime 9999 12 31 23 58 0 0))]
           OverflowError
           [Error "Ошибка расчета времени для задачи" OverflowError] 3%nat).
  reflexivity.
Defined.

(** one backup started and ended *)
Lemma status_never_in_progress_witness :
  let app := mkBackupApp [] (-1) []
               [Info "Запуск задачи"; Info "1"; Info "2"; Info "3"; Info "4"; Info "6"] in
  let evs := [Start (sample_task "daily" (PTuple [PInt 3; PInt 0]));
              Finish 0 (World None true)] in
  let now := DateTime 2024 1 1 10 0 0 0 in
  running_tasks app = - finished evs /\
  Z.of_nat (length (in_flight app)) = started evs - finished evs /\
  color (update_status app now) <> "orange" /\
  status_text (update_status app now) <> "Статус: Выполняется резервное копирование...".
Proof.
  cbn zeta.
  apply (status_never_in_progress
           [Start (sample_task "daily" (PTuple [PInt 3; PInt 0]));
            Finish 0 (World None true)]
           (mkBackupApp [] (-1) []
              [Info "Запуск задачи"; Info "1"; Info "2"; Info "3"; Info "4"; Info "6"])
           (DateTime 2024 1 1 10 0 0 0)).
  reflexivity.
Defined.

(** a task due at 12:30 seen at 10:00 the same day *)
Lemma update_status_within_a_day_witness :
  let app := mkBackupApp [set_next_run (sample_task "hourly" (PInt 30))
                            (DateTime 2024 1 1 12 30 0 0)] 0 [] [] in
  let now := DateTime 2024 1 1 10 0 0 0 in
  let n := DateTime 2024 1 1 12 30 0 0 in
  exists h m,
    next_task_text (update_status app now) =
      "Ближайшая задача через: " +:+ pretty h +:+ "ч " +:+ pretty m +:+ "м" /\
    0 <= h <= 23 /\ 0 <= m <= 59 /\
    (h * 60 + m) * MINUTE_US <= timestamp n - timestamp now
      < (h * 60 + m + 1) * MINUTE_US.
Proof.
  cbn zeta.
  apply (update_status_within_a_day
           (mkBackupApp [set_next_run (sample_task "hourly" (PInt 30))
                           (DateTime 2024 1 1 12 30 0 0)] 0 [] [])
           (DateTime 2024 1 1 10 0 0 0) (DateTime 2024 1 1 12 30 0 0));
    [reflexivity | reflexivity | reflexivity | vm_compute; split; reflexivity].
Defined.

(** a registry of two tasks, one of which has run, reloaded in 2025 *)
Lemma load_tasks_saved_registry_witness :
  let clk := fun _ : nat => DateTime 2025 3 1 8 0 0 0 in
  let ts := [set_last_run (sample_task "daily" (PTuple [PInt 15; PInt 30]))
               (Some (DateTime 2024 1 3 15 30 4 250000));
             sample_task "hourly" (PInt 30)] in
  exists app',
    load_tasks 1 clk BackupApp_init (Some (saved_data ts)) 0
      = (app', Ok (), (0 + 2 * length ts)%nat) /\
    Forall2 reloaded (tasks app') ts /\
    saved_data (tasks app') = saved_data ts.
Proof.
  cbn zeta.
  apply (load_tasks_saved_registry 0%nat (fun _ => DateTime 2025 3 1 8 0 0 0)
           [set_last_run (sample_task "daily" (PTuple [PInt 15; PInt 30]))
              (Some (DateTime 2024 1 3 15 30 4 250000));
            sample_task "hourly" (PInt 30)] 0%nat).
  - intros i. split; reflexivity.
  - repeat constructor; cbn; intros d H; inversion H; reflexivity.
Defined.

(** a file whose second record has no "frequency" *)
Lemma load_tasks_missing_key_witness :
  let clk := fun _ : nat => DateTime 2025 3 1 8 0 0 0 in
  let good := [sample_task "hourly" (PInt 30)] in
  let item := delete "frequency"
                (to_dict (sample_task "daily" (PTuple [PInt 15; PInt 30]))) in
  exists app' k',
    load_tasks 1 clk BackupApp_init (Some (saved_data good ++ item :: [])) 0
      = (app', Raise KeyError, k') /\
    Forall2 reloaded (tasks app') good.
Proof.
  cbn zeta.
  apply (load_tasks_missing_key 0%nat (fun _ => DateTime 2025 3 1 8 0 0 0)
           [sample_task "hourly" (PInt 30)]
           (delete "frequency" (to_dict (sample_task "daily" (PTuple [PInt 15; PInt 30]))))
           [] "frequency" 0%nat).
  - intros i. split; reflexivity.
  - repeat constructor; cbn; intros d H; inversion H.
  - unfold task_keys. set_solver.
  - apply lookup_delete_eq.
Defined.

(** the form of a task for Wednesdays at 09:30, confirmed on Friday
    2024-01-05 at 09:00 *)
Lemma on_ok_builds_valid_task_witness :
  let d := mkTaskDialog "docs" "/home/user/docs" "/mnt/backup" true "weekly"
             (Ok 30) (Ok 9) (Raise AttributeError) (Ok 2) in
  let clock := DateTime 2024 1 5 9 0 0 0 in
  let task := mkBackupTask (PStr "docs") (PStr "/home/user/docs") (PStr "/mnt/backup")
                (PBool true) (PStr "weekly") (PTuple [PInt 2; PInt 9; PInt 30]) None
                (DateTime 2024 1 10 9 30 0 0) in
  name task = PStr (name_entry d) /\ source task = PStr (source_entry d) /\
  destination task = PStr (dest_entry d) /\
  nonempty (name_entry d) = true /\ nonempty (source_entry d) = true /\
  nonempty (dest_entry d) = true /\
  compression task = PBool (compression_var d) /\
  valid_recurrence (frequency task) (time_params task) /\
  last_run task = None /\
  dt_lt clock (next_run task) = true /\ due task clock = false.
Proof.
  cbn zeta.
  apply (on_ok_builds_valid_task 1%nat
           (mkTaskDialog "docs" "/home/user/docs" "/mnt/backup" true "weekly"
              (Ok 30) (Ok 9) (Raise AttributeError) (Ok 2))
           (DateTime 2024 1 5 9 0 0 0)
           (mkBackupTask (PStr "docs") (PStr "/home/user/docs") (PStr "/mnt/backup")
              (PBool true) (PStr "weekly") (PTuple [PInt 2; PInt 9; PInt 30]) None
              (DateTime 2024 1 10 9 30 0 0))
           []).
  - reflexivity.
  - intros w H. inversion H. lia.
  - reflexivity.
Defined.

(** the form of [weekly_app]'s task with the minute set to 75 *)
Lemma invalid_form_changes_nothing_witness :
  let d := mkTaskDialog "docs" "/home/user/docs" "/mnt/backup" true "hourly"
             (Ok 75) (Raise AttributeError) (Raise AttributeError)
             (Raise AttributeError) in
  let clock := DateTime 2024 1 5 9 0 0 0 in
  exists e app',
    on_ok 1 d clock = (None, [Error EmptyString e]) /\
    edit_task 1 weekly_app (Some 0%nat) (Some d) clock = Ok app' /\
    tasks app' = tasks weekly_app /\ running_tasks app' = running_tasks weekly_app /\
    in_flight app' = in_flight weekly_app.
Proof.
  cbn zeta.
  apply (invalid_form_changes_nothing 1%nat weekly_app 0%nat
           (mkTaskDialog "docs" "/home/user/docs" "/mnt/backup" true "hourly"
              (Ok 75) (Raise AttributeError) (Raise AttributeError)
              (Raise AttributeError))
           (DateTime 2024 1 5 9 0 0 0)).
  - cbn. lia.
  - right. right. right. right. exists 75. split; [reflexivity | lia].
Defined.

(** three uses of the settings dialog: level 5, level 12, no number *)
Lemma settings_keep_level_in_range_witness :
  let levels := [Ok 5; Ok 12; Raise ValueError] in
  (exists v, settings_session default_config levels !! "compression_level" = Some (PInt v)
             /\ 0 <= v <= 9) /\
  (forall key, key <> "compression_level" ->
     settings_session default_config levels !! key = default_config !! key).
Proof.
  cbn zeta.
  apply (settings_keep_level_in_range [Ok 5; Ok 12; Raise ValueError] default_config).
  exists 9. split; [reflexivity | lia].
Defined.



(** the registry of [weekly_app] at the time its task is due *)
Lemma scheduler_tick_leaves_nothing_due_witness :
  let clk := fun _ : nat => DateTime 2024 1 3 12 0 0 0 in
  due_tasks (tasks (fst (scheduler_tick 1 clk weekly_app 0))) (clk 0%nat) = [] /\
  forall k2, claim_due 1 clk (clk 0%nat)
               (tasks (fst (scheduler_tick 1 clk weekly_app 0))) k2
             = (tasks (fst (scheduler_tick 1 clk weekly_app 0)), Ok [], [], k2).
Proof.
  cbn zeta.
  apply (scheduler_tick_leaves_nothing_due 0%nat (fun _ => DateTime 2024 1 3 12 0 0 0)
           weekly_app 0%nat).
  - intros i. repeat split; reflexivity.
  - repeat constructor.
Defined.
